(** * Wa-Bot: the per-sender conversation engine, the session store and the
      order ledger, embedded from the TypeScript sources.

    - [src/plugins/utils.ts]          sessions, [loadSessions], [saveSessions],
                                      [normalizeText]
    - [src/plugins/sessionManager.ts] [checkExpiredSessions]
    - [src/services/orderService.ts]  [createOrder], [updateOrderStatus],
                                      [searchOrders]
    - [src/handlers/message.ts]       [MessageHandler]

    Conventions of the embedding.  A JavaScript string is the list of its
    UTF-16 code units.  A JavaScript number is an integer ([Z]): amounts of
    money and millisecond timestamps; [NaN] and fractions are outside the
    model.  An object used as a dictionary is a [gmap].  The globals of the
    modules, the two JSON files and nothing else make up the [Store]; every
    call that leaves the process (a message sent, a file written, an HTTP
    request) is answered by the [World] and recorded in a [Trace]. *)

From Stdlib Require Import ZArith String Ascii List Bool Lia.
From stdpp Require Import base option list gmap strings pretty.
From Stdlib Require QArith.

(** ** JavaScript strings *)

Abbreviation jsstring := (list N).

(** A literal of the source, Basic Latin and Latin-1 only. *)
Fixpoint js (s : string) : jsstring :=
  match s with
  | EmptyString => []
  | String a rest => N_of_ascii a :: js rest
  end.

Module JsString.

Fixpoint startsWith (s p : jsstring) : bool :=
    match p, s with
    | [], _ => true
    | _ :: _, [] => false
    | c :: p', d :: s' => (c =? d)%N && startsWith s' p'
    end.

(** [s.includes(p)] *)
Fixpoint includes (s p : jsstring) : bool :=
    startsWith s p ||
    match s with
    | [] => false
    | _ :: s' => includes s' p
    end.

(** [s.endsWith(p)] *)
Definition endsWith (s p : jsstring) : bool := startsWith (rev s) (rev p).

(** WhiteSpace and LineTerminator code units of ECMAScript. *)
Definition isWhiteSpace (c : N) : bool :=
    ((9 <=? c) && (c <=? 13) || (c =? 32) || (c =? 160) || (c =? 5760)
     || (8192 <=? c) && (c <=? 8202) || (c =? 8232) || (c =? 8233)
     || (c =? 8239) || (c =? 8287) || (c =? 12288) || (c =? 65279))%N.

Fixpoint trimStart (s : jsstring) : jsstring :=
    match s with
    | c :: s' => if isWhiteSpace c then trimStart s' else s
    | [] => []
    end.

(** [s.trim()] *)
Definition trim (s : jsstring) : jsstring := rev (trimStart (rev (trimStart s))).

(** [s.split(sep)[0]] for a one-unit separator. *)
Fixpoint splitHead (sep : N) (s : jsstring) : jsstring :=
    match s with
    | c :: s' => if (c =? sep)%N then [] else c :: splitHead sep s'
    | [] => []
    end.

(** The code units U+0300..U+036F, which [normalizeText] deletes. *)
Definition isCombiningMark (c : N) : bool := ((768 <=? c) && (c <=? 879))%N.
Definition stripMarks (s : jsstring) : jsstring :=
    filter (fun c => isCombiningMark c = false) s.

End JsString.

(** ** JavaScript values *)

(** An optional, nullable property: [x?: A | null]. *)
Inductive JsField (A : Type) : Type :=
| Undefined
| Null
| Val (a : A).
Arguments Undefined {A}.
Arguments Null {A}.
Arguments Val {A} a.

(** A catalogue identifier: [string | number]. *)
Inductive IdValue : Type :=
| IdStr (s : jsstring)
| IdNum (n : Z).

#[global] Instance IdValue_eq_dec : EqDecision IdValue.
Proof. solve_decision. Defined.

(** ToBoolean. *)
Class Truthy (A : Type) := truthy : A -> bool.

#[global] Instance truthy_number : Truthy Z := fun n => negb (n =? 0)%Z.
#[global] Instance truthy_string : Truthy jsstring :=
  fun s => match s with [] => false | _ :: _ => true end.
#[global] Instance truthy_bool : Truthy bool := fun b => b.
#[global] Instance truthy_id : Truthy IdValue :=
  fun i => match i with IdStr s => truthy s | IdNum n => truthy n end.
#[global] Instance truthy_option {A} `{Truthy A} : Truthy (option A) :=
  fun o => match o with Some a => truthy a | None => false end.
#[global] Instance truthy_field {A} `{Truthy A} : Truthy (JsField A) :=
  fun o => match o with Val a => truthy a | _ => false end.

(** [x || d] on an optional property *)
Definition orElse {A} `{Truthy A} (x : option A) (d : A) : A :=
  match x with
  | Some a => if truthy a then a else d
  | None => d
  end.

(** [x || d] on a nullable property *)
Definition fieldOrElse {A} `{Truthy A} (x : JsField A) (d : A) : A :=
  match x with
  | Val a => if truthy a then a else d
  | _ => d
  end.

(** [x ?? null] *)
Definition orNull {A} (x : JsField A) : option A :=
  match x with
  | Val a => Some a
  | _ => None
  end.

(** [String(x)] *)
Definition stringOfId (i : IdValue) : jsstring :=
  match i with
  | IdStr s => s
  | IdNum n => js (pretty n)
  end.

Definition String_ {A} (show : A -> jsstring) (x : JsField A) : jsstring :=
  match x with
  | Undefined => js "undefined"
  | Null => js "null"
  | Val a => show a
  end.

(** ** The data model *)

(** [ProductDataType], a row of [data.json] ([handlers/message.ts]). *)
Module ProductData.
Record t : Type := mk {
    ID : JsField IdValue;
    Nombre : JsField jsstring;
    Descripcion : JsField jsstring;
    Precio : JsField Z;
    Stock : JsField Z;
    ImagenURL : JsField jsstring
  }.
(** [{}] *)
Definition empty : t := mk Undefined Undefined Undefined Undefined Undefined Undefined.
End ProductData.

(** The stages of [FormState]. *)
Inductive FormStage : Type :=
| basicName
| basicId
| basicConfirmation
| addressBarrio
| addressAddress
| addressCity
| finalConfirmation.

#[global] Instance FormStage_eq_dec : EqDecision FormStage.
Proof. solve_decision. Defined.

Module FormState.
Record t : Type := mk {
    stage : FormStage;
    name : option jsstring;
    idNumber : option jsstring;
    address : option jsstring;
    barrio : option jsstring;
    city : option jsstring;
    deliveryCost : option Z;
    mapImagePath : option jsstring
  }.
(** [{ stage: 'basicName' }] *)
Definition initial : t := mk basicName None None None None None None None.

Definition set_stage (s : FormStage) (f : t) : t :=
    mk s (name f) (idNumber f) (address f) (barrio f) (city f) (deliveryCost f) (mapImagePath f).
Definition set_name (x : jsstring) (f : t) : t :=
    mk (stage f) (Some x) (idNumber f) (address f) (barrio f) (city f) (deliveryCost f) (mapImagePath f).
Definition set_idNumber (x : jsstring) (f : t) : t :=
    mk (stage f) (name f) (Some x) (address f) (barrio f) (city f) (deliveryCost f) (mapImagePath f).
Definition set_address (x : jsstring) (f : t) : t :=
    mk (stage f) (name f) (idNumber f) (Some x) (barrio f) (city f) (deliveryCost f) (mapImagePath f).
Definition set_barrio (x : jsstring) (f : t) : t :=
    mk (stage f) (name f) (idNumber f) (address f) (Some x) (city f) (deliveryCost f) (mapImagePath f).
Definition set_city (x : jsstring) (f : t) : t :=
    mk (stage f) (name f) (idNumber f) (address f) (barrio f) (Some x) (deliveryCost f) (mapImagePath f).
Definition set_quote (cost : Z) (img : jsstring) (f : t) : t :=
    mk (stage f) (name f) (idNumber f) (address f) (barrio f) (city f) (Some cost) (Some img).
End FormState.

(** A value of [awaitingConfirmation]: [boolean | FormState]. *)
Inductive AwaitingValue : Type :=
| Flag (b : bool)
| Form (f : FormState.t).

#[global] Instance truthy_awaiting : Truthy AwaitingValue :=
  fun v => match v with Flag b => b | Form _ => true end.

(** A value of [formData]. *)
Module FormDataItem.
Record t : Type := mk {
    name : option jsstring;
    idNumber : option jsstring;
    address : option jsstring;
    barrio : option jsstring;
    city : option jsstring;
    deliveryCost : option Z
  }.
(** [{}] *)
Definition empty : t := mk None None None None None None.
End FormDataItem.

(** [Order] and its three snapshots ([services/orderService.ts]). *)
Module Status.
Inductive t : Type := new | processing | completed | cancelled.
#[global] Instance eq_dec : EqDecision t.
Proof. solve_decision. Defined.
End Status.

Module Customer.
Record t : Type := mk {
    name : jsstring;
    idNumber : jsstring;
    phone : jsstring;
    address : jsstring;
    barrio : jsstring;
    city : jsstring
  }.
End Customer.

Module OrderProduct.
Record t : Type := mk {
    id : option IdValue;
    name : option jsstring;
    description : option jsstring;
    price : option Z;
    imageUrl : option jsstring
  }.
End OrderProduct.

Module Payment.
Record t : Type := mk {
    total : Z;
    productPrice : Z;
    deliveryCost : Z;
    imagePath : option jsstring
  }.
End Payment.

(** [Omit<Order, 'id' | 'timestamp' | 'status'>] *)
Module OrderData.
Record t : Type := mk {
    customer : Customer.t;
    product : OrderProduct.t;
    payment : Payment.t;
    notes : option jsstring;
    attendedBy : option jsstring;
    attendedTimestamp : option Z
  }.
End OrderData.

Module Order.
Record t : Type := mk {
    id : jsstring;
    timestamp : Z;
    status : Status.t;
    customer : Customer.t;
    product : OrderProduct.t;
    payment : Payment.t;
    notes : option jsstring;
    attendedBy : option jsstring;
    attendedTimestamp : option Z
  }.
Definition set_status (s : Status.t) (o : t) : t :=
    mk (id o) (timestamp o) s (customer o) (product o) (payment o) (notes o)
       (attendedBy o) (attendedTimestamp o).
Definition set_attended (who : jsstring) (at_ : Z) (o : t) : t :=
    mk (id o) (timestamp o) (status o) (customer o) (product o) (payment o) (notes o)
       (Some who) (Some at_).
End Order.

Module OrderSearchCriteria.
Record t : Type := mk {
    status : option Status.t;
    fromDate : option Z;
    toDate : option Z;
    customerId : option jsstring;
    customerName : option jsstring;
    customerPhone : option jsstring;
    productId : option IdValue;
    productName : option jsstring;
    minTotal : option Z;
    maxTotal : option Z;
    attendedBy : option jsstring
  }.
(** [{}] *)
Definition empty : t := mk None None None None None None None None None None None.
(** [{ ...c, minTotal: x }] and the like *)
Definition set_customerId (x : option jsstring) (c : t) : t :=
  mk (status c) (fromDate c) (toDate c) x (customerName c) (customerPhone c)
     (productId c) (productName c) (minTotal c) (maxTotal c) (attendedBy c).
Definition set_customerName (x : option jsstring) (c : t) : t :=
  mk (status c) (fromDate c) (toDate c) (customerId c) x (customerPhone c)
     (productId c) (productName c) (minTotal c) (maxTotal c) (attendedBy c).
Definition set_customerPhone (x : option jsstring) (c : t) : t :=
  mk (status c) (fromDate c) (toDate c) (customerId c) (customerName c) x
     (productId c) (productName c) (minTotal c) (maxTotal c) (attendedBy c).
Definition set_productId (x : option IdValue) (c : t) : t :=
  mk (status c) (fromDate c) (toDate c) (customerId c) (customerName c) (customerPhone c)
     x (productName c) (minTotal c) (maxTotal c) (attendedBy c).
Definition set_productName (x : option jsstring) (c : t) : t :=
  mk (status c) (fromDate c) (toDate c) (customerId c) (customerName c) (customerPhone c)
     (productId c) x (minTotal c) (maxTotal c) (attendedBy c).
Definition set_minTotal (x : option Z) (c : t) : t :=
  mk (status c) (fromDate c) (toDate c) (customerId c) (customerName c) (customerPhone c)
     (productId c) (productName c) x (maxTotal c) (attendedBy c).
Definition set_maxTotal (x : option Z) (c : t) : t :=
  mk (status c) (fromDate c) (toDate c) (customerId c) (customerName c) (customerPhone c)
     (productId c) (productName c) (minTotal c) x (attendedBy c).
End OrderSearchCriteria.

#[global] Instance truthy_status : Truthy Status.t := fun _ => true.

(** ** The world outside the process *)

(** A JSON file on disk, as [fs.existsSync] and [JSON.parse] see it. *)
Inductive JsonFile (A : Type) : Type :=
| Absent
| Unparsable
| Parsed (content : A).
Arguments Absent {A}.
Arguments Unparsable {A}.
Arguments Parsed {A} content.

(** The reply of [POST /calculate]. *)
Module QuoteReply.
Record t : Type := mk { costo : Z; imagen : jsstring }.
End QuoteReply.

(** [let stage: StageType] *)
Module StageType.
Inductive t : Type := confirmation | payment | product | new.
End StageType.

(** The texts and media the bot sends, one constructor per [sendMessage] of
    the sources, with the data they are built from. *)
Inductive Outbound : Type :=
| AskIdNumber
| ConfirmBasicInfo (name idNumber : option jsstring)
| AskBarrio
| RestartAskName
| OnlySiNo
| AskAddress
| AskCity
| MapImage (imagen : jsstring)
| FinalSummary (f : FormState.t) (product : option ProductData.t) (total : option Z)
| QuoteError
| PaymentInstructions (price : option Z) (delivery : option Z) (total : Z)
| TryAgainWhichProduct
| AskName
| WhichProductFromCatalogue
| OnlySiNoTryAgain
| ProductFound (p : ProductData.t)
| ProductImage
| IsThisTheProduct
| NoMatch (content : jsstring)
| SearchError
| NewPurchase (f : FormDataItem.t) (p : ProductData.t) (phone : jsstring) (total : option Z)
| ReceiptThumbnail
| ReceiptNotForwarded
| ReceiptNotProcessed
| ThankYou
| PaymentProblem
| Welcome (pushName : option jsstring)
| Catalogue
| AskProduct
| SessionClosed.

Inductive Effect : Type :=
| SendMessage (jid : jsstring) (m : Outbound)
| RelayMessage (jid : jsstring) (messageId : option jsstring)
| PostCalculate (direccion barrio ciudad : option jsstring)
| GetMapImage (imagen : jsstring)
| ReadQr
| ReadCatalogue
| ReadData
| FetchProductImage (url : jsstring)
| WriteTmpImage
| WriteReceipt (path : jsstring)
| WriteSessions
| WriteOrders
| EmitNewOrder (o : Order.t)
| EmitOrderUpdated (o : Order.t)
| LogStage (sender : jsstring) (stage : StageType.t).

(** What one run did, oldest first, and whether each call went through. *)
Abbreviation Trace := (list (Effect * bool)).

(** What the outside answers during one run of a handler. *)
Record World : Type := mkWorld {
  (** [Date.now()] *)
  now : Z;
  (** [uuidv4()] *)
  uuid : jsstring;
  (** whether the call made after [n] earlier ones throws or rejects *)
  rejects : nat -> bool;
  (** the reply of the delivery API, [None] when the request rejects *)
  quote : option QuoteReply.t;
  (** [data.json] as parsed at the product search, after the refresh when it
      was missing; [None] when the refresh, the read or the parse throws *)
  dataFile : option (list ProductData.t);
  (** [/media/payments/payment_<Date.now()>-<random>.jpg] *)
  receiptPath : nat -> jsstring;
  (** [process.env.PAYMENT_NUMBER] *)
  PAYMENT_NUMBER : option jsstring;
  (** whether [global.io] is set *)
  io : bool
}.

(** The globals of [handlers/message.ts] and [plugins/utils.ts], and the two
    JSON files. *)
Record Store : Type := mkStore {
  awaitingConfirmation : gmap jsstring AwaitingValue;
  selectedProduct : gmap jsstring ProductData.t;
  formData : gmap jsstring FormDataItem.t;
  awaitingPayment : gmap jsstring bool;
  awaitingProduct : gmap jsstring bool;
  productsMode : bool;
  (** [sessions]: every entry is an object [{ lastTime }], kept as its
      [lastTime]; [None] stands for [null] *)
  sessions : gmap jsstring (option Z);
  sessionsFile : JsonFile (gmap jsstring (option Z));
  ordersFile : JsonFile (list Order.t)
}.

(** The store of a process that has just started, with no file on disk. *)
Definition initialStore : Store :=
  mkStore ∅ ∅ ∅ ∅ ∅ false ∅ Absent Absent.

Definition set_awaitingConfirmation (f : gmap jsstring AwaitingValue -> gmap jsstring AwaitingValue) (s : Store) : Store :=
  mkStore (f (awaitingConfirmation s)) (selectedProduct s) (formData s) (awaitingPayment s)
    (awaitingProduct s) (productsMode s) (sessions s) (sessionsFile s) (ordersFile s).
Definition set_selectedProduct (f : gmap jsstring ProductData.t -> gmap jsstring ProductData.t) (s : Store) : Store :=
  mkStore (awaitingConfirmation s) (f (selectedProduct s)) (formData s) (awaitingPayment s)
    (awaitingProduct s) (productsMode s) (sessions s) (sessionsFile s) (ordersFile s).
Definition set_formData (f : gmap jsstring FormDataItem.t -> gmap jsstring FormDataItem.t) (s : Store) : Store :=
  mkStore (awaitingConfirmation s) (selectedProduct s) (f (formData s)) (awaitingPayment s)
    (awaitingProduct s) (productsMode s) (sessions s) (sessionsFile s) (ordersFile s).
Definition set_awaitingPayment (f : gmap jsstring bool -> gmap jsstring bool) (s : Store) : Store :=
  mkStore (awaitingConfirmation s) (selectedProduct s) (formData s) (f (awaitingPayment s))
    (awaitingProduct s) (productsMode s) (sessions s) (sessionsFile s) (ordersFile s).
Definition set_awaitingProduct (f : gmap jsstring bool -> gmap jsstring bool) (s : Store) : Store :=
  mkStore (awaitingConfirmation s) (selectedProduct s) (formData s) (awaitingPayment s)
    (f (awaitingProduct s)) (productsMode s) (sessions s) (sessionsFile s) (ordersFile s).
Definition set_productsMode (b : bool) (s : Store) : Store :=
  mkStore (awaitingConfirmation s) (selectedProduct s) (formData s) (awaitingPayment s)
    (awaitingProduct s) b (sessions s) (sessionsFile s) (ordersFile s).
Definition set_sessions (f : gmap jsstring (option Z) -> gmap jsstring (option Z)) (s : Store) : Store :=
  mkStore (awaitingConfirmation s) (selectedProduct s) (formData s) (awaitingPayment s)
    (awaitingProduct s) (productsMode s) (f (sessions s)) (sessionsFile s) (ordersFile s).
Definition set_sessionsFile (x : JsonFile (gmap jsstring (option Z))) (s : Store) : Store :=
  mkStore (awaitingConfirmation s) (selectedProduct s) (formData s) (awaitingPayment s)
    (awaitingProduct s) (productsMode s) (sessions s) x (ordersFile s).
Definition set_ordersFile (x : JsonFile (list Order.t)) (s : Store) : Store :=
  mkStore (awaitingConfirmation s) (selectedProduct s) (formData s) (awaitingPayment s)
    (awaitingProduct s) (productsMode s) (sessions s) (sessionsFile s) x.

(** ** Handlers as state transformers that may throw *)

Inductive Outcome (A : Type) : Type :=
| Done (a : A)
| Thrown
| OutOfFuel.
Arguments Done {A} a.
Arguments Thrown {A}.
Arguments OutOfFuel {A}.

Record Result (A : Type) : Type := mkResult {
  outcome : Outcome A;
  store : Store;
  trace : Trace
}.
Arguments mkResult {A} outcome store trace.
Arguments outcome {A} r.
Arguments store {A} r.
Arguments trace {A} r.

Definition M (A : Type) : Type := World -> Store -> Trace -> Result A.

Definition ret {A} (a : A) : M A := fun _ s t => mkResult (Done a) s t.

Definition bind {A B} (m : M A) (k : A -> M B) : M B :=
  fun w s t =>
    let r := m w s t in
    match outcome r with
    | Done a => k a w (store r) (trace r)
    | Thrown => mkResult Thrown (store r) (trace r)
    | OutOfFuel => mkResult OutOfFuel (store r) (trace r)
    end.

Declare Scope handler_scope.
Delimit Scope handler_scope with handler.
Bind Scope handler_scope with M.
Notation "x <- m ;; k" := (bind m (fun x => k))
  (at level 100, m at next level, k at level 200, right associativity) : handler_scope.
Notation "m ;; k" := (bind m (fun _ => k))
  (at level 100, k at level 200, right associativity) : handler_scope.
Open Scope handler_scope.

(** [throw] *)
Definition throw {A} : M A := fun _ s t => mkResult Thrown s t.

Definition outOfFuel {A} : M A := fun _ s t => mkResult OutOfFuel s t.

(** [try { m } catch { h }] *)
Definition tryCatch {A} (m : M A) (h : M A) : M A :=
  fun w s t =>
    let r := m w s t in
    match outcome r with
    | Thrown => h w (store r) (trace r)
    | _ => r
    end.

Definition get : M Store := fun _ s t => mkResult (Done s) s t.
Definition modify (f : Store -> Store) : M unit := fun _ s t => mkResult (Done tt) (f s) t.
Definition ask : M World := fun w s t => mkResult (Done w) s t.
Definition when (b : bool) (m : M unit) : M unit := if b then m else ret tt.

(** A call that may fail: the world decides, the trace keeps it. *)
Definition perform (e : Effect) : M unit :=
  fun w s t =>
    if rejects w (length t)
    then mkResult Thrown s (t ++ [(e, false)])
    else mkResult (Done tt) s (t ++ [(e, true)]).

(** A call that cannot fail. *)
Definition note (e : Effect) : M unit :=
  fun _ s t => mkResult (Done tt) s (t ++ [(e, true)]).

(** [await bot.sendMessage(jid, ...)] *)
Definition sendMessage (jid : jsstring) (m : Outbound) : M unit :=
  perform (SendMessage jid m).

(** Runs a handler on a store, from an empty trace. *)
Definition run {A} (m : M A) (w : World) (s : Store) : Result A := m w s [].

(** ** [plugins/utils.ts] *)

(** [loadSessions]: no [try] around [JSON.parse]. *)
Definition loadSessions : M unit :=
  s <- get ;;
  match sessionsFile s with
  | Absent => ret tt
  | Unparsable => throw
  | Parsed content => modify (set_sessions (fun _ => content))
  end.

(** [saveSessions] *)
Definition saveSessions : M unit :=
  perform WriteSessions ;;
  modify (fun s => set_sessionsFile (Parsed (sessions s)) s).

(** ** [plugins/sessionManager.ts] *)

(** [userData && userData.lastTime], then [elapsed > INACTIVITY_TIMEOUT] *)
Definition expired (INACTIVITY_TIMEOUT : Z) (now : Z) (lastTime : option Z) : bool :=
  match lastTime with
  | Some t => truthy t && (INACTIVITY_TIMEOUT <? now - t)%Z
  | None => false
  end.

(** The [for] loop over [Object.entries(sessions)]: collects the expired
    senders and bids each farewell inside its own [try]. *)
Fixpoint sweep (INACTIVITY_TIMEOUT : Z) (entries : list (jsstring * option Z)) : M (list jsstring) :=
  match entries with
  | [] => ret []
  | (jid, userData) :: rest =>
      w <- ask ;;
      if expired INACTIVITY_TIMEOUT (now w) userData then
        tryCatch (sendMessage jid SessionClosed) (ret tt) ;;
        more <- sweep INACTIVITY_TIMEOUT rest ;;
        ret (jid :: more)
      else sweep INACTIVITY_TIMEOUT rest
  end.

(** [checkExpiredSessions]; returns its local [expiredSessions].  The entries
    are visited in the order of [map_to_list]. *)
Definition checkExpiredSessions (INACTIVITY_TIMEOUT : Z) : M (list jsstring) :=
  loadSessions ;;
  s <- get ;;
  expiredSessions <- sweep INACTIVITY_TIMEOUT (map_to_list (sessions s)) ;;
  modify (set_sessions (fun m => foldr delete m expiredSessions)) ;;
  when (bool_decide (0 < length expiredSessions)) saveSessions ;;
  ret expiredSessions.

(** ** [services/orderService.ts] *)

(** [loadOrders]: an absent or unparsable file reads as no orders. *)
Definition loadOrders : M (list Order.t) :=
  s <- get ;;
  match ordersFile s with
  | Parsed orders => ret orders
  | _ => ret []
  end.

(** [saveOrders]: a failed write is logged, not thrown. *)
Definition saveOrders (orders : list Order.t) : M unit :=
  tryCatch
    (perform WriteOrders ;; modify (set_ordersFile (Parsed orders)))
    (ret tt).

(** [createOrder] *)
Definition createOrder (orderData : OrderData.t) : M Order.t :=
  orders <- loadOrders ;;
  w <- ask ;;
  let newOrder :=
    Order.mk (uuid w) (now w) Status.new
      (OrderData.customer orderData) (OrderData.product orderData)
      (OrderData.payment orderData) (OrderData.notes orderData)
      (OrderData.attendedBy orderData) (OrderData.attendedTimestamp orderData) in
  saveOrders (orders ++ [newOrder]) ;;
  when (io w) (note (EmitNewOrder newOrder)) ;;
  ret newOrder.

(** [updateOrderStatus] *)
Definition updateOrderStatus (orderId : jsstring) (status : Status.t)
    (attendedBy : option jsstring) : M (option Order.t) :=
  orders <- loadOrders ;;
  match list_find (fun order => Order.id order = orderId) orders with
  | None => ret None
  | Some (orderIndex, order) =>
      w <- ask ;;
      let order1 := Order.set_status status order in
      let order2 :=
        match attendedBy with
        | Some who =>
            if bool_decide (status = Status.completed) && truthy who
            then Order.set_attended who (now w) order1
            else order1
        | None => order1
        end in
      saveOrders (<[orderIndex := order2]> orders) ;;
      when (io w) (note (EmitOrderUpdated order2)) ;;
      ret (Some order2)
  end.

(** [getOrderById] *)
Definition getOrderById (orderId : jsstring) : M (option Order.t) :=
  orders <- loadOrders ;;
  ret (snd <$> list_find (fun order => Order.id order = orderId) orders).

(** [criteria.x && test(criteria.x)], the shape of every filter. *)
Definition given {A} `{Truthy A} (x : option A) (test : A -> bool) : bool :=
  match x with
  | Some a => truthy a && test a
  | None => false
  end.

(** The parts of [FormattedMessage] the handler reads. *)
Module ImageMessage.
Record t : Type := mk { jpegThumbnail : option (list N) }.
End ImageMessage.

Module Message.
Record t : Type := mk {
  fromMe : bool;
  remoteJid : jsstring;
  id : option jsstring;
  content : option jsstring;
  pushName : option jsstring;
  imageMessage : option ImageMessage.t
}.
End Message.

Section Runtime.

(** The two Unicode tables of the runtime: [String.prototype.toLowerCase] and
    [String.prototype.normalize("NFD")]. *)
Variable toLowerCase : jsstring -> jsstring.
Variable normalizeNFD : jsstring -> jsstring.

(** [normalizeText] of [plugins/utils.ts], on a string. *)
Definition normalizeText (text : jsstring) : jsstring :=
  JsString.stripMarks (normalizeNFD (toLowerCase text)).

(** The callback of [orders.filter] in [searchOrders]: each line is one
    [if (...) return false]. *)
Definition orderMatches (criteria : OrderSearchCriteria.t) (order : Order.t) : bool :=
  let c := criteria in
  if given (OrderSearchCriteria.status c) (fun s => bool_decide (Order.status order ≠ s)) then false
  else if given (OrderSearchCriteria.fromDate c) (fun d => (Order.timestamp order <? d)%Z) then false
  else if given (OrderSearchCriteria.toDate c) (fun d => (d <? Order.timestamp order)%Z) then false
  else if given (OrderSearchCriteria.customerId c)
            (fun i => bool_decide (Customer.idNumber (Order.customer order) ≠ i)) then false
  else if given (OrderSearchCriteria.customerName c)
            (fun n => negb (JsString.includes (toLowerCase (Customer.name (Order.customer order)))
                                              (toLowerCase n))) then false
  else if given (OrderSearchCriteria.customerPhone c)
            (fun p => negb (JsString.includes (Customer.phone (Order.customer order)) p)) then false
  else if given (OrderSearchCriteria.productId c)
            (fun i => bool_decide (OrderProduct.id (Order.product order) ≠ Some i)) then false
  else if given (OrderSearchCriteria.productName c)
            (fun n => match OrderProduct.name (Order.product order) with
                      | Some name =>
                          negb (truthy name)
                          || negb (JsString.includes (toLowerCase name) (toLowerCase n))
                      | None => true
                      end) then false
  else if given (OrderSearchCriteria.minTotal c)
            (fun t => (Payment.total (Order.payment order) <? t)%Z) then false
  else if given (OrderSearchCriteria.maxTotal c)
            (fun t => (t <? Payment.total (Order.payment order))%Z) then false
  else if given (OrderSearchCriteria.attendedBy c)
            (fun a => match Order.attendedBy order with
                      | Some who =>
                          negb (truthy who)
                          || negb (JsString.includes (toLowerCase who) (toLowerCase a))
                      | None => true
                      end) then false
  else true.

(** [searchOrders] *)
Definition searchOrders (criteria : OrderSearchCriteria.t) : M (list Order.t) :=
  orders <- loadOrders ;;
  ret (List.filter (orderMatches criteria) orders).

(** ** [handlers/message.ts] *)

(** [content === 'si' || content === 'Si' || content === 'SI' || content === 'sI'] *)
Definition isSi (content : option jsstring) : bool :=
  bool_decide (content = Some (js "si")) || bool_decide (content = Some (js "Si"))
  || bool_decide (content = Some (js "SI")) || bool_decide (content = Some (js "sI")).

(** [content === 'no' || content === 'No' || content === 'NO' || content === 'nO'] *)
Definition isNo (content : option jsstring) : bool :=
  bool_decide (content = Some (js "no")) || bool_decide (content = Some (js "No"))
  || bool_decide (content = Some (js "NO")) || bool_decide (content = Some (js "nO")).

(** [message.content?.trim() || ""] *)
Definition typedText (content : option jsstring) : jsstring :=
  match content with
  | Some c => JsString.trim c
  | None => []
  end.

(** [product && product.Precio], when truthy *)
Definition priceOf (product : option ProductData.t) : option Z :=
  match product with
  | Some p =>
      match ProductData.Precio p with
      | Val n => if truthy n then Some n else None
      | _ => None
      end
  | None => None
  end.

(** [price ? price + delivery : delivery], the total the customer is shown
    (lines 182 and 220) *)
Definition quotedTotal (price : option Z) (delivery : Z) : Z :=
  match price with
  | Some p => (p + delivery)%Z
  | None => delivery
  end.

(** The [payment] object of line 485. *)
Definition paymentSnapshot (productData : ProductData.t) (formDataItem : FormDataItem.t)
    (paymentImagePath : jsstring) : Payment.t :=
  Payment.mk
    (match ProductData.Precio productData with
     | Val precio =>
         if truthy precio
         then (precio + orElse (FormDataItem.deliveryCost formDataItem) 0)%Z
         else 0%Z
     | _ => 0%Z
     end)
    (fieldOrElse (ProductData.Precio productData) 0%Z)
    (orElse (FormDataItem.deliveryCost formDataItem) 0%Z)
    (Some paymentImagePath).

(** The argument of [createOrder] at line 469. *)
Definition orderDraft (sender : jsstring) (productData : ProductData.t)
    (formDataItem : FormDataItem.t) (paymentImagePath : jsstring) : OrderData.t :=
  let na := js "N/A" in
  OrderData.mk
    (Customer.mk
       (orElse (FormDataItem.name formDataItem) na)
       (orElse (FormDataItem.idNumber formDataItem) na)
       (js "+" ++ JsString.splitHead 64 sender)
       (orElse (FormDataItem.address formDataItem) na)
       (orElse (FormDataItem.barrio formDataItem) na)
       (orElse (FormDataItem.city formDataItem) na))
    (OrderProduct.mk
       (orNull (ProductData.ID productData))
       (orNull (ProductData.Nombre productData))
       (orNull (ProductData.Descripcion productData))
       (orNull (ProductData.Precio productData))
       (orNull (ProductData.ImagenURL productData)))
    (paymentSnapshot productData formDataItem paymentImagePath)
    None None None.

(** [axios.post(API_LOCATION + '/calculate', ...)] *)
Definition postCalculate (direccion barrio ciudad : option jsstring) : M QuoteReply.t :=
  fun w s t =>
    match quote w with
    | Some result => mkResult (Done result) s (t ++ [(PostCalculate direccion barrio ciudad, true)])
    | None => mkResult Thrown s (t ++ [(PostCalculate direccion barrio ciudad, false)])
    end.

(** [JSON.parse(fs.readFileSync(dataPath))], after the refresh of line 291 *)
Definition readData : M (list ProductData.t) :=
  fun w s t =>
    match dataFile w with
    | Some data => mkResult (Done data) s (t ++ [(ReadData, true)])
    | None => mkResult Thrown s (t ++ [(ReadData, false)])
    end.

(** The predicate of [data.find] at line 298. *)
Definition matchesQuery (response : jsstring) (item : ProductData.t) : bool :=
  JsString.includes (normalizeText (String_ id (ProductData.Nombre item))) response
  || JsString.includes (normalizeText (String_ id (ProductData.Descripcion item))) response
  || JsString.includes (normalizeText (String_ stringOfId (ProductData.ID item))) response.

(** The catalogue lookup of the product stage: [data.find(...)]. *)
Definition findProduct (response : jsstring) (data : list ProductData.t) : option ProductData.t :=
  List.find (matchesQuery response) data.

(** [awaitingConfirmation[sender] = formState], after a write to a property of
    the object the entry refers to. *)
Definition setForm (sender : jsstring) (formState : FormState.t) : M unit :=
  modify (set_awaitingConfirmation <[sender := Form formState]>).

(** The [addressCity] branch, lines 137 to 201. *)
Definition collectCity (sender : jsstring) (message : Message.t) (formState : FormState.t) : M unit :=
  let f1 := FormState.set_city (typedText (Message.content message)) formState in
  setForm sender f1 ;;
  tryCatch
    (result <- postCalculate (FormState.address f1) (FormState.barrio f1) (FormState.city f1) ;;
     let f2 := FormState.set_quote (QuoteReply.costo result) (QuoteReply.imagen result) f1 in
     setForm sender f2 ;;
     perform (GetMapImage (QuoteReply.imagen result)) ;;
     sendMessage sender (MapImage (QuoteReply.imagen result)) ;;
     let f3 := FormState.set_stage finalConfirmation f2 in
     setForm sender f3 ;;
     s <- get ;;
     let product := selectedProduct s !! sender in
     let total :=
       (fun _ : ProductData.t => quotedTotal (priceOf product) (QuoteReply.costo result))
         <$> product in
     sendMessage sender (FinalSummary f3 product total))
    (sendMessage sender QuoteError).

(** The [finalConfirmation] branch, lines 202 to 253. *)
Definition confirmFinal (sender : jsstring) (message : Message.t) (formState : FormState.t) : M unit :=
  if isSi (Message.content message) then
    modify (set_formData
              <[sender := FormDataItem.mk (FormState.name formState) (FormState.idNumber formState)
                            (FormState.address formState) (FormState.barrio formState)
                            (FormState.city formState) (FormState.deliveryCost formState)]>) ;;
    s <- get ;;
    let price := priceOf (selectedProduct s !! sender) in
    let delivery :=
      if truthy (FormState.deliveryCost formState) then FormState.deliveryCost formState else None in
    let total := quotedTotal price (default 0%Z (FormState.deliveryCost formState)) in
    perform ReadQr ;;
    sendMessage sender (PaymentInstructions price delivery total) ;;
    modify (set_awaitingPayment <[sender := true]>) ;;
    modify (set_awaitingConfirmation (delete sender))
  else if isNo (Message.content message) then
    modify (set_awaitingConfirmation (delete sender)) ;;
    modify (set_selectedProduct (delete sender)) ;;
    modify (set_formData (delete sender)) ;;
    modify (set_awaitingProduct <[sender := true]>) ;;
    sendMessage sender TryAgainWhichProduct
  else sendMessage sender OnlySiNo.

(** The branch of an entry that is a [FormState], lines 99 to 253. *)
Definition fillForm (sender : jsstring) (message : Message.t) (formState : FormState.t) : M unit :=
  let content := Message.content message in
  match FormState.stage formState with
  | basicName =>
      setForm sender (FormState.set_stage basicId (FormState.set_name (typedText content) formState)) ;;
      sendMessage sender AskIdNumber
  | basicId =>
      let f := FormState.set_stage basicConfirmation
                 (FormState.set_idNumber (typedText content) formState) in
      setForm sender f ;;
      sendMessage sender (ConfirmBasicInfo (FormState.name f) (FormState.idNumber f))
  | basicConfirmation =>
      if isSi content then
        setForm sender (FormState.set_stage addressBarrio formState) ;;
        sendMessage sender AskBarrio
      else if isNo content then
        setForm sender (FormState.set_stage basicName formState) ;;
        sendMessage sender RestartAskName
      else sendMessage sender OnlySiNo
  | addressBarrio =>
      setForm sender (FormState.set_stage addressAddress (FormState.set_barrio (typedText content) formState)) ;;
      sendMessage sender AskAddress
  | addressAddress =>
      setForm sender (FormState.set_stage addressCity (FormState.set_address (typedText content) formState)) ;;
      sendMessage sender AskCity
  | addressCity => collectCity sender message formState
  | finalConfirmation => confirmFinal sender message formState
  end.

(** The simple confirmation after a product was found, lines 254 to 283. *)
Definition confirmProduct (sender : jsstring) (message : Message.t) : M unit :=
  if isSi (Message.content message) then
    modify (set_awaitingConfirmation <[sender := Form FormState.initial]>) ;;
    sendMessage sender AskName
  else if isNo (Message.content message) then
    modify (set_awaitingProduct <[sender := true]>) ;;
    modify (set_awaitingConfirmation (delete sender)) ;;
    sendMessage sender WhichProductFromCatalogue
  else sendMessage sender OnlySiNoTryAgain.

(** [case 'confirmation'] *)
Definition confirmationStage (sender : jsstring) (message : Message.t) : M unit :=
  s <- get ;;
  match awaitingConfirmation s !! sender with
  | Some (Form formState) => fillForm sender message formState
  | _ => confirmProduct sender message
  end.

(** [case 'product'], lines 286 to 356. *)
Definition productStage (sender : jsstring) (message : Message.t) : M unit :=
  match Message.content message with
  | Some content =>
      if truthy content then
        let response := normalizeText content in
        tryCatch
          (data <- readData ;;
           match findProduct response data with
           | Some product =>
               modify (set_selectedProduct <[sender := product]>) ;;
               sendMessage sender (ProductFound product) ;;
               tryCatch
                 (match ProductData.ImagenURL product with
                  | Val url =>
                      if truthy url then
                        perform (FetchProductImage url) ;;
                        perform WriteTmpImage ;;
                        sendMessage sender ProductImage
                      else ret tt
                  | _ => ret tt
                  end)
                 (ret tt) ;;
               modify (set_awaitingProduct <[sender := false]>) ;;
               modify (set_awaitingConfirmation <[sender := Flag true]>) ;;
               sendMessage sender IsThisTheProduct
           | None => sendMessage sender (NoMatch content)
           end)
          (sendMessage sender SearchError)
      else ret tt
  | None => ret tt
  end.

(** The total in the notice to the operator, lines 383 to 399: shown when the
    product has a name, a price and a delivery cost. *)
Definition notifiedTotal (productData : ProductData.t) (formDataItem : FormDataItem.t) : option Z :=
  if truthy (ProductData.Nombre productData) then
    match FormDataItem.deliveryCost formDataItem, ProductData.Precio productData with
    | Some delivery, Val precio =>
        if truthy delivery && truthy precio then Some (precio + delivery)%Z else None
    | _, _ => None
    end
  else None.

(** The [catch (forwardError)] block, lines 429 to 466.  [current] is the
    value [paymentImagePath] has when the block is entered; the result is the
    value it has when the block is left. *)
Definition receiptFallback (targetJid : jsstring) (imageMessage : ImageMessage.t)
    (current : jsstring) : M jsstring :=
  match ImageMessage.jpegThumbnail imageMessage with
  | Some bytes =>
      if bool_decide (0 < length bytes) then
        w <- ask ;;
        let path := receiptPath w 1 in
        tryCatch
          (perform (WriteReceipt path) ;;
           sendMessage targetJid ReceiptThumbnail)
          (sendMessage targetJid ReceiptNotForwarded) ;;
        ret path
      else
        sendMessage targetJid ReceiptNotProcessed ;; ret current
  | None => sendMessage targetJid ReceiptNotProcessed ;; ret current
  end.

(** The [try] that relays the receipt, lines 407 to 466, as the value of
    [paymentImagePath] after it.  The [catch] runs when the relay rejects
    (the path is still empty) or when the write throws (the path is already
    assigned).  Creating the directory is taken to succeed. *)
Definition forwardReceipt (targetJid : jsstring) (message : Message.t)
    (imageMessage : ImageMessage.t) : M jsstring :=
  relayed <- tryCatch (perform (RelayMessage targetJid (Message.id message)) ;; ret true) (ret false) ;;
  if relayed : bool then
    match ImageMessage.jpegThumbnail imageMessage with
    | Some _ =>
        w <- ask ;;
        let path := receiptPath w 0 in
        written <- tryCatch (perform (WriteReceipt path) ;; ret true) (ret false) ;;
        if written : bool then ret path else receiptFallback targetJid imageMessage path
    | None => ret []
    end
  else receiptFallback targetJid imageMessage [].

(** [case 'payment'], lines 358 to 517. *)
Definition paymentStage (sender : jsstring) (message : Message.t) : M unit :=
  match Message.imageMessage message with
  | Some imageMessage =>
      w <- ask ;;
      let targetNumber := orElse (PAYMENT_NUMBER w) (js "573023606047") in
      let targetJid :=
        if JsString.includes targetNumber (js "@") then targetNumber
        else targetNumber ++ js "@s.whatsapp.net" in
      tryCatch
        (s <- get ;;
         let formDataItem := default FormDataItem.empty (formData s !! sender) in
         let productData := default ProductData.empty (selectedProduct s !! sender) in
         let senderNumber := js "+" ++ JsString.splitHead 64 sender in
         sendMessage targetJid
           (NewPurchase formDataItem productData senderNumber
              (notifiedTotal productData formDataItem)) ;;
         paymentImagePath <- forwardReceipt targetJid message imageMessage ;;
         createOrder (orderDraft sender productData formDataItem paymentImagePath) ;;
         sendMessage sender ThankYou ;;
         modify (set_awaitingPayment (delete sender)) ;;
         modify (set_awaitingProduct (delete sender)) ;;
         modify (set_awaitingConfirmation (delete sender)) ;;
         modify (set_selectedProduct (delete sender)) ;;
         modify (set_formData (delete sender)) ;;
         loadSessions ;;
         s' <- get ;;
         match sessions s' !! sender with
         | Some _ => modify (set_sessions (delete sender)) ;; saveSessions
         | None => ret tt
         end)
        (sendMessage sender PaymentProblem)
  | None => ret tt
  end.

(** The greeting of a first contact or of a session older than thirty
    minutes, lines 528 to 559. *)
Definition welcome (sender : jsstring) (message : Message.t) : M unit :=
  w <- ask ;;
  modify (set_sessions <[sender := Some (now w)]>) ;;
  saveSessions ;;
  sendMessage sender (Welcome (Message.pushName message)) ;;
  perform ReadCatalogue ;;
  sendMessage sender Catalogue ;;
  modify (set_productsMode true) ;;
  modify (set_awaitingProduct <[sender := true]>) ;;
  sendMessage sender AskProduct.

(** [case 'new'], lines 518 to 571; [again] is the handler itself. *)
Definition newStage (again : Message.t -> M unit) (sender : jsstring) (message : Message.t) : M unit :=
  if negb (JsString.endsWith (Message.remoteJid message) (js "@g.us")) && truthy sender then
    loadSessions ;;
    w <- ask ;;
    s <- get ;;
    let lastTime : option Z := default None (sessions s !! sender) in
    if negb (truthy lastTime)
       || match lastTime with Some t => (30 * 60 * 1000 <? now w - t)%Z | None => false end
    then welcome sender message
    else if truthy (Message.content message) then
      modify (set_awaitingProduct <[sender := true]>) ;;
      again message
    else ret tt
  else ret tt.

(** Lines 87 to 91. *)
Definition resolveStage (s : Store) (sender : jsstring) : StageType.t :=
  if truthy (awaitingConfirmation s !! sender) then StageType.confirmation
  else if truthy (awaitingPayment s !! sender) then StageType.payment
  else if truthy (awaitingProduct s !! sender) then StageType.product
  else StageType.new.

(** [MessageHandler].  The handler calls itself at line 567; [fuel] bounds the
    depth of such calls, and a run that would go deeper ends [OutOfFuel]. *)
Fixpoint MessageHandler (fuel : nat) (message : Message.t) : M unit :=
  match fuel with
  | O => outOfFuel
  | S fuel' =>
      if Message.fromMe message then ret tt
      else
        let sender := Message.remoteJid message in
        s <- get ;;
        let stage := resolveStage s sender in
        note (LogStage sender stage) ;;
        match stage with
        | StageType.confirmation => confirmationStage sender message
        | StageType.product => productStage sender message
        | StageType.payment => paymentStage sender message
        | StageType.new => newStage (MessageHandler fuel') sender message
        end
  end.

End Runtime.

(** ** The runtime on Basic Latin and Latin-1

    The two tables below agree with ECMAScript on every code unit below
    U+0100 and leave the others alone; the closed examples of this file stay
    in that range. *)

Definition lowerUnit (c : N) : N :=
  if ((65 <=? c) && (c <=? 90) || (192 <=? c) && (c <=? 222) && negb (c =? 215))%N
  then (c + 32)%N else c.

(** [toLowerCase] *)
Definition toLowerCaseLatin1 (s : jsstring) : jsstring := map lowerUnit s.

(** The canonical decomposition of a capital letter of Latin-1: its base
    letter and its combining mark. *)
Definition decomposeCapital (c : N) : option (N * N) :=
  match c with
  | 192 => Some (65, 768) | 193 => Some (65, 769) | 194 => Some (65, 770)
  | 195 => Some (65, 771) | 196 => Some (65, 776) | 197 => Some (65, 778)
  | 199 => Some (67, 807)
  | 200 => Some (69, 768) | 201 => Some (69, 769) | 202 => Some (69, 770)
  | 203 => Some (69, 776)
  | 204 => Some (73, 768) | 205 => Some (73, 769) | 206 => Some (73, 770)
  | 207 => Some (73, 776)
  | 209 => Some (78, 771)
  | 210 => Some (79, 768) | 211 => Some (79, 769) | 212 => Some (79, 770)
  | 213 => Some (79, 771) | 214 => Some (79, 776)
  | 217 => Some (85, 768) | 218 => Some (85, 769) | 219 => Some (85, 770)
  | 220 => Some (85, 776)
  | 221 => Some (89, 769)
  | _ => None
  end%N.

Definition decomposeUnit (c : N) : jsstring :=
  match decomposeCapital c with
  | Some (base, mark) => [base; mark]
  | None =>
      if (c =? 255)%N then [121; 776]%N
      else if ((224 <=? c) && (c <=? 254))%N then
        match decomposeCapital (c - 32) with
        | Some (base, mark) => [base + 32; mark]%N
        | None => [c]
        end
      else [c]
  end.

(** [normalize("NFD")] *)
Definition normalizeNFDLatin1 (s : jsstring) : jsstring := concat (map decomposeUnit s).

(** [normalizeText], [searchOrders] and [MessageHandler] on that runtime. *)
Definition normalizeTextLatin1 : jsstring -> jsstring :=
  normalizeText toLowerCaseLatin1 normalizeNFDLatin1.
Definition handle (w : World) (message : Message.t) (s : Store) : Result unit :=
  run (MessageHandler toLowerCaseLatin1 normalizeNFDLatin1 2 message) w s.

(** * Vocabulary of the properties *)

(** The orders [loadOrders] reads from a store. *)
Definition ledger (s : Store) : list Order.t :=
  match ordersFile s with
  | Parsed orders => orders
  | _ => []
  end.

(** The fields of an order that no status change may touch. *)
Definition sameSnapshots (o o' : Order.t) : Prop :=
  Order.id o' = Order.id o
  /\ Order.timestamp o' = Order.timestamp o
  /\ Order.customer o' = Order.customer o
  /\ Order.product o' = Order.product o
  /\ Order.payment o' = Order.payment o
  /\ Order.notes o' = Order.notes o.

(** The sessions in memory once [loadSessions] has returned. *)
Definition known (s : Store) : gmap jsstring (option Z) :=
  match sessionsFile s with
  | Parsed content => content
  | _ => sessions s
  end.

(** The senders of a session map that are idle for longer than the timeout,
    in the order [Object.entries] is taken to list them. *)
Definition expiredSenders (timeout now : Z) (m : gmap jsstring (option Z)) : list jsstring :=
  map fst (List.filter (fun e => expired timeout now (snd e)) (map_to_list m)).

(** The lookup of the product stage as a function of the text received:
    [data.find] on [normalizeText(message.content)]. *)
Definition catalogueLookup (toLowerCase normalizeNFD : jsstring -> jsstring)
    (query : jsstring) (data : list ProductData.t) : option ProductData.t :=
  findProduct toLowerCase normalizeNFD (normalizeText toLowerCase normalizeNFD query) data.

(** A lookup that ranks the fields, as the words "name, description, and
    identifier, in that priority order" read: the first product whose name
    matches, else the first whose description matches, else the first whose
    identifier matches.  Kept apart from [findProduct] to compare the two. *)
Definition findByFieldPriority (toLowerCase normalizeNFD : jsstring -> jsstring)
    (query : jsstring) (data : list ProductData.t) : option ProductData.t :=
  let norm := normalizeText toLowerCase normalizeNFD in
  let response := norm query in
  match List.find (fun item => JsString.includes (norm (String_ id (ProductData.Nombre item))) response) data with
  | Some p => Some p
  | None =>
      match List.find (fun item => JsString.includes (norm (String_ id (ProductData.Descripcion item))) response) data with
      | Some p => Some p
      | None =>
          List.find (fun item => JsString.includes (norm (String_ stringOfId (ProductData.ID item))) response) data
      end
  end.

(** A catalogue of two products where the second one is named after a word
    of the first one's description. *)
Definition shirt : ProductData.t :=
  ProductData.mk (Val (IdNum 1)) (Val (js "Camisa")) (Val (js "Incluye gorra de regalo"))
    (Val 45000%Z) (Val 3%Z) Undefined.
Definition cap : ProductData.t :=
  ProductData.mk (Val (IdNum 2)) (Val (js "Gorra")) (Val (js "De lana"))
    (Val 20000%Z) (Val 8%Z) Undefined.
(** A product whose price cell is empty in the sheet. *)
Definition sample : ProductData.t :=
  ProductData.mk (Val (IdStr (js "M-01"))) (Val (js "Muestra")) (Val (js "Sin precio fijado"))
    Null (Val 1%Z) Undefined.
Definition smallCatalogue : list ProductData.t := [shirt; cap; sample].

(** How a reply at a confirmation point is read. *)
Inductive Answer : Type := Yes | No | Other.

Definition answer (content : option jsstring) : Answer :=
  if isSi content then Yes else if isNo content then No else Other.

(** The entries of [awaitingConfirmation] at which the handler expects a yes
    or a no: the plain flag, and a form at [basicConfirmation] or at
    [finalConfirmation]. *)
Definition confirmationPoint (v : AwaitingValue) : bool :=
  match v with
  | Flag b => b
  | Form f =>
      bool_decide (FormState.stage f = basicConfirmation)
      || bool_decide (FormState.stage f = finalConfirmation)
  end.

(** [formData[sender] = { ... }] of line 204. *)
Definition formDataOf (f : FormState.t) : FormDataItem.t :=
  FormDataItem.mk (FormState.name f) (FormState.idNumber f) (FormState.address f)
    (FormState.barrio f) (FormState.city f) (FormState.deliveryCost f).

(** ** A customer, a calm world and a conversation, for the closed examples *)

Definition ana : jsstring := js "573001112233@s.whatsapp.net".

(** Every call goes through; the quote is 5000. *)
Definition calm : World :=
  mkWorld 1700000000000 (js "0b9c2f0e-order") (fun _ => false)
    (Some (QuoteReply.mk 5000 (js "/images/map_1.png")))
    (Some smallCatalogue)
    (fun n => js "/media/payments/payment_" ++ js (pretty n) ++ js ".jpg")
    None true.

Definition says (who text : jsstring) : Message.t :=
  Message.mk false who (Some (js "3EB0")) (Some text) (Some (js "Ana")) None.

Definition sendsPhoto (who : jsstring) : Message.t :=
  Message.mk false who (Some (js "3EB1")) None (Some (js "Ana"))
    (Some (ImageMessage.mk (Some [255; 216; 255]%N))).

(** The store after a run of messages, each handled to its end. *)
Definition converse (w : World) (messages : list Message.t) (s : Store) : Store :=
  foldl (fun s message => store (handle w message s)) s messages.

(** "si" with an acute accent on the i (U+00ED). *)
Definition siAcute : jsstring := js "s" ++ [237%N].

(** Ana orders the product without a price, start to receipt. *)
Definition orderOfSample : list Message.t :=
  [says ana (js "hola"); says ana (js "muestra"); says ana (js "si");
   says ana (js "Ana Ruiz"); says ana (js "1020304050"); says ana (js "si");
   says ana (js "Centro"); says ana (js "Calle 1 # 2-3"); says ana (js "Bogota");
   says ana (js "si"); sendsPhoto ana].

(** The calls of the handler in a trace: each call that is not stopped by
    [fromMe] logs its stage once (line 93). *)
Definition isLogStage (e : Effect * bool) : bool :=
  match fst e with
  | LogStage _ _ => true
  | _ => false
  end.
Definition invocations (t : Trace) : Trace := List.filter isLogStage t.

(** The condition under which the [new] branch calls the handler again
    (line 567): a sender that is not a group, a readable session file, a
    session younger than thirty minutes and a message with text. *)
Definition redispatches (message : Message.t) (w : World) (s : Store) : bool :=
  let sender := Message.remoteJid message in
  negb (JsString.endsWith sender (js "@g.us")) && truthy sender
  && match sessionsFile s with Unparsable => false | _ => true end
  && match default None (known s !! sender) with
     | Some t => truthy t && negb (30 * 60 * 1000 <? now w - t)%Z
     | None => false
     end
  && truthy (Message.content message).

(** A block that neither calls the handler nor runs out of fuel. *)
Definition plain {A} (m : M A) : Prop :=
  forall w s t,
    outcome (m w s t) <> OutOfFuel
    /\ invocations (trace (m w s t)) = invocations t.

(** How many of the three maps that decide the stage hold a truthy entry
    for a sender. *)
Definition modeCount (s : Store) (sender : jsstring) : nat :=
  (if truthy (awaitingConfirmation s !! sender) then 1 else 0)
  + (if truthy (awaitingPayment s !! sender) then 1 else 0)
  + (if truthy (awaitingProduct s !! sender) then 1 else 0).

Definition oneMode (s : Store) : Prop := forall sender, modeCount s sender <= 1.

(** The stores of a process that starts with empty dictionaries, whatever
    the two files hold, and then handles messages, sweeps idle sessions and
    updates order statuses in turn: each event is handled to its end before
    the next one starts, against any world.  The listener of [index.ts] does
    not wait for a handler before it starts the next one; the stores of
    handlers that overlap are those of [Async.interleave] below. *)
Inductive servedInTurn (toLowerCase normalizeNFD : jsstring -> jsstring) : Store -> Prop :=
| servedInTurn_boot sessionsJson ordersJson :
    servedInTurn toLowerCase normalizeNFD (mkStore ∅ ∅ ∅ ∅ ∅ false ∅ sessionsJson ordersJson)
| servedInTurn_message s w message fuel :
    servedInTurn toLowerCase normalizeNFD s ->
    servedInTurn toLowerCase normalizeNFD
      (store (run (MessageHandler toLowerCase normalizeNFD (S (S fuel)) message) w s))
| servedInTurn_sweep s w limit :
    servedInTurn toLowerCase normalizeNFD s ->
    servedInTurn toLowerCase normalizeNFD (store (run (checkExpiredSessions limit) w s))
| servedInTurn_status s w orderId status attendedBy :
    servedInTurn toLowerCase normalizeNFD s ->
    servedInTurn toLowerCase normalizeNFD
      (store (run (updateOrderStatus orderId status attendedBy) w s)).

(** A sender whose last message is a day old, next to one who has just
    written; the file on disk holds the same two sessions. *)
Definition bob : jsstring := js "573009998877@s.whatsapp.net".
Definition twoSessions : gmap jsstring (option Z) :=
  <[ana := Some (1700000000000 - 86400000)%Z]> (<[bob := Some 1700000000000%Z]> ∅).
Definition idleStore : Store :=
  set_sessionsFile (Parsed twoSessions) (set_sessions (fun _ => twoSessions) initialStore).

(** Thirty minutes, the default of [SESSION_INACTIVITY_TIMEOUT]. *)
Definition thirtyMinutes : Z := 30 * 60 * 1000.

(** A ledger of two orders. *)
Definition anaInBogota : Customer.t :=
  Customer.mk (js "Ana Ruiz") (js "1020304050") (js "+573001112233")
    (js "Calle 1 # 2-3") (js "Centro") (js "Bogota").
Definition firstOrder : Order.t :=
  Order.mk (js "order-1") 1699990000000 Status.new anaInBogota
    (OrderProduct.mk (Some (IdNum 1)) (Some (js "Camisa")) (Some (js "Incluye gorra de regalo"))
       (Some 45000%Z) None)
    (Payment.mk 50000 45000 5000 (Some (js "/media/payments/payment_0.jpg")))
    None None None.
Definition secondOrder : Order.t :=
  Order.mk (js "order-2") 1699995000000 Status.processing anaInBogota
    (OrderProduct.mk (Some (IdNum 2)) (Some (js "Gorra")) (Some (js "De lana"))
       (Some 20000%Z) None)
    (Payment.mk 25000 20000 5000 (Some (js "/media/payments/payment_1.jpg")))
    None None None.
Definition twoOrders : Store := set_ordersFile (Parsed [firstOrder; secondOrder]) initialStore.

(** The calm world with the delivery API down. *)
Definition apiDown : World :=
  mkWorld (now calm) (uuid calm) (rejects calm) None (dataFile calm) (receiptPath calm)
    (PAYMENT_NUMBER calm) (io calm).

(** The form of Ana once she has typed her address. *)
Definition formAtCity : FormState.t :=
  FormState.mk addressCity (Some (js "Ana Ruiz")) (Some (js "1020304050"))
    (Some (js "Calle 1 # 2-3")) (Some (js "Centro")) None None None.

(** * Handlers that overlap

    [MessageHandler] is an [async] function, and the listener of
    [messages.upsert] in [index.ts] (line 81) calls it without [await]: a
    handler runs until its first [await], the listener then starts the next
    one, and each handler goes on when the promise it waits for settles.
    Between two [await]s a handler runs alone.  The definitions above run one
    handler to its end; the ones below give the same handler as a process
    that stops at every [await], and an engine that resumes the stopped
    processes in any order. *)

Module Async.

(** The [FormState] object a handler holds in its local [formState]: the
    objects that [awaitingConfirmation[owner]] has held are told apart by
    their [generation]. *)
Record Ref : Type := mkRef { owner : jsstring; generation : nat }.

(** The statements of an [async] function.  [Atomic] is code without
    [await], given as a block of the embedding above; [Await] is the
    [await] of a call that may reject, [AwaitPost] the one of
    [axios.post], [Delay] an [await] that only waits ([delay], a fetch that
    catches its own errors, the [await] of a handler that has returned). *)
Inductive Proc : Type -> Type :=
| Atomic {A} (block : M A) : Proc A
| Await (e : Effect) : Proc unit
| AwaitPost (direccion barrio ciudad : option jsstring) : Proc QuoteReply.t
| Delay : Proc unit
| TakeRef (sender : jsstring) : Proc Ref
| Deref (formState : Ref) : Proc FormState.t
| Assign (formState : Ref) (update : FormState.t -> FormState.t) : Proc unit
| Bind {A B} (p : Proc A) (k : A -> Proc B) : Proc B
| TryCatch {A} (p h : Proc A) : Proc A.

Declare Scope proc_scope.
Delimit Scope proc_scope with proc.
Bind Scope proc_scope with Proc.
Notation "x <- p ;; k" := (Bind p (fun x => k))
  (at level 100, p at next level, k at level 200, right associativity) : proc_scope.
Notation "p ;; k" := (Bind p (fun _ => k))
  (at level 100, k at level 200, right associativity) : proc_scope.
Arguments Atomic {A} block%_handler.
Local Open Scope proc_scope.

(** ** The handler, [await] by [await] *)

Section Runtime.

Variable toLowerCase : jsstring -> jsstring.
Variable normalizeNFD : jsstring -> jsstring.

(** The [addressCity] branch, lines 137 to 201: the object is written again
    after the [await]s of lines 140, 155 and 162, and read for the summary. *)
Definition collectCity (sender : jsstring) (message : Message.t) (formState : Ref) : Proc unit :=
  Assign formState (FormState.set_city (typedText (Message.content message))) ;;
  TryCatch
    (f1 <- Deref formState ;;
     result <- AwaitPost (FormState.address f1) (FormState.barrio f1) (FormState.city f1) ;;
     Assign formState (FormState.set_quote (QuoteReply.costo result) (QuoteReply.imagen result)) ;;
     Await (GetMapImage (QuoteReply.imagen result)) ;;
     Await (SendMessage sender (MapImage (QuoteReply.imagen result))) ;;
     Assign formState (FormState.set_stage finalConfirmation) ;;
     f3 <- Deref formState ;;
     s <- Atomic get ;;
     let product := selectedProduct s !! sender in
     let total :=
       (fun _ : ProductData.t => quotedTotal (priceOf product) (QuoteReply.costo result))
         <$> product in
     Await (SendMessage sender (FinalSummary f3 product total)))
    (Await (SendMessage sender QuoteError)).

(** The [finalConfirmation] branch, lines 202 to 253: on a yes the two
    writes of lines 231 and 232 come after the [await] of line 226. *)
Definition confirmFinal (sender : jsstring) (message : Message.t) (formState : Ref) : Proc unit :=
  f <- Deref formState ;;
  if isSi (Message.content message) then
    Atomic (modify (set_formData
              <[sender := FormDataItem.mk (FormState.name f) (FormState.idNumber f)
                            (FormState.address f) (FormState.barrio f)
                            (FormState.city f) (FormState.deliveryCost f)]>)) ;;
    s <- Atomic get ;;
    let price := priceOf (selectedProduct s !! sender) in
    let delivery :=
      if truthy (FormState.deliveryCost f) then FormState.deliveryCost f else None in
    let total := quotedTotal price (default 0%Z (FormState.deliveryCost f)) in
    Atomic (perform ReadQr) ;;
    Await (SendMessage sender (PaymentInstructions price delivery total)) ;;
    Atomic (modify (set_awaitingPayment <[sender := true]>)) ;;
    Atomic (modify (set_awaitingConfirmation (delete sender)))
  else if isNo (Message.content message) then
    Atomic (modify (set_awaitingConfirmation (delete sender))) ;;
    Atomic (modify (set_selectedProduct (delete sender))) ;;
    Atomic (modify (set_formData (delete sender))) ;;
    Atomic (modify (set_awaitingProduct <[sender := true]>)) ;;
    Await (SendMessage sender TryAgainWhichProduct)
  else Await (SendMessage sender OnlySiNo).

(** The branch of an entry that is a [FormState], lines 99 to 253. *)
Definition fillForm (sender : jsstring) (message : Message.t) (formState : Ref) : Proc unit :=
  let content := Message.content message in
  f <- Deref formState ;;
  match FormState.stage f with
  | basicName =>
      Assign formState (fun f => FormState.set_stage basicId (FormState.set_name (typedText content) f)) ;;
      Await (SendMessage sender AskIdNumber)
  | basicId =>
      Assign formState
        (fun f => FormState.set_stage basicConfirmation
                    (FormState.set_idNumber (typedText content) f)) ;;
      f' <- Deref formState ;;
      Await (SendMessage sender (ConfirmBasicInfo (FormState.name f') (FormState.idNumber f')))
  | basicConfirmation =>
      if isSi content then
        Assign formState (FormState.set_stage addressBarrio) ;;
        Await (SendMessage sender AskBarrio)
      else if isNo content then
        Assign formState (FormState.set_stage basicName) ;;
        Await (SendMessage sender RestartAskName)
      else Await (SendMessage sender OnlySiNo)
  | addressBarrio =>
      Assign formState
        (fun f => FormState.set_stage addressAddress (FormState.set_barrio (typedText content) f)) ;;
      Await (SendMessage sender AskAddress)
  | addressAddress =>
      Assign formState
        (fun f => FormState.set_stage addressCity (FormState.set_address (typedText content) f)) ;;
      Await (SendMessage sender AskCity)
  | addressCity => collectCity sender message formState
  | finalConfirmation => confirmFinal sender message formState
  end.

(** The simple confirmation after a product was found, lines 254 to 283. *)
Definition confirmProduct (sender : jsstring) (message : Message.t) : Proc unit :=
  if isSi (Message.content message) then
    Atomic (modify (set_awaitingConfirmation <[sender := Form FormState.initial]>)) ;;
    Await (SendMessage sender AskName)
  else if isNo (Message.content message) then
    Atomic (modify (set_awaitingProduct <[sender := true]>)) ;;
    Atomic (modify (set_awaitingConfirmation (delete sender))) ;;
    Await (SendMessage sender WhichProductFromCatalogue)
  else Await (SendMessage sender OnlySiNoTryAgain).

(** [case 'confirmation'] *)
Definition confirmationStage (sender : jsstring) (message : Message.t) : Proc unit :=
  s <- Atomic get ;;
  match awaitingConfirmation s !! sender with
  | Some (Form _) =>
      formState <- TakeRef sender ;;
      fillForm sender message formState
  | _ => confirmProduct sender message
  end.

(** [case 'product'], lines 286 to 356.  [dataJsonMissing] is what
    [!fs.existsSync(dataPath)] answers; the fetch and the read of the body
    of line 325 and 326 are one call. *)
Definition productStage (dataJsonMissing : bool) (sender : jsstring) (message : Message.t)
    : Proc unit :=
  match Message.content message with
  | Some content =>
      if truthy content then
        let response := normalizeText toLowerCase normalizeNFD content in
        TryCatch
          ((if dataJsonMissing then Delay ;; Delay else Atomic (ret tt)) ;;
           data <- Atomic readData ;;
           match findProduct toLowerCase normalizeNFD response data with
           | Some product =>
               Atomic (modify (set_selectedProduct <[sender := product]>)) ;;
               Delay ;;
               Await (SendMessage sender (ProductFound product)) ;;
               TryCatch
                 (match ProductData.ImagenURL product with
                  | Val url =>
                      if truthy url then
                        Await (FetchProductImage url) ;;
                        Atomic (perform WriteTmpImage) ;;
                        Await (SendMessage sender ProductImage)
                      else Atomic (ret tt)
                  | _ => Atomic (ret tt)
                  end)
                 (Atomic (ret tt)) ;;
               Atomic (modify (set_awaitingProduct <[sender := false]>)) ;;
               Atomic (modify (set_awaitingConfirmation <[sender := Flag true]>)) ;;
               Delay ;;
               Await (SendMessage sender IsThisTheProduct)
           | None => Await (SendMessage sender (NoMatch content))
           end)
          (Await (SendMessage sender SearchError))
      else Atomic (ret tt)
  | None => Atomic (ret tt)
  end.

(** The [catch (forwardError)] block, lines 429 to 466. *)
Definition receiptFallback (targetJid : jsstring) (imageMessage : ImageMessage.t)
    (current : jsstring) : Proc jsstring :=
  match ImageMessage.jpegThumbnail imageMessage with
  | Some bytes =>
      if bool_decide (0 < length bytes) then
        w <- Atomic ask ;;
        let path := receiptPath w 1 in
        TryCatch
          (Atomic (perform (WriteReceipt path)) ;;
           Await (SendMessage targetJid ReceiptThumbnail))
          (Await (SendMessage targetJid ReceiptNotForwarded)) ;;
        Atomic (ret path)
      else
        Await (SendMessage targetJid ReceiptNotProcessed) ;; Atomic (ret current)
  | None => Await (SendMessage targetJid ReceiptNotProcessed) ;; Atomic (ret current)
  end.

(** The [try] that relays the receipt, lines 407 to 466. *)
Definition forwardReceipt (targetJid : jsstring) (message : Message.t)
    (imageMessage : ImageMessage.t) : Proc jsstring :=
  relayed <- TryCatch (Await (RelayMessage targetJid (Message.id message)) ;; Atomic (ret true))
               (Atomic (ret false)) ;;
  if relayed : bool then
    match ImageMessage.jpegThumbnail imageMessage with
    | Some _ =>
        w <- Atomic ask ;;
        let path := receiptPath w 0 in
        written <- TryCatch (Atomic (perform (WriteReceipt path)) ;; Atomic (ret true))
                     (Atomic (ret false)) ;;
        if written : bool then Atomic (ret path) else receiptFallback targetJid imageMessage path
    | None => Atomic (ret [])
    end
  else receiptFallback targetJid imageMessage [].

(** [case 'payment'], lines 358 to 517: the conversation is cleared after
    the [await] of line 496. *)
Definition paymentStage (sender : jsstring) (message : Message.t) : Proc unit :=
  match Message.imageMessage message with
  | Some imageMessage =>
      w <- Atomic ask ;;
      let targetNumber := orElse (PAYMENT_NUMBER w) (js "573023606047") in
      let targetJid :=
        if JsString.includes targetNumber (js "@") then targetNumber
        else targetNumber ++ js "@s.whatsapp.net" in
      TryCatch
        (s <- Atomic get ;;
         let formDataItem := default FormDataItem.empty (formData s !! sender) in
         let productData := default ProductData.empty (selectedProduct s !! sender) in
         let senderNumber := js "+" ++ JsString.splitHead 64 sender in
         Await (SendMessage targetJid
                  (NewPurchase formDataItem productData senderNumber
                     (notifiedTotal productData formDataItem))) ;;
         paymentImagePath <- forwardReceipt targetJid message imageMessage ;;
         Atomic (createOrder (orderDraft sender productData formDataItem paymentImagePath)) ;;
         Await (SendMessage sender ThankYou) ;;
         Atomic (modify (set_awaitingPayment (delete sender))) ;;
         Atomic (modify (set_awaitingProduct (delete sender))) ;;
         Atomic (modify (set_awaitingConfirmation (delete sender))) ;;
         Atomic (modify (set_selectedProduct (delete sender))) ;;
         Atomic (modify (set_formData (delete sender))) ;;
         Atomic loadSessions ;;
         s' <- Atomic get ;;
         match sessions s' !! sender with
         | Some _ => Atomic (modify (set_sessions (delete sender))) ;; Atomic saveSessions
         | None => Atomic (ret tt)
         end)
        (Await (SendMessage sender PaymentProblem))
  | None => Atomic (ret tt)
  end.

(** The greeting, lines 528 to 559: [awaitingProduct] is set after the two
    [await]s of lines 535 and 541. *)
Definition welcome (sender : jsstring) (message : Message.t) : Proc unit :=
  w <- Atomic ask ;;
  Atomic (modify (set_sessions <[sender := Some (now w)]>)) ;;
  Atomic saveSessions ;;
  Await (SendMessage sender (Welcome (Message.pushName message))) ;;
  Atomic (perform ReadCatalogue) ;;
  Await (SendMessage sender Catalogue) ;;
  Atomic (modify (set_productsMode true)) ;;
  Atomic (modify (set_awaitingProduct <[sender := true]>)) ;;
  Delay ;;
  Await (SendMessage sender AskProduct).

(** [case 'new'], lines 518 to 571; [again] is the handler itself, which
    runs to its first [await] before the [await] of line 567 waits. *)
Definition newStage (again : Message.t -> Proc unit) (sender : jsstring) (message : Message.t)
    : Proc unit :=
  if negb (JsString.endsWith (Message.remoteJid message) (js "@g.us")) && truthy sender then
    Atomic loadSessions ;;
    w <- Atomic ask ;;
    s <- Atomic get ;;
    let lastTime : option Z := default None (sessions s !! sender) in
    if negb (truthy lastTime)
       || match lastTime with Some t => (30 * 60 * 1000 <? now w - t)%Z | None => false end
    then welcome sender message
    else if truthy (Message.content message) then
      Atomic (modify (set_awaitingProduct <[sender := true]>)) ;;
      again message ;;
      Delay
    else Atomic (ret tt)
  else Atomic (ret tt).

(** [MessageHandler], with the bound on nested calls of the embedding
    above. *)
Fixpoint MessageHandler (fuel : nat) (dataJsonMissing : bool) (message : Message.t)
    : Proc unit :=
  match fuel with
  | O => Atomic outOfFuel
  | S fuel' =>
      if Message.fromMe message then Atomic (ret tt)
      else
        let sender := Message.remoteJid message in
        s <- Atomic get ;;
        let stage := resolveStage s sender in
        Atomic (note (LogStage sender stage)) ;;
        match stage with
        | StageType.confirmation => confirmationStage sender message
        | StageType.product => productStage dataJsonMissing sender message
        | StageType.payment => paymentStage sender message
        | StageType.new => newStage (MessageHandler fuel' dataJsonMissing) sender message
        end
  end.

End Runtime.

(** ** Running the processes *)

(** The globals, and the [FormState] objects: the one a sender's entry of
    [awaitingConfirmation] holds is kept in that entry; [generations] counts
    the objects the entry has let go, and [detached] keeps those, which a
    handler may still hold. *)
Record Memory : Type := mkMemory {
  globals : Store;
  generations : gmap jsstring nat;
  detached : gmap (jsstring * nat) FormState.t
}.

Definition generationOf (m : Memory) (sender : jsstring) : nat :=
  default 0 (generations m !! sender).

(** [const formState = awaitingConfirmation[sender]] *)
Definition refOf (m : Memory) (sender : jsstring) : Ref :=
  mkRef sender (generationOf m sender).

(** Whether the object is the one the entry of its owner holds. *)
Definition attached (m : Memory) (r : Ref) : bool :=
  bool_decide (generationOf m (owner r) = generation r).

(** A read of the object. *)
Definition deref (m : Memory) (r : Ref) : FormState.t :=
  if attached m r then
    match awaitingConfirmation (globals m) !! owner r with
    | Some (Form f) => f
    | _ => FormState.initial
    end
  else default FormState.initial (detached m !! (owner r, generation r)).

(** A write to the object: it shows in [awaitingConfirmation] when the entry
    still holds the object. *)
Definition assign (m : Memory) (r : Ref) (update : FormState.t -> FormState.t) : Memory :=
  if attached m r then
    mkMemory
      (set_awaitingConfirmation
         (fun entries =>
            match entries !! owner r with
            | Some (Form f) => <[owner r := Form (update f)]> entries
            | _ => entries
            end)
         (globals m))
      (generations m) (detached m)
  else
    mkMemory (globals m) (generations m)
      (<[(owner r, generation r) := update (deref m r)]> (detached m)).

(** The globals after a block without [await] of a handler of [sender].  The
    code replaces or deletes the entry of its sender without writing to the
    object first, and builds a new object only where the entry is not an
    object (line 258): an entry that was an object and is none any more has
    let the object go as it was. *)
Definition commit (sender : jsstring) (after : Store) (m : Memory) : Memory :=
  match awaitingConfirmation (globals m) !! sender, awaitingConfirmation after !! sender with
  | Some (Form f), Some (Form _) => mkMemory after (generations m) (detached m)
  | Some (Form f), _ =>
      mkMemory after
        (<[sender := S (generationOf m sender)]> (generations m))
        (<[(sender, generationOf m sender) := f]> (detached m))
  | _, _ => mkMemory after (generations m) (detached m)
  end.

(** A handler that has run as far as it can. *)
Inductive Paused (A : Type) : Type :=
| Finished (o : Outcome A)
| Suspended (rest : Proc A).
Arguments Finished {A} o.
Arguments Suspended {A} rest.

(** Runs a handler of [sender] to its next [await].  What is left of an
    [await] is the call settling: the world answers when the handler is
    resumed. *)
Fixpoint resume {A} (sender : jsstring) (p : Proc A) (w : World) (m : Memory) (t : Trace)
    : Paused A * Memory * Trace :=
  match p with
  | Atomic block =>
      let r := block w (globals m) t in
      (Finished (outcome r), commit sender (store r) m, trace r)
  | Await e => (Suspended (Atomic (perform e)), m, t)
  | AwaitPost direccion barrio ciudad =>
      (Suspended (Atomic (postCalculate direccion barrio ciudad)), m, t)
  | Delay => (Suspended (Atomic (ret tt)), m, t)
  | TakeRef j => (Finished (Done (refOf m j)), m, t)
  | Deref r => (Finished (Done (deref m r)), m, t)
  | Assign r update => (Finished (Done tt), assign m r update, t)
  | Bind p k =>
      match resume sender p w m t with
      | (Finished (Done a), m', t') => resume sender (k a) w m' t'
      | (Finished Thrown, m', t') => (Finished Thrown, m', t')
      | (Finished OutOfFuel, m', t') => (Finished OutOfFuel, m', t')
      | (Suspended rest, m', t') => (Suspended (Bind rest k), m', t')
      end
  | TryCatch p h =>
      match resume sender p w m t with
      | (Finished Thrown, m', t') => resume sender h w m' t'
      | (Finished o, m', t') => (Finished o, m', t')
      | (Suspended rest, m', t') => (Suspended (TryCatch rest h), m', t')
      end
  end.

(** What happens to the engine: a message is handed to [MessageHandler]
    (line 81 of [index.ts]), or the promise that the [i]-th suspended
    handler waits for settles. *)
Inductive Event : Type :=
| Arrives (message : Message.t) (dataJsonMissing : bool)
| Settles (i : nat).

Record Engine : Type := mkEngine {
  memory : Memory;
  log : Trace;
  (** the handlers stopped at an [await], oldest first, each with its sender *)
  suspended : list (jsstring * Proc unit)
}.

(** The engine of a process whose globals are [s] and that holds no handler. *)
Definition idle (s : Store) : Engine := mkEngine (mkMemory s ∅ ∅) [] [].

Section Engine.

Variable toLowerCase : jsstring -> jsstring.
Variable normalizeNFD : jsstring -> jsstring.

Definition step (w : World) (e : Engine) (x : Event) : Engine :=
  match x with
  | Arrives message dataJsonMissing =>
      let sender := Message.remoteJid message in
      match resume sender (MessageHandler toLowerCase normalizeNFD 2 dataJsonMissing message)
              w (memory e) (log e) with
      | (Finished _, m, t) => mkEngine m t (suspended e)
      | (Suspended rest, m, t) => mkEngine m t (suspended e ++ [(sender, rest)])
      end
  | Settles i =>
      match suspended e !! i with
      | Some (sender, p) =>
          match resume sender p w (memory e) (log e) with
          | (Finished _, m, t) => mkEngine m t (delete i (suspended e))
          | (Suspended rest, m, t) => mkEngine m t (<[i := (sender, rest)]> (suspended e))
          end
      | None => e
      end
  end.

(** The engine after a run of events. *)
Definition interleave (w : World) (events : list Event) (e : Engine) : Engine :=
  foldl (step w) e events.

(** A message handled to its end before anything else happens: the handler
    is resumed as soon as it stops, until it returns. *)
Fixpoint settleAll (n : nat) (w : World) (sender : jsstring) (p : Proc unit)
    (m : Memory) (t : Trace) : Outcome unit * Memory * Trace :=
  match resume sender p w m t with
  | (Finished o, m', t') => (o, m', t')
  | (Suspended rest, m', t') =>
      match n with
      | O => (OutOfFuel, m', t')
      | S n' => settleAll n' w sender rest m' t'
      end
  end.

End Engine.

End Async.

(** ** Two messages of one sender in one batch *)

(** A message that is handled to its end before the next event: the
    handler is resumed at each of its [await]s, of which no run has more
    than eight. *)
Definition inTurn (message : Message.t) : list Async.Event :=
  Async.Arrives message false :: replicate 8 (Async.Settles 0).

(** Ana has chosen the shirt and filled the form: the bot has sent the
    summary and waits for her yes or no ([finalConfirmation]). *)
Definition upToTheSummary : list Message.t :=
  [says ana (js "hola"); says ana (js "camisa"); says ana (js "si");
   says ana (js "Ana Ruiz"); says ana (js "1020304050"); says ana (js "si");
   says ana (js "Centro"); says ana (js "Calle 1 # 2-3"); says ana (js "Bogota")].

(** The engine on the Latin-1 runtime. *)
Definition engineAfter (w : World) (events : list Async.Event) (e : Async.Engine)
    : Async.Engine :=
  Async.interleave toLowerCaseLatin1 normalizeNFDLatin1 w events e.

(** The engine once each of those messages has been handled in turn. *)
Definition atTheSummary : Async.Engine :=
  engineAfter calm (concat (map inTurn upToTheSummary)) (Async.idle initialStore).

(** A yes and a no arrive in one batch: the listener starts the two
    handlers, and then the two messages the handlers sent go out. *)
Definition yesAndNoAtOnce : list Async.Event :=
  [Async.Arrives (says ana (js "si")) false; Async.Arrives (says ana (js "no")) false;
   Async.Settles 0; Async.Settles 0].

(** A greeting and the name of a product arrive in one batch at the first
    contact: the two handlers are started, the search of the second message
    runs to its end, then the greeting of the first does. *)
Definition helloAndProductAtOnce : list Async.Event :=
  [Async.Arrives (says ana (js "hola")) false; Async.Arrives (says ana (js "camisa")) false]
  ++ replicate 5 (Async.Settles 1) ++ replicate 4 (Async.Settles 0).

(** ** A sweep whose write fails *)

(** A world in which every call goes through but the one made after [n]
    others, and a world in which every call goes through. *)
Definition failingAt (n : nat) (w : World) : World :=
  mkWorld (now w) (uuid w) (fun i => bool_decide (i = n)) (quote w) (dataFile w)
    (receiptPath w) (PAYMENT_NUMBER w) (io w).
Definition goingThrough (w : World) : World :=
  mkWorld (now w) (uuid w) (fun _ => false) (quote w) (dataFile w)
    (receiptPath w) (PAYMENT_NUMBER w) (io w).

(** The farewells of a sweep that reached every sender of a list. *)
Definition farewells (senders : list jsstring) : Trace :=
  map (fun jid => (SendMessage jid SessionClosed, true)) senders.

(** * The rest of the ledger, and the message loop

    - [src/services/orderService.ts]  [getSalesSummary], [getTopProducts],
                                      [getSalesByTimePeriod], [getOrders]
    - [src/utils/message.ts]          [getMessage]
    - [src/index.ts]                  the listener of [messages.upsert] *)

(** ** Arrays and plain objects *)

Module JsArray.

(** One step of a stable sort: [x], the younger element, goes before the
    first element it compares below. *)
Fixpoint insertSorted {A} (compareFn : A -> A -> Z) (x : A) (sorted : list A) : list A :=
  match sorted with
  | [] => [x]
  | y :: rest =>
      if (compareFn x y <? 0)%Z then x :: y :: rest
      else y :: insertSorted compareFn x rest
  end.

(** [array.sort(compareFn)], which ECMAScript requires to be stable. *)
Definition sort {A} (compareFn : A -> A -> Z) (array : list A) : list A :=
  fold_left (fun sorted x => insertSorted compareFn x sorted) array [].

(** [array.slice(0, end)] *)
Definition slice0 {A} (end_ : Z) (array : list A) : list A :=
  if (end_ <? 0)%Z then take (length array - Z.to_nat (- end_)) array
  else take (Z.to_nat end_) array.

End JsArray.

Module JsObject.

(** The names a plain object answers from [Object.prototype]; what it
    answers is a function or an object, hence truthy. *)
Definition inherited : list jsstring :=
  [js "constructor"; js "__defineGetter__"; js "__defineSetter__";
   js "hasOwnProperty"; js "__lookupGetter__"; js "__lookupSetter__";
   js "isPrototypeOf"; js "propertyIsEnumerable"; js "toString"; js "valueOf";
   js "__proto__"; js "toLocaleString"].

(** The own properties of an object, oldest first. *)
Definition t (V : Type) : Type := list (jsstring * V).

Fixpoint own {V} (key : jsstring) (o : t V) : option V :=
  match o with
  | [] => None
  | (k, v) :: rest => if decide (k = key) then Some v else own key rest
  end.

(** [o[key] = v]: a property that exists keeps its place. *)
Fixpoint assign {V} (key : jsstring) (v : V) (o : t V) : t V :=
  match o with
  | [] => [(key, v)]
  | (k, v') :: rest =>
      if decide (k = key) then (k, v) :: rest else (k, v') :: assign key v rest
  end.

Definition isDigit (c : N) : bool := ((48 <=? c) && (c <=? 57))%N.

Definition digitsValue (digits : jsstring) : N :=
  fold_left (fun n c => n * 10 + (c - 48))%N digits 0%N.

(** The array index a key spells, if any: a decimal numeral below 2^32 - 1
    with no leading zero. *)
Definition arrayIndex (key : jsstring) : option N :=
  match key with
  | [] => None
  | c :: rest =>
      if forallb isDigit key
         && (negb (c =? 48)%N || bool_decide (rest = []))
         && (digitsValue key <? 4294967295)%N
      then Some (digitsValue key)
      else None
  end.

Definition isIndexed {V} (e : jsstring * V) : bool :=
  match arrayIndex (fst e) with Some _ => true | None => false end.

Definition compareIndex {V} (a b : jsstring * V) : Z :=
  (Z.of_N (default 0%N (arrayIndex (fst a))) - Z.of_N (default 0%N (arrayIndex (fst b))))%Z.

(** [Object.entries(o)]: the array indices in ascending order, then the other
    keys in the order they were created. *)
Definition entries {V} (o : t V) : list (jsstring * V) :=
  JsArray.sort compareIndex (List.filter isIndexed o)
  ++ List.filter (fun e => negb (isIndexed e)) o.

(** [Object.values(o)] *)
Definition values {V} (o : t V) : list V := map snd (entries o).

End JsObject.

(** ** [getSalesSummary] *)

Module CountByStatus.
Record t : Type := mk { new : Z; processing : Z; completed : Z; cancelled : Z }.
End CountByStatus.

Module SalesSummary.
Record t : Type := mk {
    totalOrders : Z;
    totalRevenue : Z;
    totalProductSales : Z;
    totalDeliveryCost : Z;
    (** the quotient itself; its rounding to a double is not modelled *)
    avgOrderValue : QArith_base.Q;
    countByStatus : CountByStatus.t
  }.
End SalesSummary.

(** The four variables the [forEach] of [getSalesSummary] updates. *)
Module Totals.
Record t : Type := mk {
    countByStatus : CountByStatus.t;
    totalRevenue : Z;
    totalProductSales : Z;
    totalDeliveryCost : Z
  }.
End Totals.



(** ** [getTopProducts] *)

Module TopProduct.
Record t : Type := mk {
    id : option IdValue;
    name : option jsstring;
    count : Z;
    totalRevenue : Z;
    imageUrl : option jsstring
  }.
End TopProduct.

(** [String(order.product.id)] *)
Definition productKey (order : Order.t) : jsstring :=
  match OrderProduct.id (Order.product order) with
  | Some i => stringOfId i
  | None => js "null"
  end.

(** [count++] and [totalRevenue += order.payment.productPrice || 0] *)
Definition addSale (order : Order.t) (entry : TopProduct.t) : TopProduct.t :=
  let price := Payment.productPrice (Order.payment order) in
  TopProduct.mk (TopProduct.id entry) (TopProduct.name entry)
    (TopProduct.count entry + 1)
    (TopProduct.totalRevenue entry + (if truthy price then price else 0))
    (TopProduct.imageUrl entry).

(** The callback of the [forEach] of [getTopProducts], lines 281 to 301.
    When the key is a name of [Object.prototype] and no own property has it,
    [productMap[productId]] is the inherited member: no entry is created,
    and the two updates fall on that member. *)
Definition countProduct (productMap : JsObject.t TopProduct.t) (order : Order.t)
    : JsObject.t TopProduct.t :=
  if bool_decide (Order.status order = Status.cancelled) then productMap
  else
    let productId := productKey order in
    if negb (truthy productId) then productMap
    else
      match JsObject.own productId productMap with
      | Some entry => JsObject.assign productId (addSale order entry) productMap
      | None =>
          if bool_decide (productId ∈ JsObject.inherited) then productMap
          else
            JsObject.assign productId
              (addSale order
                 (TopProduct.mk (OrderProduct.id (Order.product order))
                    (OrderProduct.name (Order.product order)) 0 0
                    (OrderProduct.imageUrl (Order.product order))))
              productMap
      end.

(** [(a, b) => b.count - a.count || b.totalRevenue - a.totalRevenue] *)
Definition byCountThenRevenue (a b : TopProduct.t) : Z :=
  let byCount := (TopProduct.count b - TopProduct.count a)%Z in
  if truthy byCount then byCount
  else (TopProduct.totalRevenue b - TopProduct.totalRevenue a)%Z.

Definition rankProducts (limit : Z) (filteredOrders : list Order.t) : list TopProduct.t :=
  let productMap := fold_left countProduct filteredOrders [] in
  JsArray.slice0 limit (JsArray.sort byCountThenRevenue (JsObject.values productMap)).

(** ** [getSalesByTimePeriod] *)

Inductive Period : Type := daily | weekly | monthly.

Module PeriodSales.
Record t : Type := mk { period : jsstring; count : Z; revenue : Z }.
End PeriodSales.

Section Analytics.

Variable toLowerCase : jsstring -> jsstring.

(** [Date] on a timestamp, in the time zone of the process:
    [toISOString()], [getDay()], [getDate()], and [setDate(day)] as the
    timestamp it leaves.  Timestamps are taken to be in the range of [Date]. *)
Variable toISOString : Z -> jsstring.
Variable getDay : Z -> Z.
Variable getDate : Z -> Z.
Variable setDate : Z -> Z -> Z.
(** [String.prototype.localeCompare] *)
Variable localeCompare : jsstring -> jsstring -> Z.


(** [getTopProducts] *)
Definition getTopProducts (limit : Z) (criteria : OrderSearchCriteria.t)
    : M (list TopProduct.t) :=
  filteredOrders <- searchOrders toLowerCase criteria ;;
  ret (rankProducts limit filteredOrders).

(** The [switch (period)] of lines 329 to 345. *)
Definition periodKeyOf (period : Period) (timestamp : Z) : jsstring :=
  match period with
  | daily => JsString.splitHead 84 (toISOString timestamp)
  | weekly =>
      let day := if truthy (getDay timestamp) then getDay timestamp else 7%Z in
      let mondayDate := setDate timestamp (getDate timestamp - day + 1)%Z in
      JsString.splitHead 84 (toISOString mondayDate)
  | monthly => take 7 (toISOString timestamp)
  end.

(** The callback of the [forEach] of [getSalesByTimePeriod], lines 321 to
    353; a key that names a member of [Object.prototype] creates no entry,
    as in [countProduct]. *)
Definition countPeriod (period : Period) (periodMap : JsObject.t (Z * Z)) (order : Order.t)
    : JsObject.t (Z * Z) :=
  if bool_decide (Order.status order = Status.cancelled) then periodMap
  else
    let periodKey := periodKeyOf period (Order.timestamp order) in
    let total := Payment.total (Order.payment order) in
    match JsObject.own periodKey periodMap with
    | Some (count, revenue) =>
        JsObject.assign periodKey (count + 1, revenue + total)%Z periodMap
    | None =>
        if bool_decide (periodKey ∈ JsObject.inherited) then periodMap
        else JsObject.assign periodKey (0 + 1, 0 + total)%Z periodMap
    end.



(** [getOrders]: [searchOrders(filters || {})] on a filter of three fields. *)
Definition getOrders (filters : option (option Status.t * option Z * option Z))
    : M (list Order.t) :=
  searchOrders toLowerCase
    match filters with
    | Some (status, fromDate, toDate) =>
        OrderSearchCriteria.mk status fromDate toDate None None None None None None None None
    | None => OrderSearchCriteria.empty
    end.

End Analytics.

(** ** [utils/message.ts] and the listener of [messages.upsert] in [index.ts] *)

(** The parts of a [WAMessage] the listener and [getMessage] read; the chat
    of a message that was received is always set. *)
Module WAMessage.
Record t : Type := mk {
    fromMe : bool;
    remoteJid : jsstring;
    id : option jsstring;
    pushName : option jsstring;
    (** [message?.conversation] *)
    conversation : option jsstring;
    (** [message?.extendedTextMessage?.text] *)
    extendedText : option jsstring;
    (** [message?.imageMessage] *)
    imageMessage : option ImageMessage.t
  }.
End WAMessage.

(** [getMessage]: the text is [conversation || extendedTextMessage.text]. *)
Definition getMessage (message : WAMessage.t) : Message.t :=
  Message.mk (WAMessage.fromMe message) (WAMessage.remoteJid message) (WAMessage.id message)
    (if truthy (WAMessage.conversation message) then WAMessage.conversation message
     else WAMessage.extendedText message)
    (WAMessage.pushName message) (WAMessage.imageMessage message).

(** The [for] loop of the listener, as the list of the messages it hands to
    [MessageHandler], in that order.  The handler is not awaited: the runs it
    starts overlap, and only their starting order is modelled here.  A group
    or status message leaves the listener by [return]. *)
Fixpoint messagesUpsert (messages : list WAMessage.t) : list Message.t :=
  match messages with
  | [] => []
  | message :: rest =>
      let isGroup := JsString.endsWith (WAMessage.remoteJid message) (js "@g.us") in
      let isStatus := bool_decide (WAMessage.remoteJid message = js "status@broadcast") in
      if isGroup || isStatus then []
      else getMessage message :: messagesUpsert rest
  end.

(** * Vocabulary of the further properties *)

(** An order that is not cancelled. *)
Definition isLive (order : Order.t) : bool :=
  bool_decide (Order.status order ≠ Status.cancelled).

(** The sum of an amount over the orders that are not cancelled. *)
Definition liveSum (amount : Order.t -> Z) (orders : list Order.t) : Z :=
  foldr (fun order acc => ((if isLive order then amount order else 0) + acc)%Z) 0%Z orders.



(** [{ ...criteria, status }] *)
Definition askStatus (status : Status.t) (c : OrderSearchCriteria.t) : OrderSearchCriteria.t :=
  OrderSearchCriteria.mk (Some status) (OrderSearchCriteria.fromDate c)
    (OrderSearchCriteria.toDate c) (OrderSearchCriteria.customerId c)
    (OrderSearchCriteria.customerName c) (OrderSearchCriteria.customerPhone c)
    (OrderSearchCriteria.productId c) (OrderSearchCriteria.productName c)
    (OrderSearchCriteria.minTotal c) (OrderSearchCriteria.maxTotal c)
    (OrderSearchCriteria.attendedBy c).

(** A search that asks for all that another one asks for, and possibly more:
    every criterion of [wide] is missing or is the one of [narrow]. *)
Definition narrows (narrow wide : OrderSearchCriteria.t) : Prop :=
  let same {A} (field : OrderSearchCriteria.t -> option A) :=
    field wide = None \/ field wide = field narrow in
  same OrderSearchCriteria.status /\ same OrderSearchCriteria.fromDate
  /\ same OrderSearchCriteria.toDate /\ same OrderSearchCriteria.customerId
  /\ same OrderSearchCriteria.customerName /\ same OrderSearchCriteria.customerPhone
  /\ same OrderSearchCriteria.productId /\ same OrderSearchCriteria.productName
  /\ same OrderSearchCriteria.minTotal /\ same OrderSearchCriteria.maxTotal
  /\ same OrderSearchCriteria.attendedBy.

(** The sum of an amount over a list. *)
Definition sumOf {A} (amount : A -> Z) (l : list A) : Z :=
  foldr (fun x acc => (amount x + acc)%Z) 0%Z l.

(** A list in which every element stands in a relation to all that follow. *)
Fixpoint inOrder {A} (R : A -> A -> Prop) (l : list A) : Prop :=
  match l with
  | [] => True
  | a :: rest => Forall (R a) rest /\ inOrder R rest
  end.

(** The ranking of [getTopProducts]: more sales first, and among products
    with as many sales the higher revenue first. *)
Definition notBelow (a b : TopProduct.t) : Prop :=
  (TopProduct.count b < TopProduct.count a)%Z
  \/ (TopProduct.count b = TopProduct.count a
      /\ (TopProduct.totalRevenue b <= TopProduct.totalRevenue a)%Z).

(** The key under which [getTopProducts] files an entry. *)
Definition keyOfTop (entry : TopProduct.t) : jsstring :=
  match TopProduct.id entry with
  | Some i => stringOfId i
  | None => js "null"
  end.

(** The orders [getTopProducts] counts: not cancelled, with a non-empty key
    that is not a name of [Object.prototype]. *)
Definition isCounted (order : Order.t) : bool :=
  isLive order && truthy (productKey order)
  && negb (bool_decide (productKey order ∈ JsObject.inherited)).

(** ** [Date] in a process whose time zone is UTC

    For the closed examples: the proleptic Gregorian calendar on a count of
    milliseconds since 1970-01-01T00:00:00Z, for the years 0000 to 9999. *)

Module UtcDate.

Definition msPerDay : Z := 86400000.

(** Year, month and day of a count of days since 1970-01-01. *)
Definition civil (days : Z) : Z * Z * Z :=
  let z := (days + 719468)%Z in
  let era := (z / 146097)%Z in
  let doe := (z - era * 146097)%Z in
  let yoe := ((doe - doe / 1460 + doe / 36524 - doe / 146096) / 365)%Z in
  let doy := (doe - (365 * yoe + yoe / 4 - yoe / 100))%Z in
  let mp := ((5 * doy + 2) / 153)%Z in
  let d := (doy - (153 * mp + 2) / 5 + 1)%Z in
  let m := (if (mp <? 10)%Z then mp + 3 else mp - 9)%Z in
  let y := (yoe + era * 400 + (if (m <=? 2)%Z then 1 else 0))%Z in
  (y, m, d).

(** A number in decimal, padded with zeros on the left. *)
Definition padded (width : nat) (n : Z) : jsstring :=
  let digits := js (pretty n) in
  replicate (width - length digits) 48%N ++ digits.

(** [new Date(timestamp).toISOString()] *)
Definition toISOString (timestamp : Z) : jsstring :=
  let '(y, m, d) := civil (timestamp / msPerDay) in
  let ms := (timestamp mod msPerDay)%Z in
  padded 4 y ++ js "-" ++ padded 2 m ++ js "-" ++ padded 2 d ++ js "T"
  ++ padded 2 (ms / 3600000) ++ js ":" ++ padded 2 (ms / 60000 mod 60) ++ js ":"
  ++ padded 2 (ms / 1000 mod 60) ++ js "." ++ padded 3 (ms mod 1000) ++ js "Z".

(** [getDay()]: 0 is Sunday; 1970-01-01 was a Thursday. *)
Definition getDay (timestamp : Z) : Z := ((timestamp / msPerDay + 4) mod 7)%Z.

(** [getDate()] *)
Definition getDate (timestamp : Z) : Z := snd (civil (timestamp / msPerDay)).

(** [setDate(day)], as the timestamp it leaves: days beyond the month run
    into the neighbouring months. *)
Definition setDate (timestamp day : Z) : Z :=
  (timestamp + (day - getDate timestamp) * msPerDay)%Z.


End UtcDate.

(** ** What a run of the handler leaves alone *)

(** A block whose store always stands in a relation to the store it
    started from. *)
Definition preserves (R : Store -> Store -> Prop) {A} (m : M A) : Prop :=
  forall w s t, R s (store (m w s t)).

(** The conversation of a sender: its entries in the five dictionaries of
    [handlers/message.ts]. *)
Definition conversationOf (s : Store) (j : jsstring) :
    option AwaitingValue * option ProductData.t * option FormDataItem.t
    * option bool * option bool :=
  (awaitingConfirmation s !! j, selectedProduct s !! j, formData s !! j,
   awaitingPayment s !! j, awaitingProduct s !! j).

(** Two stores that agree on the conversation of every sender but one. *)
Definition sameForOthers (sender : jsstring) (s s' : Store) : Prop :=
  forall j, j <> sender -> conversationOf s' j = conversationOf s j.

(** Two stores with the same orders file. *)
Definition sameOrders (s s' : Store) : Prop := ordersFile s' = ordersFile s.

(** The chat the payment step notifies, lines 360 to 364: [PAYMENT_NUMBER],
    or the number of the source when it is not set, as a JID. *)
Definition operatorJid (w : World) : jsstring :=
  let targetNumber := orElse (PAYMENT_NUMBER w) (js "573023606047") in
  if JsString.includes targetNumber (js "@") then targetNumber
  else targetNumber ++ js "@s.whatsapp.net".

(** The chat a call writes to, if it writes to one. *)
Definition addressee (e : Effect) : option jsstring :=
  match e with
  | SendMessage jid _ => Some jid
  | RelayMessage jid _ => Some jid
  | _ => None
  end.

(** A block that, in a world, adds to the trace only, and writes to no chat
    but the allowed ones. *)
Definition writesOnlyTo (allowed : jsstring -> Prop) (w : World) {A} (m : M A) : Prop :=
  forall s t,
    exists added,
      trace (m w s t) = t ++ added
      /\ Forall (fun e => forall jid, addressee (fst e) = Some jid -> allowed jid) added.

(** A message the listener does not hand to the bot: one of a group, or a
    status update. *)
Definition groupOrStatus (message : WAMessage.t) : bool :=
  JsString.endsWith (WAMessage.remoteJid message) (js "@g.us")
  || bool_decide (WAMessage.remoteJid message = js "status@broadcast").

(** A run in which every call went through. *)
Definition allWentThrough (t : Trace) : Prop := Forall (fun e => snd e = true) t.

(** ** Closed examples for the further properties *)

(** What Ana has typed by the time she pays, and the draft of her order. *)
Definition itemOfAna : FormDataItem.t :=
  FormDataItem.mk (Some (js "Ana Ruiz")) (Some (js "1020304050")) (Some (js "Calle 1 # 2-3"))
    (Some (js "Centro")) (Some (js "Bogota")) (Some 5000%Z).
Definition draftOfAna : OrderData.t :=
  orderDraft ana shirt itemOfAna (js "/media/payments/payment_2.jpg").


(** Ana right after the greeting, at the first field of the form, and
    waiting to pay for the shirt. *)
Definition afterHello : Store := converse calm [says ana (js "hola")] initialStore.
Definition atTheName : Store :=
  set_awaitingConfirmation <[ana := Form FormState.initial]> initialStore.
Definition aboutToPay : Store :=
  converse calm
    [says ana (js "hola"); says ana (js "camisa"); says ana (js "si");
     says ana (js "Ana Ruiz"); says ana (js "1020304050"); says ana (js "si");
     says ana (js "Centro"); says ana (js "Calle 1 # 2-3"); says ana (js "Bogota");
     says ana (js "si")]
    initialStore.

(** A batch of three messages: Ana, a group, Bob. *)
Definition direct (who text : jsstring) : WAMessage.t :=
  WAMessage.mk false who (Some (js "3EB0")) (Some (js "Ana")) (Some text) None None.
Definition fromAGroup : WAMessage.t :=
  WAMessage.mk false (js "120363000000000000@g.us") (Some (js "3EB2")) (Some (js "Luis"))
    (Some (js "buenas")) None None.

(** * Properties *)

(** ** Running a handler, one statement at a time *)

Lemma bind_ret {A B} (a : A) (k : A -> M B) w s t : (x <- ret a ;; k x) w s t = k a w s t.
Proof. reflexivity. Qed.

Lemma bind_get {B} (k : Store -> M B) w s t : (x <- get ;; k x) w s t = k s w s t.
Proof. reflexivity. Qed.

Lemma bind_ask {B} (k : World -> M B) w s t : (x <- ask ;; k x) w s t = k w w s t.
Proof. reflexivity. Qed.

Lemma bind_modify {B} f (k : unit -> M B) w s t : (x <- modify f ;; k x) w s t = k tt w (f s) t.
Proof. reflexivity. Qed.

Lemma bind_note {B} e (k : unit -> M B) w s t :
  (x <- note e ;; k x) w s t = k tt w s (t ++ [(e, true)]).
Proof. reflexivity. Qed.

Lemma bind_throw {A B} (k : A -> M B) w s t : (x <- throw ;; k x) w s t = mkResult Thrown s t.
Proof. reflexivity. Qed.

Lemma bind_perform {B} e (k : unit -> M B) w s t :
  (x <- perform e ;; k x) w s t
  = if rejects w (length t)
    then mkResult Thrown s (t ++ [(e, false)])
    else k tt w s (t ++ [(e, true)]).
Proof. unfold bind, perform. by destruct (rejects w (length t)). Qed.

Lemma bind_assoc {A B C} (m : M A) (k : A -> M B) (k' : B -> M C) w s t :
  (y <- (x <- m ;; k x) ;; k' y) w s t = (x <- m ;; y <- k x ;; k' y) w s t.
Proof. unfold bind. by destruct (outcome (m w s t)). Qed.

(** The two ways a statement sits in its block, and the calls that ask the
    world. *)
Lemma bind_eq {A B} (m : M A) (k : A -> M B) w s t :
  (x <- m ;; k x) w s t
  = match outcome (m w s t) with
    | Done a => k a w (store (m w s t)) (trace (m w s t))
    | Thrown => mkResult Thrown (store (m w s t)) (trace (m w s t))
    | OutOfFuel => mkResult OutOfFuel (store (m w s t)) (trace (m w s t))
    end.
Proof. reflexivity. Qed.

Lemma try_eq {A} (m h : M A) w s t :
  tryCatch m h w s t
  = match outcome (m w s t) with
    | Done a => mkResult (Done a) (store (m w s t)) (trace (m w s t))
    | Thrown => h w (store (m w s t)) (trace (m w s t))
    | OutOfFuel => mkResult OutOfFuel (store (m w s t)) (trace (m w s t))
    end.
Proof. unfold tryCatch. by destruct (m w s t) as [[]]. Qed.

Lemma try_bind {A B} (m : M A) (k : A -> M B) (h : M B) w s t :
  tryCatch (x <- m ;; k x) h w s t
  = match outcome (m w s t) with
    | Done a => tryCatch (k a) h w (store (m w s t)) (trace (m w s t))
    | Thrown => h w (store (m w s t)) (trace (m w s t))
    | OutOfFuel => mkResult OutOfFuel (store (m w s t)) (trace (m w s t))
    end.
Proof. unfold tryCatch, bind. by destruct (outcome (m w s t)). Qed.

Lemma perform_eq e w s t :
  perform e w s t
  = if rejects w (length t)
    then mkResult Thrown s (t ++ [(e, false)])
    else mkResult (Done tt) s (t ++ [(e, true)]).
Proof. reflexivity. Qed.

Lemma postCalculate_eq direccion barrio ciudad w s t :
  postCalculate direccion barrio ciudad w s t
  = match quote w with
    | Some result => mkResult (Done result) s (t ++ [(PostCalculate direccion barrio ciudad, true)])
    | None => mkResult Thrown s (t ++ [(PostCalculate direccion barrio ciudad, false)])
    end.
Proof. reflexivity. Qed.

Lemma readData_eq w s t :
  readData w s t
  = match dataFile w with
    | Some data => mkResult (Done data) s (t ++ [(ReadData, true)])
    | None => mkResult Thrown s (t ++ [(ReadData, false)])
    end.
Proof. reflexivity. Qed.

Lemma loadOrders_ledger w s t :
  loadOrders w s t = mkResult (Done (ledger s)) s t.
Proof. unfold loadOrders, ledger, bind, get, ret; simpl. by destruct (ordersFile s). Qed.

Lemma saveOrders_result orders w s t :
  saveOrders orders w s t
  = if rejects w (length t)
    then mkResult (Done tt) s (t ++ [(WriteOrders, false)])
    else mkResult (Done tt) (set_ordersFile (Parsed orders) s) (t ++ [(WriteOrders, true)]).
Proof.
  unfold saveOrders, tryCatch, bind, perform, modify, ret.
  by destruct (rejects w (length t)).
Qed.

Lemma loadSessions_result w s t :
  loadSessions w s t
  = match sessionsFile s with
    | Unparsable => mkResult Thrown s t
    | _ => mkResult (Done tt) (set_sessions (fun _ => known s) s) t
    end.
Proof.
  unfold loadSessions, known, bind, get, ret, throw, modify; cbn [outcome store trace].
  destruct s as [? ? ? ? ? ? ? [| |m] ?]; reflexivity.
Qed.

(** One statement: open the block at its head, let the calls that cannot
    fail run, and name the answer of the world where the next call asks. *)
Ltac open_head :=
  first [ rewrite try_bind | rewrite bind_eq | rewrite try_eq ].
Ltac settle :=
  cbn [get modify ask ret note throw outOfFuel when outcome store trace].
Ltac ask_world :=
  match goal with
  | |- context [perform ?e ?w ?s ?t] =>
      rewrite (perform_eq e w s t);
      let R := fresh "Hrej" in destruct (rejects w (length t)) eqn:R
  | |- context [postCalculate ?a ?b ?c ?w ?s ?t] =>
      rewrite (postCalculate_eq a b c w s t); destruct (quote w)
  | |- context [readData ?w ?s ?t] =>
      rewrite (readData_eq w s t); destruct (dataFile w)
  | |- context [loadSessions ?w ?s ?t] =>
      rewrite (loadSessions_result w s t); destruct (sessionsFile s)
  | |- context [loadOrders ?w ?s ?t] =>
      rewrite (loadOrders_ledger w s t)
  | |- context [saveOrders ?o ?w ?s ?t] =>
      rewrite (saveOrders_result o w s t); destruct (rejects w (length t))
  | |- context [sendMessage ?j ?m ?w ?s ?t] =>
      change (sendMessage j m w s t) with (perform (SendMessage j m) w s t)
  end.
Ltac case_rejects :=
  match goal with
  | |- context [if rejects ?w ?n then _ else _] => destruct (rejects w n)
  end.
Ltac exec_step := first [ progress settle | ask_world | open_head ].
Ltac exec := repeat exec_step.

(** ** The order ledger *)

Lemma searchOrders_filter toLowerCase criteria w s t :
  searchOrders toLowerCase criteria w s t
  = mkResult (Done (List.filter (orderMatches toLowerCase criteria) (ledger s))) s t.
Proof. unfold searchOrders, bind. by rewrite loadOrders_ledger. Qed.

(** C10. [searchOrders] reads a falsy criterion as an absent one: with
    [minTotal] or [maxTotal] equal to 0, with an empty [customerId],
    [customerName], [customerPhone] or [productName], or with a [productId]
    that is the empty string or 0, it returns what it returns with that
    criterion left out; in particular a [maxTotal] of 0 alone returns the whole
    ledger. *)
Theorem C10_searchOrders_falsy_criterion_is_absent :
  forall toLowerCase (c : OrderSearchCriteria.t) w s t,
    let search c := searchOrders toLowerCase c w s t in
    search (OrderSearchCriteria.set_minTotal (Some 0%Z) c)
      = search (OrderSearchCriteria.set_minTotal None c)
    /\ search (OrderSearchCriteria.set_maxTotal (Some 0%Z) c)
      = search (OrderSearchCriteria.set_maxTotal None c)
    /\ search (OrderSearchCriteria.set_customerId (Some []) c)
      = search (OrderSearchCriteria.set_customerId None c)
    /\ search (OrderSearchCriteria.set_customerName (Some []) c)
      = search (OrderSearchCriteria.set_customerName None c)
    /\ search (OrderSearchCriteria.set_customerPhone (Some []) c)
      = search (OrderSearchCriteria.set_customerPhone None c)
    /\ search (OrderSearchCriteria.set_productName (Some []) c)
      = search (OrderSearchCriteria.set_productName None c)
    /\ search (OrderSearchCriteria.set_productId (Some (IdStr [])) c)
      = search (OrderSearchCriteria.set_productId None c)
    /\ search (OrderSearchCriteria.set_productId (Some (IdNum 0)) c)
      = search (OrderSearchCriteria.set_productId None c)
    /\ outcome (search (OrderSearchCriteria.set_maxTotal (Some 0%Z) OrderSearchCriteria.empty))
      = Done (ledger s).
Proof.
  intros toLowerCase c w s t search. subst search. cbv beta.
  rewrite !searchOrders_filter.
  repeat split; try (f_equal; f_equal; destruct c; reflexivity).
  simpl. f_equal. induction (ledger s) as [|o l IH]; simpl; [done | by rewrite IH].
Qed.

Lemma ledger_set_ordersFile orders s : ledger (set_ordersFile (Parsed orders) s) = orders.
Proof. reflexivity. Qed.

(** C8. For an order id present in the ledger, [updateOrderStatus] returns the
    first order with that id with its status set to the target; the id, the
    timestamp, the customer, product and payment snapshots and the notes of
    that order are the ones it had; [attendedBy] and [attendedTimestamp]
    change only when the status is [completed] and an actor is given; every
    other position of the ledger, and the rest of the store, is unchanged. *)
Theorem C8_updateOrderStatus_changes_only_status :
  forall w s t orderId status (attendedBy : option jsstring),
    (exists o, o ∈ ledger s /\ Order.id o = orderId) ->
    let r := updateOrderStatus orderId status attendedBy w s t in
    exists i before after,
      ledger s !! i = Some before
      /\ Order.id before = orderId
      /\ outcome r = Done (Some after)
      /\ sameSnapshots before after
      /\ Order.status after = status
      /\ (if bool_decide (status = Status.completed) && truthy attendedBy
          then Order.attendedBy after = attendedBy
               /\ Order.attendedTimestamp after = Some (now w)
          else Order.attendedBy after = Order.attendedBy before
               /\ Order.attendedTimestamp after = Order.attendedTimestamp before)
      /\ ledger (store r)
         = (if rejects w (length t) then ledger s else <[i := after]> (ledger s))
      /\ (forall j, j ≠ i -> ledger (store r) !! j = ledger s !! j)
      /\ length (ledger (store r)) = length (ledger s)
      /\ set_ordersFile (ordersFile s) (store r) = s.
Proof.
  intros w s t orderId status attendedBy [o [Hin Hid]] r. subst r.
  unfold updateOrderStatus, bind. rewrite loadOrders_ledger. cbn [outcome store trace].
  destruct (list_find (fun order => Order.id order = orderId) (ledger s))
    as [[i before]|] eqn:Hfind.
  2:{ apply list_find_None in Hfind. rewrite Forall_forall in Hfind.
      exfalso. by apply (Hfind o). }
  apply list_find_Some in Hfind as (Hi & Hbefore & _).
  set (after := match attendedBy with
                | Some who =>
                    if bool_decide (status = Status.completed) && truthy who
                    then Order.set_attended who (now w) (Order.set_status status before)
                    else Order.set_status status before
                | None => Order.set_status status before
                end).
  exists i, before, after.
  assert (Hsnap : sameSnapshots before after).
  { subst after. destruct attendedBy as [who|]; [|by repeat split].
    destruct (bool_decide (status = Status.completed) && truthy who); by repeat split. }
  assert (Hstatus : Order.status after = status).
  { subst after. destruct attendedBy as [who|]; [|done].
    by destruct (bool_decide (status = Status.completed) && truthy who). }
  assert (Hatt : if bool_decide (status = Status.completed) && truthy attendedBy
          then Order.attendedBy after = attendedBy
               /\ Order.attendedTimestamp after = Some (now w)
          else Order.attendedBy after = Order.attendedBy before
               /\ Order.attendedTimestamp after = Order.attendedTimestamp before).
  { subst after. destruct attendedBy as [who|]; simpl.
    - change (truthy (Some who)) with (truthy who).
      by destruct (bool_decide (status = Status.completed) && truthy who).
    - by rewrite andb_false_r. }
  unfold ask. cbn [outcome store trace]. fold after.
  rewrite saveOrders_result.
  destruct (rejects w (length t)); cbn [outcome store trace];
    unfold when, note, ret; destruct (io w); cbn [outcome store trace];
    rewrite ?ledger_set_ordersFile;
    (split_and!;
     first [ done | apply Hsnap | by destruct s | by rewrite length_insert
           | intros j Hj; by rewrite list_lookup_insert_ne ]).
Qed.

(** ** The session store *)

(** C6. [loadSessions] has no [try]: on a [sessions.json] that does not parse
    it throws, and so does its caller [checkExpiredSessions]; a first message
    of a customer then ends in the same exception, with nothing sent.  The
    ledger's [loadOrders] reads an unparsable file as the empty list. *)
Theorem C6_loadSessions_throws_on_unparsable_file :
  forall w s,
    let broken := set_sessionsFile Unparsable s in
    outcome (run loadSessions w broken) = Thrown
    /\ (forall limit, outcome (run (checkExpiredSessions limit) w broken) = Thrown)
    /\ outcome (handle w (says ana (js "hola")) (set_sessionsFile Unparsable initialStore))
       = Thrown
    /\ trace (handle w (says ana (js "hola")) (set_sessionsFile Unparsable initialStore))
       = [(LogStage ana StageType.new, true)]
    /\ outcome (run loadOrders w (set_ordersFile Unparsable s)) = Done [].
Proof.
  intros w s broken. subst broken. split_and!.
  - unfold run. by rewrite loadSessions_result.
  - intros limit. unfold run, checkExpiredSessions, bind. by rewrite loadSessions_result.
  - reflexivity.
  - reflexivity.
  - unfold run. by rewrite loadOrders_ledger.
Qed.

(** The loop of the sweep never throws, leaves the store alone and returns the
    expired senders in the order of the entries. *)
Lemma bind_try_perform {B} e (k : unit -> M B) w s t :
  (x <- tryCatch (perform e) (ret tt) ;; k x) w s t
  = k tt w s (t ++ [(e, negb (rejects w (length t)))]).
Proof. unfold bind, tryCatch, perform, ret. by destruct (rejects w (length t)). Qed.

Lemma sweep_result limit entries w s t :
  outcome (sweep limit entries w s t)
  = Done (map fst (List.filter (fun e => expired limit (now w) (snd e)) entries))
  /\ store (sweep limit entries w s t) = s.
Proof.
  revert t. induction entries as [|[jid userData] rest IH]; intros t; [done|].
  cbn [sweep List.filter snd]. rewrite bind_ask.
  destruct (expired limit (now w) userData); [|apply IH].
  unfold sendMessage. rewrite bind_try_perform.
  unfold bind.
  match goal with |- context [sweep limit rest w s ?t'] =>
    destruct (IH t') as [E1 E2]; rewrite E1, E2 end.
  done.
Qed.

Lemma sweep_quiet limit entries w s t :
  Forall (fun e => expired limit (now w) (snd e) = false) entries ->
  sweep limit entries w s t = mkResult (Done []) s t.
Proof.
  induction 1 as [|[jid userData] rest Hx _ IH]; [done|].
  cbn [sweep]. rewrite bind_ask. simpl in Hx. by rewrite Hx.
Qed.

Lemma expiredSenders_spec limit now m jid :
  jid ∈ expiredSenders limit now m
  <-> exists lastTime, m !! jid = Some lastTime /\ expired limit now lastTime = true.
Proof.
  unfold expiredSenders. rewrite list_elem_of_In, in_map_iff. split.
  - intros [[j v] [<- [Hin Hexp]%filter_In]]. exists v. split; [|done].
    by apply elem_of_map_to_list, list_elem_of_In.
  - intros [v [Hm Hexp]]. exists (jid, v). split; [done|].
    apply filter_In. split; [|done]. by apply list_elem_of_In, elem_of_map_to_list.
Qed.

Lemma expiredSenders_NoDup limit now m : NoDup (expiredSenders limit now m).
Proof.
  unfold expiredSenders.
  pose proof (NoDup_fst_map_to_list m) as Hnd.
  induction (map_to_list m) as [|[j v] l IH]; [constructor|].
  simpl in Hnd. apply NoDup_cons in Hnd as [Hj Hl]. cbn [List.filter snd].
  destruct (expired limit now v); [|by apply IH].
  cbn [map fst]. apply NoDup_cons. split; [|by apply IH].
  intros Hin. apply Hj. apply list_elem_of_In, in_map_iff in Hin as [[j' v'] [Heq [Hin _]%filter_In]].
  simpl in Heq. subst j'. apply list_elem_of_In, in_map_iff. by exists (j, v').
Qed.

(** Once the expired senders are deleted, none of the remaining is expired. *)
Lemma expiredSenders_swept limit now m :
  expiredSenders limit now (foldr delete m (expiredSenders limit now m)) = [].
Proof.
  set (ev := expiredSenders limit now m).
  unfold expiredSenders at 1.
  assert (H : Forall (fun e => expired limit now (snd e) = false)
                (map_to_list (foldr delete m ev))).
  { apply Forall_forall. intros [j v] Hin%elem_of_map_to_list.
    apply lookup_foldr_delete_Some in Hin as [Hj Hm]. simpl.
    destruct (expired limit now v) eqn:E; [|done].
    exfalso. apply Hj. apply expiredSenders_spec. by exists v. }
  induction H as [|e l He _ IH]; [done|]. cbn [List.filter]. by rewrite He.
Qed.

Lemma bind_sweep {B} limit entries (k : list jsstring -> M B) w s t :
  (x <- sweep limit entries ;; k x) w s t
  = k (map fst (List.filter (fun e => expired limit (now w) (snd e)) entries)) w s
      (trace (sweep limit entries w s t)).
Proof.
  unfold bind. destruct (sweep_result limit entries w s t) as [E1 E2]. by rewrite E1, E2.
Qed.

(** What one sweep returns and leaves behind. *)
Lemma checkExpiredSessions_result limit w s t :
  checkExpiredSessions limit w s t
  = match sessionsFile s with
    | Unparsable => mkResult Thrown s t
    | _ =>
        let ev := expiredSenders limit (now w) (known s) in
        let t' := trace (sweep limit (map_to_list (known s)) w
                           (set_sessions (fun _ => known s) s) t) in
        let swept := set_sessions (fun _ => foldr delete (known s) ev) s in
        match ev with
        | [] => mkResult (Done []) swept t'
        | _ :: _ =>
            if rejects w (length t')
            then mkResult Thrown swept (t' ++ [(WriteSessions, false)])
            else mkResult (Done ev) (set_sessionsFile (Parsed (foldr delete (known s) ev)) swept)
                   (t' ++ [(WriteSessions, true)])
        end
    end.
Proof.
  unfold checkExpiredSessions. unfold bind at 1. rewrite loadSessions_result.
  destruct (sessionsFile s) eqn:Hfile; [|done|]; cbn [outcome store trace].
  all: rewrite bind_get, bind_sweep, bind_modify.
  all: cbn [sessions set_sessions].
  all: fold (expiredSenders limit (now w) (known s)).
  all: cbv zeta.
  all: destruct (expiredSenders limit (now w) (known s)) as [|jid ev] eqn:Hev.
  all: rewrite ?(bool_decide_false (0 < length [])) by (simpl; lia).
  all: rewrite ?(bool_decide_true (0 < length (_ :: _))) by (simpl; lia).
  all: cbn [when].
  all: try (rewrite bind_ret; unfold ret; f_equal; by destruct s).
  all: unfold saveSessions; rewrite bind_assoc, bind_perform.
  all: match goal with |- context [rejects ?w' ?n] => destruct (rejects w' n) end.
  all: try (f_equal; by destruct s).
  all: rewrite bind_modify, bind_ret; unfold ret; f_equal; by destruct s.
Qed.

Lemma expiredSenders_nil_Forall limit now m :
  expiredSenders limit now m = [] ->
  Forall (fun e => expired limit now (snd e) = false) (map_to_list m).
Proof.
  unfold expiredSenders. induction (map_to_list m) as [|[j v] l IH]; [constructor|].
  cbn [List.filter snd]. destruct (expired limit now v) eqn:E; [done|].
  intros H. constructor; [done | by apply IH].
Qed.

(** A sweep that finds nobody expired does nothing at all. *)
Lemma checkExpiredSessions_quiet limit w s t :
  sessionsFile s ≠ Unparsable ->
  sessions s = known s ->
  expiredSenders limit (now w) (known s) = [] ->
  checkExpiredSessions limit w s t = mkResult (Done []) s t.
Proof.
  intros Hfile Hknown Hev. rewrite checkExpiredSessions_result.
  rewrite (sweep_quiet limit _ w _ t) by by apply expiredSenders_nil_Forall.
  rewrite Hev. cbn [foldr trace]. rewrite <- Hknown.
  destruct s as [? ? ? ? ? ? ? [| |m] ?]; done.
Qed.

(** For a session store and a fixed time, if a sweep completes, then it
    evicted exactly the senders idle for longer than the timeout, each once,
    and a second sweep at the same time completes, evicts nobody, sends
    nothing and leaves the store as the first sweep left it.  A sweep that
    does not complete is the matter of the theorem on the failed write
    below. *)
Lemma sweep_is_idempotent_once_it_completes :
  forall limit w1 w2 s evicted,
    now w2 = now w1 ->
    outcome (run (checkExpiredSessions limit) w1 s) = Done evicted ->
    let s1 := store (run (checkExpiredSessions limit) w1 s) in
    let r2 := run (checkExpiredSessions limit) w2 s1 in
    NoDup evicted
    /\ (forall jid, jid ∈ evicted
          <-> exists lastTime, known s !! jid = Some lastTime
                               /\ expired limit (now w1) lastTime = true)
    /\ (forall jid, sessions s1 !! jid
                    = if decide (jid ∈ evicted) then None else known s !! jid)
    /\ outcome r2 = Done []
    /\ store r2 = s1
    /\ trace r2 = [].
Proof.
  intros limit w1 w2 s evicted Hnow Hdone s1 r2. subst r2 s1. unfold run in *.
  assert (Hev : evicted = expiredSenders limit (now w1) (known s)).
  { rewrite checkExpiredSessions_result in Hdone.
    destruct (sessionsFile s); [|done|]; cbv zeta in Hdone;
      destruct (expiredSenders limit (now w1) (known s)); cbn [outcome] in Hdone;
      try (destruct (rejects w1 _)); cbn [outcome] in Hdone; congruence. }
  assert (Hs1 : let s1 := store (checkExpiredSessions limit w1 s []) in
                sessionsFile s1 ≠ Unparsable
                /\ sessions s1 = foldr delete (known s) evicted
                /\ known s1 = foldr delete (known s) evicted).
  { rewrite checkExpiredSessions_result in Hdone |- *. rewrite <- Hev in *.
    destruct s as [? ? ? ? ? ? ss [| |m] ?]; [|done|]; cbv zeta in *;
      destruct evicted as [|jid ev]; cbn [outcome store] in *;
      try (destruct (rejects w1 _)); cbn [outcome store] in *; try done. }
  destruct Hs1 as (Hfile1 & Hsess1 & Hknown1).
  split_and!.
  - subst evicted. apply expiredSenders_NoDup.
  - intros jid. subst evicted. apply expiredSenders_spec.
  - intros jid. rewrite Hsess1. destruct (decide (jid ∈ evicted)).
    + by apply lookup_foldr_delete.
    + by apply lookup_foldr_delete_not_elem_of.
  - rewrite checkExpiredSessions_quiet; [done|done|congruence|].
    rewrite Hknown1, Hnow, Hev. apply expiredSenders_swept.
  - rewrite checkExpiredSessions_quiet; [done|done|congruence|].
    rewrite Hknown1, Hnow, Hev. apply expiredSenders_swept.
  - rewrite checkExpiredSessions_quiet; [done|done|congruence|].
    rewrite Hknown1, Hnow, Hev. apply expiredSenders_swept.
Qed.

(** ** The catalogue lookup *)

Lemma find_first {A} (f : A -> bool) (l : list A) :
  match List.find f l with
  | Some x => exists before after,
      l = before ++ x :: after /\ f x = true /\ Forall (fun y => f y = false) before
  | None => Forall (fun y => f y = false) l
  end.
Proof.
  induction l as [|a l IH]; cbn [List.find]; [constructor|].
  destruct (f a) eqn:E.
  - exists [], l. by repeat split.
  - destruct (List.find f l) as [x|].
    + destruct IH as (before & after & -> & Hx & Hb).
      exists (a :: before), after. repeat split; [done|]. by constructor.
    + by constructor.
Qed.

Lemma find_pointwise {A} (f g : A -> bool) (l : list A) :
  (forall x, f x = g x) -> List.find f l = List.find g l.
Proof. intros E. induction l as [|a l IH]; cbn [List.find]; [done|]. by rewrite E, IH. Qed.

(** C5.  The lookup normalises the query and the three
    fields (lower case, NFD, combining marks removed) and returns the first
    product of the catalogue, in catalogue order, one of whose name,
    description or identifier contains the query; the order in which the
    three fields are tested does not change the product returned. *)
Theorem C5_lookup_returns_first_product_matching_any_field :
  forall toLowerCase normalizeNFD query (data : list ProductData.t),
    let norm := normalizeText toLowerCase normalizeNFD in
    let hit (item : ProductData.t) :=
      JsString.includes (norm (String_ id (ProductData.Nombre item))) (norm query)
      || JsString.includes (norm (String_ id (ProductData.Descripcion item))) (norm query)
      || JsString.includes (norm (String_ stringOfId (ProductData.ID item))) (norm query) in
    let hit' (item : ProductData.t) :=
      JsString.includes (norm (String_ stringOfId (ProductData.ID item))) (norm query)
      || JsString.includes (norm (String_ id (ProductData.Descripcion item))) (norm query)
      || JsString.includes (norm (String_ id (ProductData.Nombre item))) (norm query) in
    match catalogueLookup toLowerCase normalizeNFD query data with
    | Some p => exists before after,
        data = before ++ p :: after
        /\ hit p = true
        /\ Forall (fun item => hit item = false) before
    | None => Forall (fun item => hit item = false) data
    end
    /\ catalogueLookup toLowerCase normalizeNFD query data = List.find hit' data.
Proof.
  intros toLowerCase normalizeNFD query data norm hit hit'. split.
  - apply (find_first hit data).
  - unfold catalogueLookup, findProduct. apply find_pointwise. intros item.
    unfold matchesQuery, hit'. fold norm.
    destruct (JsString.includes (norm (String_ id (ProductData.Nombre item))) _),
      (JsString.includes (norm (String_ id (ProductData.Descripcion item))) _),
      (JsString.includes (norm (String_ stringOfId (ProductData.ID item))) _); reflexivity.
Qed.

(** C5 with the fields ranked fails: a query that is in the description of the
    first product and is the name of the second returns the first product,
    where a ranking of the fields would return the second. *)
Lemma C5_field_priority_does_not_decide :
  catalogueLookup toLowerCaseLatin1 normalizeNFDLatin1 (js "gorra") smallCatalogue = Some shirt
  /\ findByFieldPriority toLowerCaseLatin1 normalizeNFDLatin1 (js "gorra") smallCatalogue = Some cap
  /\ catalogueLookup toLowerCaseLatin1 normalizeNFDLatin1 (js "gorra") smallCatalogue
     <> findByFieldPriority toLowerCaseLatin1 normalizeNFDLatin1 (js "gorra") smallCatalogue.
Proof. vm_compute. repeat split; discriminate. Qed.

(** ** The conversation engine *)

(** What a run of [collectCity] whose quote request rejects leaves. *)
Lemma collectCity_quote_fails sender message f w s t :
  quote w = None ->
  let f1 := FormState.set_city (typedText (Message.content message)) f in
  let t1 := t ++ [(PostCalculate (FormState.address f) (FormState.barrio f)
                     (Some (typedText (Message.content message))), false)] in
  collectCity sender message f w s t
  = mkResult (if rejects w (length t1) then Thrown else Done tt)
      (set_awaitingConfirmation <[sender := Form f1]> s)
      (t1 ++ [(SendMessage sender QuoteError, negb (rejects w (length t1)))]).
Proof.
  intros Hq f1 t1. unfold collectCity, setForm.
  rewrite bind_eq. settle. rewrite try_bind, postCalculate_eq, Hq. settle.
  fold f1. cbn [FormState.address FormState.barrio FormState.city FormState.set_city f1].
  fold t1. exec; reflexivity.
Qed.

Lemma setForm_twice sender f g s :
  set_awaitingConfirmation <[sender := Form g]> (set_awaitingConfirmation <[sender := Form f]> s)
  = set_awaitingConfirmation <[sender := Form g]> s.
Proof. unfold set_awaitingConfirmation; cbn. by rewrite insert_insert_eq. Qed.

(** Every run of [collectCity]: the request goes out first, with the address
    and the neighbourhood the form holds and the city just typed; the entry
    of the sender stays a form with the earlier fields; the stage moves to
    [finalConfirmation] when the quote, the map download and the map message
    all went through, and stays where it was otherwise. *)
Lemma collectCity_run sender message f w s t :
  let typed := typedText (Message.content message) in
  let r := collectCity sender message f w s t in
  exists f' rest,
    store r = set_awaitingConfirmation <[sender := Form f']> s
    /\ trace r = t ++ (PostCalculate (FormState.address f) (FormState.barrio f) (Some typed),
                       bool_decide (is_Some (quote w))) :: rest
    /\ outcome r <> OutOfFuel
    /\ FormState.name f' = FormState.name f
    /\ FormState.idNumber f' = FormState.idNumber f
    /\ FormState.barrio f' = FormState.barrio f
    /\ FormState.address f' = FormState.address f
    /\ FormState.city f' = Some typed
    /\ Forall (fun e => fst e <> SendMessage sender AskBarrio
                        /\ fst e <> SendMessage sender AskAddress) rest
    /\ match quote w with
       | None =>
           FormState.stage f' = FormState.stage f
           /\ FormState.deliveryCost f' = FormState.deliveryCost f
           /\ FormState.mapImagePath f' = FormState.mapImagePath f
           /\ rest = [(SendMessage sender QuoteError, negb (rejects w (S (length t))))]
       | Some reply =>
           FormState.deliveryCost f' = Some (QuoteReply.costo reply)
           /\ FormState.mapImagePath f' = Some (QuoteReply.imagen reply)
           /\ FormState.stage f'
              = if rejects w (S (length t)) || rejects w (S (S (length t)))
                then FormState.stage f else finalConfirmation
       end.
Proof.
  intros typed r. subst r. unfold collectCity, setForm.
  rewrite bind_eq. settle. rewrite try_bind, postCalculate_eq.
  cbn [FormState.address FormState.barrio FormState.city FormState.set_city].
  fold typed. unfold sendMessage.
  destruct (quote w) as [reply|] eqn:Hq; settle.
  2:{ rewrite !perform_eq, !length_app; cbn [length]. rewrite Nat.add_1_r.
      destruct (rejects w (S (length t))); settle; rewrite <- app_assoc;
        exists (FormState.set_city typed f); eexists; split_and!; try done;
        repeat (constructor; [split; discriminate|]); constructor. }
  rewrite try_bind. settle. rewrite setForm_twice.
  rewrite try_bind, perform_eq, !length_app; cbn [length]. rewrite Nat.add_1_r.
  destruct (rejects w (S (length t))) eqn:R1; settle.
  { rewrite perform_eq. case_rejects; settle;
      eexists (FormState.set_quote _ _ (FormState.set_city typed f)), _;
      rewrite <- !app_assoc; cbn [app]; split_and!; try done;
      repeat (constructor; [split; discriminate|]); constructor. }
  rewrite try_bind, perform_eq, !length_app; cbn [length]. rewrite !Nat.add_1_r.
  destruct (rejects w (S (S (length t)))) eqn:R2; settle.
  { rewrite perform_eq. case_rejects; settle;
      eexists (FormState.set_quote _ _ (FormState.set_city typed f)), _;
      rewrite <- !app_assoc; cbn [app]; split_and!; try done;
      repeat (constructor; [split; discriminate|]); constructor. }
  rewrite try_bind. settle. rewrite setForm_twice.
  rewrite try_bind. settle. rewrite try_eq, perform_eq.
  case_rejects; settle; rewrite ?perform_eq;
    try case_rejects; settle;
    eexists (FormState.set_stage finalConfirmation
               (FormState.set_quote _ _ (FormState.set_city typed f))), _;
    rewrite <- !app_assoc; cbn [app]; split_and!; try done;
    repeat (constructor; [split; discriminate|]); constructor.
Qed.

(** One call of the handler: the stage is resolved and logged, then the
    branch of that stage runs. *)
Lemma MessageHandler_eq toLowerCase normalizeNFD fuel message w s t :
  MessageHandler toLowerCase normalizeNFD (S fuel) message w s t
  = if Message.fromMe message then mkResult (Done tt) s t
    else
      let sender := Message.remoteJid message in
      let t' := t ++ [(LogStage sender (resolveStage s sender), true)] in
      match resolveStage s sender with
      | StageType.confirmation => confirmationStage sender message w s t'
      | StageType.product => productStage toLowerCase normalizeNFD sender message w s t'
      | StageType.payment => paymentStage sender message w s t'
      | StageType.new =>
          newStage (MessageHandler toLowerCase normalizeNFD fuel) sender message w s t'
      end.
Proof.
  cbn [MessageHandler]. destruct (Message.fromMe message); [done|].
  rewrite bind_get, bind_note. by destruct (resolveStage s (Message.remoteJid message)).
Qed.

Lemma resolveStage_form s sender f :
  awaitingConfirmation s !! sender = Some (Form f) ->
  resolveStage s sender = StageType.confirmation.
Proof. intros H. unfold resolveStage. by rewrite H. Qed.

Lemma handler_on_form toLowerCase normalizeNFD fuel message w s t f :
  Message.fromMe message = false ->
  awaitingConfirmation s !! Message.remoteJid message = Some (Form f) ->
  MessageHandler toLowerCase normalizeNFD (S fuel) message w s t
  = fillForm (Message.remoteJid message) message f w s
      (t ++ [(LogStage (Message.remoteJid message) StageType.confirmation, true)]).
Proof.
  intros Hme Hf. rewrite MessageHandler_eq, Hme. cbv zeta.
  rewrite (resolveStage_form _ _ _ Hf). unfold confirmationStage.
  by rewrite bind_get, Hf.
Qed.

(** C2. A sender at [addressCity] whose delivery quote fails stays at
    [addressCity]: the name, the id number, the neighbourhood and the address
    of the form are the ones it held, only the city is the one just typed,
    and nothing else in the store changes; the sender is told of the error.
    The next message of that sender is read as the city again and the quote
    is requested with the address and the neighbourhood kept and the new
    city, and neither the neighbourhood nor the address is asked for; the
    form keeps the four earlier fields, and moves to
    [finalConfirmation] with the quoted cost when the quote, the map download
    and the map message go through. *)
Theorem C2_failed_quote_keeps_the_stage_and_the_form :
  forall toLowerCase normalizeNFD fuel fuel' w w' s (message again : Message.t) f,
    Message.fromMe message = false ->
    Message.fromMe again = false ->
    Message.remoteJid again = Message.remoteJid message ->
    awaitingConfirmation s !! Message.remoteJid message = Some (Form f) ->
    FormState.stage f = addressCity ->
    quote w = None ->
    let sender := Message.remoteJid message in
    let r := run (MessageHandler toLowerCase normalizeNFD (S fuel) message) w s in
    let r' := run (MessageHandler toLowerCase normalizeNFD (S fuel') again) w' (store r) in
    let f1 := FormState.set_city (typedText (Message.content message)) f in
    store r = set_awaitingConfirmation <[sender := Form f1]> s
    /\ FormState.stage f1 = addressCity
    /\ FormState.name f1 = FormState.name f
    /\ FormState.idNumber f1 = FormState.idNumber f
    /\ FormState.barrio f1 = FormState.barrio f
    /\ FormState.address f1 = FormState.address f
    /\ trace r = [(LogStage sender StageType.confirmation, true);
                  (PostCalculate (FormState.address f) (FormState.barrio f)
                     (Some (typedText (Message.content message))), false);
                  (SendMessage sender QuoteError, negb (rejects w 2))]
    /\ exists f2 rest,
         awaitingConfirmation (store r') !! sender = Some (Form f2)
         /\ trace r' = (LogStage sender StageType.confirmation, true)
                       :: (PostCalculate (FormState.address f) (FormState.barrio f)
                             (Some (typedText (Message.content again))),
                           bool_decide (is_Some (quote w')))
                       :: rest
         /\ Forall (fun e => fst e <> SendMessage sender AskBarrio
                             /\ fst e <> SendMessage sender AskAddress) rest
         /\ FormState.name f2 = FormState.name f
         /\ FormState.idNumber f2 = FormState.idNumber f
         /\ FormState.barrio f2 = FormState.barrio f
         /\ FormState.address f2 = FormState.address f
         /\ FormState.city f2 = Some (typedText (Message.content again))
         /\ match quote w' with
            | None => FormState.stage f2 = addressCity
            | Some reply =>
                FormState.deliveryCost f2 = Some (QuoteReply.costo reply)
                /\ FormState.stage f2
                   = if rejects w' 2 || rejects w' 3 then addressCity else finalConfirmation
            end.
Proof.
  intros toLowerCase normalizeNFD fuel fuel' w w' s message again f
    Hme Hme' Hsame Hf Hstage Hq sender r r' f1.
  assert (Hr : r = mkResult (if rejects w 2 then Thrown else Done tt)
                 (set_awaitingConfirmation <[sender := Form f1]> s)
                 [(LogStage sender StageType.confirmation, true);
                  (PostCalculate (FormState.address f) (FormState.barrio f)
                     (Some (typedText (Message.content message))), false);
                  (SendMessage sender QuoteError, negb (rejects w 2))]).
  { subst r. unfold run. rewrite (handler_on_form _ _ _ _ _ _ _ f Hme Hf).
    unfold fillForm. rewrite Hstage.
    by rewrite (collectCity_quote_fails _ _ _ _ _ _ Hq). }
  split_and!; try (rewrite Hr; reflexivity); try done.
  subst r'. rewrite Hr. cbn [store]. unfold run.
  assert (Hf1 : awaitingConfirmation (set_awaitingConfirmation <[sender := Form f1]> s)
                !! Message.remoteJid again = Some (Form f1)).
  { rewrite Hsame. cbn. by rewrite lookup_insert_eq. }
  rewrite (handler_on_form _ _ _ _ _ _ _ f1 Hme' Hf1).
  unfold fillForm. cbn [f1 FormState.stage FormState.set_city]. rewrite Hstage.
  destruct (collectCity_run (Message.remoteJid again) again f1 w'
              (set_awaitingConfirmation <[sender := Form f1]> s)
              ([] ++ [(LogStage (Message.remoteJid again) StageType.confirmation, true)]))
    as (f2 & rest & Hstore & Htrace & _ & Hname & Hid & Hbarrio & Haddr & Hcity
        & Hquiet & Hquote).
  exists f2, rest. rewrite Hstore, Htrace, Hsame. rewrite Hsame in Hquiet. fold sender.
  split_and!; try done.
  - cbn. by rewrite lookup_insert_eq.
  - assert (Hs1 : FormState.stage f1 = addressCity) by done.
    cbn [length app] in Hquote. rewrite Hs1 in Hquote.
    destruct (quote w') as [reply|].
    + by destruct Hquote as (Hcost & _ & Hst).
    + by destruct Hquote as (Hst & _).
Qed.

Lemma handler_on_flag toLowerCase normalizeNFD fuel message w s t :
  Message.fromMe message = false ->
  awaitingConfirmation s !! Message.remoteJid message = Some (Flag true) ->
  MessageHandler toLowerCase normalizeNFD (S fuel) message w s t
  = confirmProduct (Message.remoteJid message) message w s
      (t ++ [(LogStage (Message.remoteJid message) StageType.confirmation, true)]).
Proof.
  intros Hme Hf. rewrite MessageHandler_eq, Hme. cbv zeta.
  unfold resolveStage. rewrite Hf. cbn [truthy truthy_option truthy_awaiting].
  unfold confirmationStage. by rewrite bind_get, Hf.
Qed.

Lemma isSi_spec content :
  isSi content = true
  <-> content ∈ [Some (js "si"); Some (js "Si"); Some (js "SI"); Some (js "sI")].
Proof.
  unfold isSi. rewrite !orb_true_iff, !bool_decide_eq_true, !elem_of_cons, elem_of_nil. tauto.
Qed.

Lemma isNo_spec content :
  isNo content = true
  <-> content ∈ [Some (js "no"); Some (js "No"); Some (js "NO"); Some (js "nO")].
Proof.
  unfold isNo. rewrite !orb_true_iff, !bool_decide_eq_true, !elem_of_cons, elem_of_nil. tauto.
Qed.

Lemma answer_yes content :
  answer content = Yes
  <-> content ∈ [Some (js "si"); Some (js "Si"); Some (js "SI"); Some (js "sI")].
Proof.
  rewrite <- isSi_spec. unfold answer.
  destruct (isSi content); [done|]. destruct (isNo content); split; discriminate.
Qed.

Lemma answer_no content :
  answer content = No
  <-> content ∈ [Some (js "no"); Some (js "No"); Some (js "NO"); Some (js "nO")].
Proof.
  split.
  - unfold answer. destruct (isSi content); [discriminate|].
    destruct (isNo content) eqn:E; [|discriminate]. intros _. by apply isNo_spec.
  - rewrite !elem_of_cons, elem_of_nil. intros [->|[->|[->|[->|[]]]]]; reflexivity.
Qed.

Lemma store_perform e w s t : store (perform e w s t) = s.
Proof. rewrite perform_eq. by destruct (rejects w (length t)). Qed.

Lemma trace_perform e w s t :
  trace (perform e w s t) = t ++ [(e, negb (rejects w (length t)))].
Proof. rewrite perform_eq. by destruct (rejects w (length t)). Qed.

(** The three confirmation points, answer by answer. *)
Lemma confirmProduct_eq sender message w s t :
  confirmProduct sender message w s t
  = match answer (Message.content message) with
    | Yes => perform (SendMessage sender AskName) w
               (set_awaitingConfirmation <[sender := Form FormState.initial]> s) t
    | No => perform (SendMessage sender WhichProductFromCatalogue) w
              (set_awaitingConfirmation (delete sender)
                 (set_awaitingProduct <[sender := true]> s)) t
    | Other => perform (SendMessage sender OnlySiNoTryAgain) w s t
    end.
Proof.
  unfold confirmProduct, answer.
  destruct (isSi (Message.content message)); [done|].
  by destruct (isNo (Message.content message)).
Qed.

Lemma confirmBasics_eq sender message f w s t :
  FormState.stage f = basicConfirmation ->
  fillForm sender message f w s t
  = match answer (Message.content message) with
    | Yes => perform (SendMessage sender AskBarrio) w
               (set_awaitingConfirmation
                  <[sender := Form (FormState.set_stage addressBarrio f)]> s) t
    | No => perform (SendMessage sender RestartAskName) w
              (set_awaitingConfirmation
                 <[sender := Form (FormState.set_stage basicName f)]> s) t
    | Other => perform (SendMessage sender OnlySiNo) w s t
    end.
Proof.
  intros Hstage. unfold fillForm, answer. rewrite Hstage.
  destruct (isSi (Message.content message)); [done|].
  by destruct (isNo (Message.content message)).
Qed.

Lemma confirmFinal_eq sender message f w s t :
  confirmFinal sender message f w s t
  = match answer (Message.content message) with
    | Yes =>
        let s1 := set_formData <[sender := formDataOf f]> s in
        let price := priceOf (selectedProduct s !! sender) in
        let delivery :=
          if truthy (FormState.deliveryCost f) then FormState.deliveryCost f else None in
        let total := quotedTotal price (default 0%Z (FormState.deliveryCost f)) in
        if rejects w (length t) then mkResult Thrown s1 (t ++ [(ReadQr, false)])
        else if rejects w (S (length t)) then
          mkResult Thrown s1
            (t ++ [(ReadQr, true);
                   (SendMessage sender (PaymentInstructions price delivery total), false)])
        else
          mkResult (Done tt)
            (set_awaitingConfirmation (delete sender)
               (set_awaitingPayment <[sender := true]> s1))
            (t ++ [(ReadQr, true);
                   (SendMessage sender (PaymentInstructions price delivery total), true)])
    | No => perform (SendMessage sender TryAgainWhichProduct) w
              (set_awaitingProduct <[sender := true]>
                 (set_formData (delete sender)
                    (set_selectedProduct (delete sender)
                       (set_awaitingConfirmation (delete sender) s)))) t
    | Other => perform (SendMessage sender OnlySiNo) w s t
    end.
Proof.
  unfold confirmFinal, answer.
  destruct (isSi (Message.content message)).
  - rewrite bind_modify, bind_get. fold (formDataOf f). cbv zeta.
    cbn [selectedProduct set_formData].
    rewrite bind_perform. destruct (rejects w (length t)); [done|].
    unfold sendMessage. rewrite bind_perform, length_app. cbn [length].
    rewrite Nat.add_1_r. destruct (rejects w (S (length t))); rewrite <- app_assoc; done.
  - by destruct (isNo (Message.content message)).
Qed.

(** C4.  At each of the three confirmation points the
    text of the message is compared as it is, neither trimmed nor normalised,
    with [si], [Si], [SI], [sI] and with [no], [No], [NO], [nO].  One of the
    first four takes the yes transition (at [finalConfirmation] once the QR
    image is read and the payment instructions are sent), one of the last
    four takes the no transition, and any other text changes nothing in the
    store and is answered with the prompt to reply si or no. *)
Theorem C4_confirmation_compares_the_text_as_typed :
  forall toLowerCase normalizeNFD fuel w s (message : Message.t) v,
    Message.fromMe message = false ->
    awaitingConfirmation s !! Message.remoteJid message = Some v ->
    confirmationPoint v = true ->
    let sender := Message.remoteJid message in
    let content := Message.content message in
    let r := run (MessageHandler toLowerCase normalizeNFD (S fuel) message) w s in
    (answer content = Yes
       <-> content ∈ [Some (js "si"); Some (js "Si"); Some (js "SI"); Some (js "sI")])
    /\ (answer content = No
       <-> content ∈ [Some (js "no"); Some (js "No"); Some (js "NO"); Some (js "nO")])
    /\ match answer content, v with
       | Other, _ =>
           store r = s
           /\ trace r = [(LogStage sender StageType.confirmation, true);
                         (SendMessage sender
                            match v with Flag _ => OnlySiNoTryAgain | Form _ => OnlySiNo end,
                          negb (rejects w 1))]
       | Yes, Flag _ =>
           store r = set_awaitingConfirmation <[sender := Form FormState.initial]> s
       | No, Flag _ =>
           store r = set_awaitingConfirmation (delete sender)
                       (set_awaitingProduct <[sender := true]> s)
       | Yes, Form f =>
           if bool_decide (FormState.stage f = basicConfirmation) then
             store r = set_awaitingConfirmation
                         <[sender := Form (FormState.set_stage addressBarrio f)]> s
           else if rejects w 1 || rejects w 2 then
             store r = set_formData <[sender := formDataOf f]> s
           else
             store r = set_awaitingConfirmation (delete sender)
                         (set_awaitingPayment <[sender := true]>
                            (set_formData <[sender := formDataOf f]> s))
       | No, Form f =>
           if bool_decide (FormState.stage f = basicConfirmation) then
             store r = set_awaitingConfirmation
                         <[sender := Form (FormState.set_stage basicName f)]> s
           else
             store r = set_awaitingProduct <[sender := true]>
                         (set_formData (delete sender)
                            (set_selectedProduct (delete sender)
                               (set_awaitingConfirmation (delete sender) s)))
       end.
Proof.
  intros toLowerCase normalizeNFD fuel w s message v Hme Hv Hpoint sender content r.
  split; [apply answer_yes|]. split; [apply answer_no|].
  subst r. unfold run. destruct v as [b|f].
  - simpl in Hpoint. subst b.
    rewrite (handler_on_flag _ _ _ _ _ _ _ Hme Hv), confirmProduct_eq.
    fold sender content. destruct (answer content);
      rewrite ?store_perform, ?trace_perform; done.
  - rewrite (handler_on_form _ _ _ _ _ _ _ f Hme Hv). fold sender.
    cbn [confirmationPoint] in Hpoint. apply orb_true_iff in Hpoint.
    case_bool_decide as Hbasic.
    + rewrite (confirmBasics_eq _ _ _ _ _ _ Hbasic). fold content.
      destruct (answer content); rewrite ?store_perform, ?trace_perform; done.
    + destruct Hpoint as [Hb|Hfinal%bool_decide_eq_true]; [done|].
      unfold fillForm. rewrite Hfinal, confirmFinal_eq. fold content.
      destruct (answer content); rewrite ?store_perform, ?trace_perform; try done.
      cbv zeta. cbn [app length].
      destruct (rejects w 1); [done|]. by destruct (rejects w 2).
Qed.

(** C4 with the text normalised fails: "sí" is "si" once lower-cased and
    stripped of its accent, yet at the product confirmation it is answered
    with the prompt and changes nothing, where "si" opens the form. *)
Lemma C4_accented_si_is_not_read_as_yes :
  let s := converse calm [says ana (js "hola"); says ana (js "gorra")] initialStore in
  normalizeTextLatin1 siAcute = js "si"
  /\ awaitingConfirmation s !! ana = Some (Flag true)
  /\ answer (Some siAcute) = Other
  /\ store (handle calm (says ana siAcute) s) = s
  /\ trace (handle calm (says ana siAcute) s)
     = [(LogStage ana StageType.confirmation, true);
        (SendMessage ana OnlySiNoTryAgain, true)]
  /\ awaitingConfirmation (store (handle calm (says ana (js "si")) s)) !! ana
     = Some (Form FormState.initial).
Proof. vm_compute. repeat split. Qed.

(** ** The payment snapshot *)

(** The snapshot of line 485 adds up exactly when the product has a price or
    there is no delivery cost. *)
Lemma paymentSnapshot_adds_up productData formDataItem path :
  let p := paymentSnapshot productData formDataItem path in
  Payment.total p = (Payment.productPrice p + Payment.deliveryCost p)%Z
  <-> truthy (ProductData.Precio productData) = true
      \/ orElse (FormDataItem.deliveryCost formDataItem) 0%Z = 0%Z.
Proof.
  unfold paymentSnapshot. cbn [Payment.total Payment.productPrice Payment.deliveryCost].
  unfold fieldOrElse.
  set (delivery := orElse (FormDataItem.deliveryCost formDataItem) 0%Z).
  destruct (ProductData.Precio productData) as [| |precio]; cbn [truthy truthy_field].
  1,2: split; [intros H; right; lia | intros [?|?]; [done|lia]].
  destruct (truthy precio); [split; [by left|done]|].
  split; [intros H; right; lia | intros [?|?]; [done|lia]].
Qed.

(** C1.  A product whose price is empty, ordered to the end with a delivery
    cost of 5000: the customer is told to pay 5000, and the order written to
    the ledger has total 0, product price 0 and delivery cost 5000. *)
Theorem C1_order_total_leaves_out_delivery_when_price_is_empty :
  let beforeYes := converse calm (take 9 orderOfSample) initialStore in
  let s := converse calm orderOfSample initialStore in
  selectedProduct beforeYes !! ana = Some sample
  /\ (SendMessage ana (PaymentInstructions None (Some 5000%Z) 5000%Z), true)
       ∈ trace (handle calm (says ana (js "si")) beforeYes)
  /\ exists order,
       ledger s = [order]
       /\ Order.status order = Status.new
       /\ Payment.total (Order.payment order) = 0%Z
       /\ Payment.productPrice (Order.payment order) = 0%Z
       /\ Payment.deliveryCost (Order.payment order) = 5000%Z
       /\ Payment.total (Order.payment order)
          <> (Payment.productPrice (Order.payment order)
              + Payment.deliveryCost (Order.payment order))%Z.
Proof.
  vm_compute. split; [done|]. split.
  - apply list_elem_of_In. simpl. tauto.
  - eexists. repeat split. discriminate.
Qed.

(** ** Single-pass dispatch *)

Lemma plain_ret {A} (a : A) : plain (ret a).
Proof. by intros w s t. Qed.
Lemma plain_get : plain get.
Proof. by intros w s t. Qed.
Lemma plain_ask : plain ask.
Proof. by intros w s t. Qed.
Lemma plain_modify f : plain (modify f).
Proof. by intros w s t. Qed.
Lemma plain_throw {A} : plain (@throw A).
Proof. by intros w s t. Qed.

Lemma invocations_snoc t e ok :
  isLogStage (e, ok) = false -> invocations (t ++ [(e, ok)]) = invocations t.
Proof.
  intros H. unfold invocations. rewrite List.filter_app. cbn [List.filter]. rewrite H.
  apply app_nil_r.
Qed.

Lemma plain_perform e : (forall ok, isLogStage (e, ok) = false) -> plain (perform e).
Proof.
  intros H w s t. rewrite perform_eq.
  destruct (rejects w (length t)); cbn [outcome trace]; by rewrite invocations_snoc.
Qed.

Lemma plain_note e : (forall ok, isLogStage (e, ok) = false) -> plain (note e).
Proof. intros H w s t. cbn [note outcome trace]. by rewrite invocations_snoc. Qed.

Lemma plain_postCalculate a b c : plain (postCalculate a b c).
Proof.
  intros w s t. rewrite postCalculate_eq.
  destruct (quote w); cbn [outcome trace]; by rewrite invocations_snoc.
Qed.

Lemma plain_readData : plain readData.
Proof.
  intros w s t. rewrite readData_eq.
  destruct (dataFile w); cbn [outcome trace]; by rewrite invocations_snoc.
Qed.

Lemma plain_bind {A B} (m : M A) (k : A -> M B) :
  plain m -> (forall a, plain (k a)) -> plain (x <- m ;; k x).
Proof.
  intros Hm Hk w s t. rewrite bind_eq. destruct (Hm w s t) as [Ho Ht].
  destruct (outcome (m w s t)) as [a| |]; [|done|done].
  destruct (Hk a w (store (m w s t)) (trace (m w s t))) as [Ho' Ht'].
  split; [done|]. by rewrite Ht'.
Qed.

Lemma plain_tryCatch {A} (m h : M A) : plain m -> plain h -> plain (tryCatch m h).
Proof.
  intros Hm Hh w s t. rewrite try_eq. destruct (Hm w s t) as [Ho Ht].
  destruct (outcome (m w s t)) as [a| |]; [done| |done].
  destruct (Hh w (store (m w s t)) (trace (m w s t))) as [Ho' Ht'].
  split; [done|]. by rewrite Ht'.
Qed.

Ltac plain_step :=
  first
    [ apply plain_ret | apply plain_get | apply plain_ask | apply plain_modify
    | apply plain_throw | apply plain_postCalculate | apply plain_readData
    | apply plain_perform; intros ?; reflexivity
    | apply plain_note; intros ?; reflexivity
    | apply plain_bind; [|intros ?]
    | apply plain_tryCatch
    | match goal with
      | |- plain (match ?x with _ => _ end) => destruct x
      | |- plain (if ?b then _ else _) => destruct b
      | |- plain (when ?b _) => destruct b; cbn [when]
      end ].
Ltac plain_blocks := cbv zeta; repeat plain_step.

Lemma plain_loadSessions : plain loadSessions.
Proof. unfold loadSessions. plain_blocks. Qed.

Lemma plain_saveSessions : plain saveSessions.
Proof. unfold saveSessions. plain_blocks. Qed.

Lemma plain_createOrder d : plain (createOrder d).
Proof. unfold createOrder, loadOrders, saveOrders. plain_blocks. Qed.

Lemma plain_confirmationStage sender message : plain (confirmationStage sender message).
Proof.
  unfold confirmationStage, fillForm, collectCity, confirmFinal, confirmProduct,
    setForm, sendMessage.
  plain_blocks.
Qed.

Lemma plain_productStage toLowerCase normalizeNFD sender message :
  plain (productStage toLowerCase normalizeNFD sender message).
Proof. unfold productStage, sendMessage. plain_blocks. Qed.

Lemma plain_paymentStage sender message : plain (paymentStage sender message).
Proof.
  unfold paymentStage, forwardReceipt, receiptFallback, sendMessage.
  plain_blocks; first [apply plain_createOrder | apply plain_loadSessions | apply plain_saveSessions].
Qed.

Lemma plain_welcome sender message : plain (welcome sender message).
Proof. unfold welcome, sendMessage. plain_blocks. Qed.

(** The [new] branch, case by case. *)
Lemma newStage_eq again message w s t :
  let sender := Message.remoteJid message in
  newStage again sender message w s t
  = if negb (JsString.endsWith sender (js "@g.us")) && truthy sender then
      match sessionsFile s with
      | Unparsable => mkResult Thrown s t
      | _ =>
          let s1 := set_sessions (fun _ => known s) s in
          let lastTime := default None (known s !! sender) in
          if negb (truthy lastTime)
             || match lastTime with
                | Some last => (30 * 60 * 1000 <? now w - last)%Z
                | None => false
                end
          then welcome sender message w s1 t
          else if truthy (Message.content message)
               then again message w (set_awaitingProduct <[sender := true]> s1) t
               else mkResult (Done tt) s1 t
      end
    else mkResult (Done tt) s t.
Proof.
  intros sender. unfold newStage. fold sender.
  destruct (negb (JsString.endsWith sender (js "@g.us")) && truthy sender); [|done].
  rewrite bind_eq, loadSessions_result.
  destruct (sessionsFile s) eqn:E; [|done|]; settle.
  all: rewrite bind_ask, bind_get; cbn [sessions set_sessions]; cbv zeta.
  all: destruct (negb _ || _); [done|].
  all: destruct (truthy (Message.content message)); [by rewrite bind_modify|done].
Qed.

(** When the [new] branch calls the handler again, it does so on the store
    with the sessions loaded and [awaitingProduct[sender]] set, and with
    nothing sent yet. *)
Lemma newStage_redispatch again message w s t :
  redispatches message w s = true ->
  newStage again (Message.remoteJid message) message w s t
  = again message w
      (set_awaitingProduct <[Message.remoteJid message := true]>
         (set_sessions (fun _ => known s) s)) t.
Proof.
  intros H. rewrite newStage_eq. cbv zeta. unfold redispatches in H.
  set (sender := Message.remoteJid message) in *.
  apply andb_true_iff in H as [H Hcontent].
  apply andb_true_iff in H as [H Hfresh]. apply andb_true_iff in H as [Hguard Hfile].
  rewrite Hguard, Hcontent.
  destruct (default None (known s !! sender)) as [last|]; [|done].
  apply andb_true_iff in Hfresh as [Hlast Hnew].
  change (truthy (Some last)) with (truthy last). rewrite Hlast.
  apply negb_true_iff in Hnew. rewrite Hnew. cbn [negb orb].
  by destruct (sessionsFile s).
Qed.

(** Otherwise the [new] branch does not call the handler at all. *)
Lemma newStage_alone again message w s t :
  redispatches message w s = false ->
  let r := newStage again (Message.remoteJid message) message w s t in
  outcome r <> OutOfFuel
  /\ invocations (trace r) = invocations t
  /\ forall again', newStage again' (Message.remoteJid message) message w s t = r.
Proof.
  intros H. cbv zeta.
  assert (Heq : forall again', newStage again' (Message.remoteJid message) message w s t
                = newStage (fun _ => ret tt) (Message.remoteJid message) message w s t).
  { intros again'. rewrite !newStage_eq. cbv zeta. unfold redispatches in H.
    set (sender := Message.remoteJid message) in *.
    destruct (negb (JsString.endsWith sender (js "@g.us")) && truthy sender); [|done].
    destruct (sessionsFile s); [|done|]; cbn [andb] in H.
    all: destruct (default None (known s !! sender)) as [last|]; [|done].
    all: change (truthy (Some last)) with (truthy last) in *.
    all: destruct (truthy last); [|done].
    all: destruct (30 * 60 * 1000 <? now w - last)%Z; [done|].
    all: cbn [negb andb orb] in *; by rewrite H. }
  split_and!.
  - rewrite Heq, newStage_eq. cbv zeta.
    repeat match goal with
           | |- outcome (if ?b then _ else _) <> _ => destruct b
           | |- outcome (match ?x with _ => _ end) <> _ => destruct x
           end; try done; apply plain_welcome.
  - rewrite Heq, newStage_eq. cbv zeta.
    repeat match goal with
           | |- invocations (trace (if ?b then _ else _)) = _ => destruct b
           | |- invocations (trace (match ?x with _ => _ end)) = _ => destruct x
           end; try done; apply plain_welcome.
  - intros again'. by rewrite Heq, <- (Heq again).
Qed.

Lemma resolveStage_redispatched s sender f :
  resolveStage s sender = StageType.new ->
  resolveStage (set_awaitingProduct <[sender := true]> (set_sessions f s)) sender
  = StageType.product.
Proof.
  unfold resolveStage. cbn [awaitingConfirmation awaitingPayment awaitingProduct
                             set_awaitingProduct set_sessions].
  destruct (truthy (awaitingConfirmation s !! sender)); [done|].
  destruct (truthy (awaitingPayment s !! sender)); [done|].
  intros _. by rewrite lookup_insert_eq.
Qed.

(** C9.  For every message, world and store, a run of the handler that may
    nest two calls never needs a third: it does not run out of fuel, more
    fuel changes nothing, and the trace holds at most two calls of the
    handler; when it holds two, the first resolved to [new] and the second,
    the re-dispatch, to [product]. *)
Theorem C9_redispatch_happens_at_most_once :
  forall toLowerCase normalizeNFD fuel w s (message : Message.t),
    let sender := Message.remoteJid message in
    let r := run (MessageHandler toLowerCase normalizeNFD (S (S fuel)) message) w s in
    outcome r <> OutOfFuel
    /\ r = run (MessageHandler toLowerCase normalizeNFD 2 message) w s
    /\ (invocations (trace r) = []
        \/ invocations (trace r) = [(LogStage sender (resolveStage s sender), true)]
        \/ redispatches message w s = true
           /\ resolveStage s sender = StageType.new
           /\ invocations (trace r)
              = [(LogStage sender StageType.new, true);
                 (LogStage sender StageType.product, true)]).
Proof.
  intros toLowerCase normalizeNFD fuel w s message sender r. subst r. unfold run.
  rewrite !(MessageHandler_eq _ _ _ message w s []).
  destruct (Message.fromMe message) eqn:Hme; [split_and!; try done; by left|].
  cbv zeta. fold sender. cbn [app].
  destruct (resolveStage s sender) eqn:Hstage.
  - destruct (plain_confirmationStage sender message w s
                [(LogStage sender StageType.confirmation, true)]) as [Ho Ht].
    split_and!; try done. right; left. by rewrite Ht.
  - destruct (plain_paymentStage sender message w s
                [(LogStage sender StageType.payment, true)]) as [Ho Ht].
    split_and!; try done. right; left. by rewrite Ht.
  - destruct (plain_productStage toLowerCase normalizeNFD sender message w s
                [(LogStage sender StageType.product, true)]) as [Ho Ht].
    split_and!; try done. right; left. by rewrite Ht.
  - destruct (redispatches message w s) eqn:Hre.
    + subst sender. rewrite !newStage_redispatch by done.
      rewrite !MessageHandler_eq, Hme. cbv zeta.
      rewrite (resolveStage_redispatched _ _ _ Hstage).
      match goal with |- context [productStage _ _ ?j ?m ?w' ?s' ?t'] =>
        destruct (plain_productStage toLowerCase normalizeNFD j m w' s' t') as [Ho Ht] end.
      split_and!; try done. right; right. by rewrite Ht.
    + subst sender.
      destruct (newStage_alone (MessageHandler toLowerCase normalizeNFD (S fuel)) message w s
                  [(LogStage (Message.remoteJid message) StageType.new, true)] Hre)
        as (Ho & Ht & Hsame).
      split_and!; try done. right; left. by rewrite Ht.
Qed.

(** The re-dispatch is a call of its own: with room for one call only, a
    message that is re-dispatched runs out of fuel. *)
Lemma redispatch_needs_a_second_call toLowerCase normalizeNFD w s message :
  Message.fromMe message = false ->
  resolveStage s (Message.remoteJid message) = StageType.new ->
  redispatches message w s = true ->
  outcome (run (MessageHandler toLowerCase normalizeNFD 1 message) w s) = OutOfFuel.
Proof.
  intros Hme Hstage Hre. unfold run. rewrite MessageHandler_eq, Hme. cbv zeta.
  rewrite Hstage. by rewrite newStage_redispatch.
Qed.

(** ** One mode per sender *)

Ltac case_head :=
  match goal with
  | |- context [when ?b _ _ _ _] => destruct b; cbn [when]
  | |- context [(if ?b then _ else _) _ _ _] => destruct b eqn:?
  | |- context [(match ?x with _ => _ end) _ _ _] => destruct x eqn:?
  end.
Ltac explore := repeat first [ progress settle | ask_world | open_head | case_head ].

(** The three dictionaries of a store after an update of another field. *)
Ltac modes_of_sender :=
  repeat first
    [ rewrite lookup_insert_eq | rewrite lookup_delete_eq
    | rewrite lookup_insert_ne by done | rewrite lookup_delete_ne by done ].
Ltac solve_modes Hinv sender :=
  let j := fresh "j" in
  intros j; specialize (Hinv j); unfold modeCount in *;
  cbn [awaitingConfirmation awaitingPayment awaitingProduct
       set_awaitingConfirmation set_awaitingPayment set_awaitingProduct
       set_selectedProduct set_formData set_productsMode set_sessions
       set_sessionsFile set_ordersFile] in *;
  destruct (decide (j = sender)) as [->|?];
  modes_of_sender;
  repeat match goal with H : _ !! _ = _ |- _ => rewrite H in * end;
  cbn [truthy truthy_option truthy_awaiting truthy_bool] in *;
  subst;
  repeat match goal with H : truthy _ = _ |- _ => rewrite H in * end;
  repeat match goal with
         | |- context [if ?b then _ else _] => destruct b
         | H : context [if ?b then _ else _] |- _ => destruct b
         end;
  simpl in *; lia.

Lemma oneMode_confirmationStage sender message w s t :
  oneMode s ->
  truthy (awaitingConfirmation s !! sender) = true ->
  oneMode (store (confirmationStage sender message w s t)).
Proof.
  intros Hinv Hc.
  unfold confirmationStage, fillForm, collectCity, confirmFinal, confirmProduct, setForm.
  explore.
  all: try solve_modes Hinv sender.
Qed.

Lemma oneMode_productStage toLowerCase normalizeNFD sender message w s t :
  oneMode s ->
  truthy (awaitingConfirmation s !! sender) = false ->
  truthy (awaitingPayment s !! sender) = false ->
  oneMode (store (productStage toLowerCase normalizeNFD sender message w s t)).
Proof.
  intros Hinv Hc Hp. unfold productStage. explore.
  all: try solve_modes Hinv sender.
Qed.

Lemma oneMode_welcome sender message w s t :
  oneMode s ->
  truthy (awaitingConfirmation s !! sender) = false ->
  truthy (awaitingPayment s !! sender) = false ->
  oneMode (store (welcome sender message w s t)).
Proof.
  intros Hinv Hc Hp. unfold welcome, saveSessions. explore.
  all: try solve_modes Hinv sender.
Qed.

Lemma forwardReceipt_store targetJid message imageMessage w s t :
  store (forwardReceipt targetJid message imageMessage w s t) = s.
Proof. unfold forwardReceipt, receiptFallback. explore; reflexivity. Qed.

(** [createOrder] returns the draft with a fresh id and the status [new],
    and appends it to the ledger unless the write fails. *)
Lemma createOrder_facts orderData w s t :
  exists order,
    outcome (createOrder orderData w s t) = Done order
    /\ Order.payment order = OrderData.payment orderData
    /\ Order.status order = Status.new
    /\ (store (createOrder orderData w s t) = s
        \/ store (createOrder orderData w s t)
           = set_ordersFile (Parsed (ledger s ++ [order])) s).
Proof.
  unfold createOrder. explore.
  all: eexists; split_and!; try done; first [by left | by right].
Qed.

Ltac ask_block :=
  match goal with
  | |- context [forwardReceipt ?a ?b ?c ?w ?s ?t] =>
      let H := fresh "Hkeep" in
      let s' := fresh "s" in
      pose proof (forwardReceipt_store a b c w s t) as H;
      destruct (forwardReceipt a b c w s t) as [[?| |] s' ?];
      cbn [store] in H; subst s'
  | |- context [createOrder ?d ?w ?s ?t] =>
      let o := fresh "order" in
      let Ho := fresh "Ho" in
      let Hp := fresh "Hpayment" in
      let Hn := fresh "Hnew" in
      let Hs := fresh "Hs" in
      let s' := fresh "s" in
      destruct (createOrder_facts d w s t) as (o & Ho & Hp & Hn & Hs);
      destruct (createOrder d w s t) as [? s' ?];
      cbn [outcome store] in Ho, Hs; subst;
      destruct Hs as [->| ->]
  end.
Ltac explore_blocks :=
  repeat first [ progress settle | ask_block | ask_world | open_head | case_head ].

Lemma oneMode_paymentStage sender message w s t :
  oneMode s ->
  oneMode (store (paymentStage sender message w s t)).
Proof.
  intros Hinv. unfold paymentStage, saveSessions. explore_blocks.
  all: try solve_modes Hinv sender.
Qed.

(** What the payment step writes: nothing, or one order with the status
    [new] whose payment is the snapshot of line 485, taken from the product
    and the form data the sender had. *)
Lemma paymentStage_ledger sender message w s t :
  let r := paymentStage sender message w s t in
  let productData := default ProductData.empty (selectedProduct s !! sender) in
  let formDataItem := default FormDataItem.empty (formData s !! sender) in
  ledger (store r) = ledger s
  \/ exists order path,
       ledger (store r) = ledger s ++ [order]
       /\ Order.status order = Status.new
       /\ Order.payment order = paymentSnapshot productData formDataItem path.
Proof.
  cbv zeta. unfold paymentStage, saveSessions. explore_blocks.
  all: try (left; reflexivity).
  all: right; eexists _, _; split; [reflexivity|]; split; [eassumption|];
    match goal with H : Order.payment _ = _ |- _ => rewrite H end; reflexivity.
Qed.

(** The order the payment step writes adds up exactly when the product has
    a price or the delivery is free. *)
Lemma paymentStage_order_adds_up sender message w s t order :
  ledger (store (paymentStage sender message w s t)) = ledger s ++ [order] ->
  Payment.total (Order.payment order)
  = (Payment.productPrice (Order.payment order) + Payment.deliveryCost (Order.payment order))%Z
  <-> truthy (ProductData.Precio (default ProductData.empty (selectedProduct s !! sender))) = true
      \/ orElse (FormDataItem.deliveryCost (default FormDataItem.empty (formData s !! sender)))
           0%Z = 0%Z.
Proof.
  intros Hledger.
  destruct (paymentStage_ledger sender message w s t) as [Hsame|(order' & path & Happ & _ & Hpay)].
  - rewrite Hsame in Hledger. apply (f_equal length) in Hledger.
    rewrite length_app in Hledger. simpl in Hledger. lia.
  - rewrite Happ in Hledger. apply app_inj_tail in Hledger as [_ ->].
    rewrite Hpay. apply paymentSnapshot_adds_up.
Qed.

Lemma resolveStage_modes s sender :
  match resolveStage s sender with
  | StageType.confirmation => truthy (awaitingConfirmation s !! sender) = true
  | StageType.payment =>
      truthy (awaitingConfirmation s !! sender) = false
      /\ truthy (awaitingPayment s !! sender) = true
  | StageType.product =>
      truthy (awaitingConfirmation s !! sender) = false
      /\ truthy (awaitingPayment s !! sender) = false
      /\ truthy (awaitingProduct s !! sender) = true
  | StageType.new =>
      truthy (awaitingConfirmation s !! sender) = false
      /\ truthy (awaitingPayment s !! sender) = false
      /\ truthy (awaitingProduct s !! sender) = false
  end.
Proof.
  unfold resolveStage.
  destruct (truthy (awaitingConfirmation s !! sender)); [done|].
  destruct (truthy (awaitingPayment s !! sender)); [done|].
  by destruct (truthy (awaitingProduct s !! sender)).
Qed.

Lemma oneMode_MessageHandler toLowerCase normalizeNFD fuel message w s t :
  oneMode s ->
  oneMode (store (MessageHandler toLowerCase normalizeNFD (S (S fuel)) message w s t)).
Proof.
  intros Hinv. rewrite MessageHandler_eq.
  destruct (Message.fromMe message) eqn:Hme; [done|]. cbv zeta.
  set (sender := Message.remoteJid message).
  pose proof (resolveStage_modes s sender) as Hstage.
  destruct (resolveStage s sender).
  - by apply oneMode_confirmationStage.
  - by apply oneMode_paymentStage.
  - destruct Hstage as (? & ? & ?). by apply oneMode_productStage.
  - destruct Hstage as (Hc & Hp & Hq). subst sender. rewrite newStage_eq. cbv zeta.
    set (sender := Message.remoteJid message) in *.
    assert (Hinv1 : oneMode (set_sessions (fun _ => known s) s)) by (intros j; apply Hinv).
    destruct (negb (JsString.endsWith sender (js "@g.us")) && truthy sender); [|done].
    destruct (sessionsFile s); [|done|].
    all: destruct (negb _ || _); [by apply oneMode_welcome|].
    all: destruct (truthy (Message.content message)); [|done].
    all: rewrite MessageHandler_eq, Hme; cbv zeta; fold sender.
    all: rewrite resolveStage_redispatched
           by (unfold resolveStage; by rewrite Hc, Hp, Hq).
    all: apply oneMode_productStage; [|done|done].
    all: solve_modes Hinv sender.
Qed.

Lemma oneMode_checkExpiredSessions limit w s t :
  oneMode s -> oneMode (store (checkExpiredSessions limit w s t)).
Proof.
  intros Hinv. rewrite checkExpiredSessions_result.
  destruct (sessionsFile s); [|done|]; cbv zeta.
  all: destruct (expiredSenders limit (now w) (known s)); [intros j; apply Hinv|].
  all: destruct (rejects w _); intros j; apply Hinv.
Qed.

Lemma oneMode_updateOrderStatus orderId status attendedBy w s t :
  oneMode s -> oneMode (store (updateOrderStatus orderId status attendedBy w s t)).
Proof.
  intros Hinv. unfold updateOrderStatus. rewrite bind_eq, loadOrders_ledger. settle.
  destruct (list_find _ (ledger s)) as [[i order]|]; [|done].
  rewrite bind_ask, bind_eq, saveOrders_result.
  destruct (rejects w (length t)); settle; destruct (io w); intros j; apply Hinv.
Qed.

(** When the events are served in turn, every sender has at most one of
    [awaitingConfirmation], [awaitingPayment] and [awaitingProduct] truthy;
    in particular no sender awaits a payment and a product at once. *)
Lemma one_mode_when_served_in_turn :
  forall toLowerCase normalizeNFD s,
    servedInTurn toLowerCase normalizeNFD s ->
    forall sender,
      modeCount s sender <= 1
      /\ ~ (truthy (awaitingPayment s !! sender) = true
            /\ truthy (awaitingProduct s !! sender) = true).
Proof.
  intros toLowerCase normalizeNFD s Hreach.
  assert (Hinv : oneMode s).
  { induction Hreach.
    - intros j. unfold modeCount.
      cbn [awaitingConfirmation awaitingPayment awaitingProduct].
      rewrite !lookup_empty. cbn. lia.
    - by apply oneMode_MessageHandler.
    - by apply oneMode_checkExpiredSessions.
    - by apply oneMode_updateOrderStatus. }
  intros sender. split; [apply Hinv|].
  intros [Hp Hq]. specialize (Hinv sender). unfold modeCount in Hinv.
  rewrite Hp, Hq in Hinv. destruct (truthy (awaitingConfirmation s !! sender)); simpl in Hinv; lia.
Qed.

(** * The theorems at work on concrete inputs *)

(** C8 on a ledger of two orders: completing the second one, attended by
    "lucia". *)
Lemma C8_updateOrderStatus_on_two_orders :
  (exists o, o ∈ ledger twoOrders /\ Order.id o = js "order-2")
  /\ exists i before after,
       ledger twoOrders !! i = Some before
       /\ outcome (updateOrderStatus (js "order-2") Status.completed (Some (js "lucia"))
                     calm twoOrders [])
          = Done (Some after)
       /\ sameSnapshots before after
       /\ Order.status after = Status.completed
       /\ length (ledger (store (updateOrderStatus (js "order-2") Status.completed
                                   (Some (js "lucia")) calm twoOrders [])))
          = length (ledger twoOrders).
Proof.
  assert (H : exists o, o ∈ ledger twoOrders /\ Order.id o = js "order-2").
  { exists secondOrder. split; [|reflexivity].
    apply list_elem_of_In. simpl. right. left. reflexivity. }
  split; [exact H|].
  destruct (C8_updateOrderStatus_changes_only_status calm twoOrders [] (js "order-2")
              Status.completed (Some (js "lucia")) H)
    as (i & before & after & H1 & _ & H3 & H4 & H5 & _ & _ & _ & H9 & _).
  exists i, before, after.
  split; [exact H1|]. split; [exact H3|]. split; [exact H4|]. split; [exact H5|exact H9].
Defined.

(** Two sweeps on two sessions, one of them a day old. *)
Lemma sweep_twice_on_two_sessions :
  now calm = now calm
  /\ outcome (run (checkExpiredSessions thirtyMinutes) calm idleStore) = Done [ana]
  /\ outcome (run (checkExpiredSessions thirtyMinutes) calm
                (store (run (checkExpiredSessions thirtyMinutes) calm idleStore)))
     = Done []
  /\ trace (run (checkExpiredSessions thirtyMinutes) calm
              (store (run (checkExpiredSessions thirtyMinutes) calm idleStore)))
     = [].
Proof.
  assert (H : outcome (run (checkExpiredSessions thirtyMinutes) calm idleStore) = Done [ana])
    by (vm_compute; reflexivity).
  split; [reflexivity|]. split; [exact H|].
  destruct (sweep_is_idempotent_once_it_completes thirtyMinutes calm calm idleStore [ana] eq_refl H)
    as (_ & _ & _ & H4 & _ & H6).
  split; assumption.
Defined.

(** C2 on Ana's form, with the delivery API down and then up again. *)
Lemma C2_quote_fails_then_succeeds_for_ana :
  let s := converse calm (take 8 orderOfSample) initialStore in
  let r := run (MessageHandler toLowerCaseLatin1 normalizeNFDLatin1 2 (says ana (js "Bogota")))
               apiDown s in
  awaitingConfirmation s !! ana = Some (Form formAtCity)
  /\ quote apiDown = None
  /\ store r
     = set_awaitingConfirmation
         <[ana := Form (FormState.set_city (js "Bogota") formAtCity)]> s
  /\ exists f2,
       awaitingConfirmation
         (store (run (MessageHandler toLowerCaseLatin1 normalizeNFDLatin1 2
                        (says ana (js "Bogota"))) calm (store r))) !! ana
       = Some (Form f2)
       /\ FormState.barrio f2 = Some (js "Centro")
       /\ FormState.address f2 = Some (js "Calle 1 # 2-3").
Proof.
  intros s r.
  assert (Hf : awaitingConfirmation s !! Message.remoteJid (says ana (js "Bogota"))
               = Some (Form formAtCity)) by (vm_compute; reflexivity).
  destruct (C2_failed_quote_keeps_the_stage_and_the_form
              toLowerCaseLatin1 normalizeNFDLatin1 1 1 apiDown calm s
              (says ana (js "Bogota")) (says ana (js "Bogota")) formAtCity
              eq_refl eq_refl eq_refl Hf eq_refl eq_refl)
    as (H1 & _ & _ & _ & _ & _ & _ & f2 & rest & H8 & _ & _ & _ & _ & H11 & H12 & _).
  split; [exact Hf|]. split; [reflexivity|]. split; [exact H1|].
  exists f2. split; [exact H8|]. split; assumption.
Defined.

(** C4 at the product confirmation: "sí" changes nothing. *)
Lemma C4_accented_si_at_the_product_confirmation :
  let s := converse calm [says ana (js "hola"); says ana (js "gorra")] initialStore in
  awaitingConfirmation s !! ana = Some (Flag true)
  /\ confirmationPoint (Flag true) = true
  /\ answer (Some siAcute) = Other
  /\ store (run (MessageHandler toLowerCaseLatin1 normalizeNFDLatin1 2 (says ana siAcute))
              calm s) = s.
Proof.
  intros s.
  assert (Hv : awaitingConfirmation s !! Message.remoteJid (says ana siAcute)
               = Some (Flag true)) by (vm_compute; reflexivity).
  pose proof (C4_confirmation_compares_the_text_as_typed
                toLowerCaseLatin1 normalizeNFDLatin1 1 calm s (says ana siAcute) (Flag true)
                eq_refl Hv eq_refl) as (_ & _ & H).
  split; [exact Hv|]. split; [reflexivity|]. split; [reflexivity|].
  exact (proj1 H).
Defined.

(** The store Ana leaves after asking for a product, served in turn. *)
Lemma one_mode_for_ana_served_in_turn :
  let s := converse calm [says ana (js "hola"); says ana (js "gorra")] initialStore in
  servedInTurn toLowerCaseLatin1 normalizeNFDLatin1 s
  /\ modeCount s ana <= 1.
Proof.
  intros s.
  assert (H : servedInTurn toLowerCaseLatin1 normalizeNFDLatin1 s).
  { apply (servedInTurn_message _ _ _ calm (says ana (js "gorra")) 0).
    apply (servedInTurn_message _ _ _ calm (says ana (js "hola")) 0).
    apply (servedInTurn_boot _ _ Absent Absent). }
  split; [exact H|].
  exact (proj1 (one_mode_when_served_in_turn _ _ s H ana)).
Defined.

(** * Handlers that overlap, and a sweep that fails *)

(** C3. The handlers of one sender are not run in turn.  On the engine that
    resumes the handlers [index.ts] starts without [await]: once Ana has
    reached the last confirmation, with each message handled in turn (the
    engine then holds the store that handling the messages one at a time
    gives, with one mode), a yes and a no that arrive in one batch leave her
    awaiting a payment and a product at once; and at a first contact, a
    greeting and a product name in one batch leave her awaiting a
    confirmation and a product at once.  Handled in turn, the same messages
    leave one mode. *)
Theorem C3_handlers_started_without_await_leave_two_modes :
  Async.suspended atTheSummary = []
  /\ Async.globals (Async.memory atTheSummary) = converse calm upToTheSummary initialStore
  /\ modeCount (Async.globals (Async.memory atTheSummary)) ana = 1
  /\ (let e := engineAfter calm yesAndNoAtOnce atTheSummary in
      Async.suspended e = []
      /\ truthy (awaitingPayment (Async.globals (Async.memory e)) !! ana) = true
      /\ truthy (awaitingProduct (Async.globals (Async.memory e)) !! ana) = true
      /\ modeCount (Async.globals (Async.memory e)) ana = 2)
  /\ (let e := engineAfter calm
                 (inTurn (says ana (js "si")) ++ inTurn (says ana (js "no"))) atTheSummary in
      Async.suspended e = []
      /\ modeCount (Async.globals (Async.memory e)) ana = 1)
  /\ (let e := engineAfter calm helloAndProductAtOnce (Async.idle initialStore) in
      Async.suspended e = []
      /\ truthy (awaitingConfirmation (Async.globals (Async.memory e)) !! ana) = true
      /\ truthy (awaitingProduct (Async.globals (Async.memory e)) !! ana) = true
      /\ modeCount (Async.globals (Async.memory e)) ana = 2)
  /\ (let e := engineAfter calm
                 (inTurn (says ana (js "hola")) ++ inTurn (says ana (js "camisa")))
                 (Async.idle initialStore) in
      Async.suspended e = []
      /\ modeCount (Async.globals (Async.memory e)) ana = 1).
Proof. cbv zeta. split_and!; vm_compute; reflexivity. Qed.

(** The farewells of the loop of the sweep, when none of them is rejected. *)
Lemma sweep_trace limit entries w s t :
  (forall i, i < length (List.filter (fun e => expired limit (now w) (snd e)) entries) ->
             rejects w (length t + i) = false) ->
  trace (sweep limit entries w s t)
  = t ++ farewells (map fst (List.filter (fun e => expired limit (now w) (snd e)) entries)).
Proof.
  revert t. induction entries as [|[jid userData] rest IH]; intros t Hcalm.
  - simpl. by rewrite app_nil_r.
  - cbn [sweep List.filter snd]. rewrite bind_ask.
    cbn [List.filter snd] in Hcalm.
    destruct (expired limit (now w) userData) eqn:Hexp; [|by apply IH].
    unfold sendMessage. rewrite bind_try_perform.
    cbn [length] in Hcalm.
    assert (H0 : rejects w (length t) = false).
    { rewrite <- (Nat.add_0_r (length t)). apply Hcalm. lia. }
    rewrite H0. cbn [negb].
    rewrite bind_eq.
    destruct (sweep_result limit rest w s (t ++ [(SendMessage jid SessionClosed, true)]))
      as [E1 E2].
    rewrite E1. cbn [trace ret]. rewrite IH.
    + cbn [map fst farewells]. by rewrite <- app_assoc.
    + intros i Hi. rewrite length_app. cbn [length].
      replace (length t + 1 + i) with (length t + S i) by lia. apply Hcalm. lia.
Qed.

(** C7. A sweep whose write fails is not idempotent.  For every session
    file, timeout and time: when every farewell of the first sweep goes
    through and the write of [sessions.json] that follows is rejected, the
    sweep throws with the file as it was (it completes only if nobody was
    expired); a second sweep at the same time, with every call going
    through, then evicts the same senders once more and sends each of them
    the farewell a second time.  On the store of the two sessions, Ana is
    told twice that her session was closed. *)
Theorem C7_sweep_repeats_evictions_after_a_failed_write :
  forall limit (w : World) (m : gmap jsstring (option Z)) (s : Store),
    let expiredOnes := expiredSenders limit (now w) m in
    let r1 := run (checkExpiredSessions limit) (failingAt (length expiredOnes) w)
                (set_sessionsFile (Parsed m) s) in
    let r2 := run (checkExpiredSessions limit) (goingThrough w) (store r1) in
    outcome r1 = match expiredOnes with [] => Done [] | _ :: _ => Thrown end
    /\ trace r1 = farewells expiredOnes
                  ++ match expiredOnes with [] => [] | _ :: _ => [(WriteSessions, false)] end
    /\ sessionsFile (store r1) = Parsed m
    /\ outcome r2 = Done expiredOnes
    /\ trace r2 = farewells expiredOnes
                  ++ match expiredOnes with [] => [] | _ :: _ => [(WriteSessions, true)] end
    /\ trace (run (checkExpiredSessions thirtyMinutes) (failingAt 1 calm) idleStore)
       = [(SendMessage ana SessionClosed, true); (WriteSessions, false)]
    /\ trace (run (checkExpiredSessions thirtyMinutes) calm
                (store (run (checkExpiredSessions thirtyMinutes) (failingAt 1 calm) idleStore)))
       = [(SendMessage ana SessionClosed, true); (WriteSessions, true)].
Proof.
  intros limit w m s expiredOnes r1 r2.
  assert (H1 : r1 = match expiredOnes with
                    | [] => mkResult (Done [])
                              (set_sessions (fun _ => m) (set_sessionsFile (Parsed m) s)) []
                    | _ :: _ =>
                        mkResult Thrown
                          (set_sessions (fun _ => foldr delete m expiredOnes)
                             (set_sessionsFile (Parsed m) s))
                          (farewells expiredOnes ++ [(WriteSessions, false)])
                    end).
  { subst r1. unfold run. rewrite checkExpiredSessions_result.
    cbn [sessionsFile set_sessionsFile known]. cbv zeta.
    change (now (failingAt (length expiredOnes) w)) with (now w). fold expiredOnes.
    rewrite sweep_trace.
    2:{ intros i Hi. cbn [failingAt rejects now length Nat.add].
        apply bool_decide_eq_false. change (now (failingAt _ w)) with (now w) in Hi.
        fold (expiredSenders limit (now w) m) in Hi.
        unfold expiredSenders in expiredOnes. subst expiredOnes.
        rewrite length_map. lia. }
    change (now (failingAt (length expiredOnes) w)) with (now w).
    fold (expiredSenders limit (now w) m). fold expiredOnes. cbn [app].
    destruct expiredOnes as [|jid rest] eqn:E; [done|].
    assert (Hw : rejects (failingAt (length (jid :: rest)) w)
                   (length (farewells (jid :: rest))) = true).
    { cbn [failingAt rejects]. apply bool_decide_eq_true. unfold farewells.
      by rewrite length_map. }
    by rewrite Hw. }
  assert (Hfile : sessionsFile (store r1) = Parsed m).
  { rewrite H1. by destruct expiredOnes. }
  assert (H2 : r2 = mkResult (Done expiredOnes)
                      (match expiredOnes with
                       | [] => set_sessions (fun _ => m) (store r1)
                       | _ :: _ =>
                           set_sessionsFile (Parsed (foldr delete m expiredOnes))
                             (set_sessions (fun _ => foldr delete m expiredOnes) (store r1))
                       end)
                      (farewells expiredOnes
                       ++ match expiredOnes with [] => [] | _ :: _ => [(WriteSessions, true)] end)).
  { subst r2. unfold run. rewrite checkExpiredSessions_result.
    unfold known. rewrite Hfile. cbv zeta.
    change (now (goingThrough w)) with (now w). fold expiredOnes.
    rewrite sweep_trace by done.
    change (now (goingThrough w)) with (now w).
    fold (expiredSenders limit (now w) m). fold expiredOnes. cbn [app].
    destruct expiredOnes as [|jid rest] eqn:E; [by rewrite app_nil_r|]. done. }
  split_and!.
  - rewrite H1. by destruct expiredOnes.
  - rewrite H1. by destruct expiredOnes.
  - done.
  - by rewrite H2.
  - by rewrite H2.
  - vm_compute. reflexivity.
  - vm_compute. reflexivity.
Qed.

(** * Further properties

    The properties of the handler below are about one run of
    [MessageHandler] taken alone, from its first statement to its last, as
    [handle] runs it. *)

(** * More of the ledger *)

Lemma filter_all {A} (f : A -> bool) (l : list A) :
  (forall x, f x = true) -> List.filter f l = l.
Proof. intros H. induction l as [|x l IH]; simpl; [done|]. by rewrite H, IH. Qed.

Lemma orderMatches_empty toLowerCase order :
  orderMatches toLowerCase OrderSearchCriteria.empty order = true.
Proof. reflexivity. Qed.

Lemma getOrderById_result orderId w s t :
  getOrderById orderId w s t
  = mkResult (Done (snd <$> list_find (fun order => Order.id order = orderId) (ledger s))) s t.
Proof. unfold getOrderById. by rewrite bind_eq, loadOrders_ledger. Qed.

(** What [createOrder] returns, writes and announces, whatever the write
    does. *)
Lemma createOrder_result orderData w s t :
  let order :=
    Order.mk (uuid w) (now w) Status.new
      (OrderData.customer orderData) (OrderData.product orderData)
      (OrderData.payment orderData) (OrderData.notes orderData)
      (OrderData.attendedBy orderData) (OrderData.attendedTimestamp orderData) in
  let written := negb (rejects w (length t)) in
  createOrder orderData w s t
  = mkResult (Done order)
      (if written then set_ordersFile (Parsed (ledger s ++ [order])) s else s)
      (t ++ [(WriteOrders, written)]
         ++ (if io w then [(EmitNewOrder order, true)] else [])).
Proof.
  cbv zeta. unfold createOrder.
  rewrite bind_eq, loadOrders_ledger. settle. rewrite bind_ask, bind_eq, saveOrders_result.
  destruct (rejects w (length t)); settle; destruct (io w); cbn [when negb];
    rewrite ?bind_note, ?bind_ret; unfold ret; rewrite <- ?app_assoc; try done.
  all: by rewrite app_nil_r.
Qed.

(** X1. An order that [createOrder] wrote is read back: when the write goes
    through, the order returned carries the id and the time the world gave,
    the status [new] and the three snapshots of the draft; the file then
    holds the former ledger followed by that order (an absent or unparsable
    file counts as an empty ledger and is replaced), [searchOrders({})]
    returns exactly that list, and [getOrderById] of the new id returns the
    order unless an older order already had that id. *)
Theorem X1_created_order_is_read_back :
  forall toLowerCase orderData w s t,
    rejects w (length t) = false ->
    let r := createOrder orderData w s t in
    exists order,
      outcome r = Done order
      /\ Order.id order = uuid w
      /\ Order.timestamp order = now w
      /\ Order.status order = Status.new
      /\ Order.customer order = OrderData.customer orderData
      /\ Order.product order = OrderData.product orderData
      /\ Order.payment order = OrderData.payment orderData
      /\ ordersFile (store r) = Parsed (ledger s ++ [order])
      /\ (forall w' t',
            outcome (searchOrders toLowerCase OrderSearchCriteria.empty w' (store r) t')
            = Done (ledger s ++ [order]))
      /\ (forall w' t',
            Forall (fun o => Order.id o <> uuid w) (ledger s) ->
            outcome (getOrderById (uuid w) w' (store r) t') = Done (Some order)).
Proof.
  intros toLowerCase orderData w s t Hok r. subst r.
  rewrite createOrder_result. cbv zeta. rewrite Hok. cbn [negb outcome store].
  eexists. split_and!; try reflexivity.
  - intros w' t'. rewrite searchOrders_filter. cbn [outcome].
    rewrite ledger_set_ordersFile. f_equal. by apply filter_all.
  - intros w' t' Hfresh. rewrite getOrderById_result. cbn [outcome].
    rewrite ledger_set_ordersFile. f_equal.
    match goal with |- _ <$> ?x = _ => destruct x as [[i o]|] eqn:Hfind end.
    + apply list_find_Some in Hfind as (Hi & Hid & Hfirst). cbn [fmap option_fmap option_map snd].
      f_equal. apply lookup_app_Some in Hi as [Hi|[Hlen Hi]].
      * rewrite Forall_forall in Hfresh. exfalso. apply (Hfresh o); [|done].
        by eapply list_elem_of_lookup_2.
      * destruct (i - length (ledger s)) as [|n]; [|done]. simpl in Hi. congruence.
    + apply list_find_None in Hfind. rewrite Forall_app, Forall_singleton in Hfind.
      by destruct Hfind as [_ Hlast].
Qed.

(** X2. A write that fails does not stop [createOrder]: the order is still
    returned, and announced to the dashboard when [global.io] is set, while
    the store is the one before the call: the ledger does not hold the order
    that was returned and announced. *)
Theorem X2_failed_write_still_returns_and_announces_the_order :
  forall orderData w s t,
    rejects w (length t) = true ->
    let r := createOrder orderData w s t in
    exists order,
      outcome r = Done order
      /\ Order.id order = uuid w
      /\ store r = s
      /\ trace r = t ++ [(WriteOrders, false)]
                     ++ (if io w then [(EmitNewOrder order, true)] else []).
Proof.
  intros orderData w s t Hko r. subst r.
  rewrite createOrder_result. cbv zeta. rewrite Hko. cbn [negb outcome store trace].
  eexists. split_and!; reflexivity.
Qed.

(** X3. An id the ledger does not hold: [updateOrderStatus] returns [null]
    without writing the file or announcing anything, and [getOrderById]
    returns [null]. *)
Theorem X3_unknown_order_id_changes_nothing :
  forall w s t orderId status attendedBy,
    Forall (fun o => Order.id o <> orderId) (ledger s) ->
    updateOrderStatus orderId status attendedBy w s t = mkResult (Done None) s t
    /\ getOrderById orderId w s t = mkResult (Done None) s t.
Proof.
  intros w s t orderId status attendedBy Habsent.
  assert (Hfind : list_find (fun order => Order.id order = orderId) (ledger s) = None).
  { by apply list_find_None. }
  split.
  - unfold updateOrderStatus. rewrite bind_eq, loadOrders_ledger. settle. by rewrite Hfind.
  - by rewrite getOrderById_result, Hfind.
Qed.

(** X4. After [updateOrderStatus] has returned an order, [getOrderById] of
    the same id returns that order if the write went through; if the write
    failed, it returns the order as it was, although the call returned the
    changed order and announced it. *)
Theorem X4_updated_order_is_read_back :
  forall w s t orderId status attendedBy after,
    outcome (updateOrderStatus orderId status attendedBy w s t) = Done (Some after) ->
    let r := updateOrderStatus orderId status attendedBy w s t in
    forall w' t',
      (rejects w (length t) = false ->
       outcome (getOrderById orderId w' (store r) t') = Done (Some after))
      /\ (rejects w (length t) = true ->
          store r = s
          /\ (io w = true -> (EmitOrderUpdated after, true) ∈ trace r)
          /\ exists before,
               outcome (getOrderById orderId w' (store r) t') = Done (Some before)
               /\ before ∈ ledger s
               /\ Order.id before = orderId).
Proof.
  intros w s t orderId status attendedBy after Hdone r w' t'. subst r.
  revert Hdone. unfold updateOrderStatus. rewrite bind_eq, loadOrders_ledger. settle.
  destruct (list_find _ (ledger s)) as [[i before]|] eqn:Hfind; [|done].
  rewrite bind_ask, bind_eq, saveOrders_result.
  pose proof Hfind as Hfound. apply list_find_Some in Hfound as (Hi & Hid & Hfirst).
  set (changed := match attendedBy with Some _ => _ | None => _ end).
  assert (Hchanged : Order.id changed = orderId).
  { subst changed. destruct attendedBy as [who|]; [|done].
    by destruct (bool_decide (status = Status.completed) && truthy who). }
  destruct (rejects w (length t)); settle.
  - destruct (io w); cbn [when]; rewrite ?bind_note, ?bind_ret; cbn [ret outcome store trace];
      intros [= <-]; (split; [done|]); intros _; (split; [done|]); split.
    + intros _. apply elem_of_app. right. apply list_elem_of_singleton. done.
    + exists before. rewrite getOrderById_result, Hfind. split_and!; try done.
      by eapply list_elem_of_lookup_2.
    + done.
    + exists before. rewrite getOrderById_result, Hfind. split_and!; try done.
      by eapply list_elem_of_lookup_2.
  - assert (Hget : forall s1, ledger s1 = <[i := changed]> (ledger s) ->
               outcome (getOrderById orderId w' s1 t') = Done (Some changed)).
    { intros s1 Hs1. rewrite getOrderById_result, Hs1. cbn [outcome]. f_equal.
      assert (Hf : list_find (fun order => Order.id order = orderId) (<[i := changed]> (ledger s))
                   = Some (i, changed)).
      { apply list_find_Some. split_and!.
        - apply list_lookup_insert_eq. by eapply lookup_lt_Some.
        - done.
        - intros j y Hj Hlt. rewrite list_lookup_insert_ne in Hj by lia. by eapply Hfirst. }
      by rewrite Hf. }
    destruct (io w); cbn [when]; rewrite ?bind_note, ?bind_ret; cbn [ret outcome store trace];
      intros [= <-]; (split; [|done]); intros _; by apply Hget.
Qed.

(** ** Searching *)

Lemma elem_of_List_filter {A} (f : A -> bool) (l : list A) (x : A) :
  x ∈ List.filter f l <-> x ∈ l /\ f x = true.
Proof. rewrite !list_elem_of_In. apply filter_In. Qed.

Lemma sublist_List_filter {A} (f : A -> bool) (l : list A) :
  sublist (List.filter f l) l.
Proof.
  induction l as [|x l IH]; simpl; [constructor|].
  destruct (f x); by constructor.
Qed.

(** [orderMatches] is the conjunction of its eleven tests. *)
Lemma orderMatches_true toLowerCase c order :
  orderMatches toLowerCase c order = true
  <-> given (OrderSearchCriteria.status c) (fun s => bool_decide (Order.status order ≠ s)) = false
      /\ given (OrderSearchCriteria.fromDate c) (fun d => (Order.timestamp order <? d)%Z) = false
      /\ given (OrderSearchCriteria.toDate c) (fun d => (d <? Order.timestamp order)%Z) = false
      /\ given (OrderSearchCriteria.customerId c)
           (fun i => bool_decide (Customer.idNumber (Order.customer order) ≠ i)) = false
      /\ given (OrderSearchCriteria.customerName c)
           (fun n => negb (JsString.includes (toLowerCase (Customer.name (Order.customer order)))
                                             (toLowerCase n))) = false
      /\ given (OrderSearchCriteria.customerPhone c)
           (fun p => negb (JsString.includes (Customer.phone (Order.customer order)) p)) = false
      /\ given (OrderSearchCriteria.productId c)
           (fun i => bool_decide (OrderProduct.id (Order.product order) ≠ Some i)) = false
      /\ given (OrderSearchCriteria.productName c)
           (fun n => match OrderProduct.name (Order.product order) with
                     | Some name =>
                         negb (truthy name)
                         || negb (JsString.includes (toLowerCase name) (toLowerCase n))
                     | None => true
                     end) = false
      /\ given (OrderSearchCriteria.minTotal c)
           (fun t => (Payment.total (Order.payment order) <? t)%Z) = false
      /\ given (OrderSearchCriteria.maxTotal c)
           (fun t => (t <? Payment.total (Order.payment order))%Z) = false
      /\ given (OrderSearchCriteria.attendedBy c)
           (fun a => match Order.attendedBy order with
                     | Some who =>
                         negb (truthy who)
                         || negb (JsString.includes (toLowerCase who) (toLowerCase a))
                     | None => true
                     end) = false.
Proof.
  unfold orderMatches. cbv zeta.
  repeat match goal with
         | |- context [if ?b then false else _] => destruct b
         end; intuition congruence.
Qed.

Lemma given_narrows {A} `{Truthy A} (wide narrow : option A) (test : A -> bool) :
  wide = None \/ wide = narrow ->
  given narrow test = false -> given wide test = false.
Proof. by intros [->| ->]. Qed.

Lemma getOrders_result toLowerCase filters w s t :
  getOrders toLowerCase filters w s t
  = searchOrders toLowerCase
      match filters with
      | Some (status, fromDate, toDate) =>
          OrderSearchCriteria.mk status fromDate toDate None None None None None None None None
      | None => OrderSearchCriteria.empty
      end w s t.
Proof. reflexivity. Qed.

(** X5. [getOrders] with a filter returns, in the order of the ledger and
    without touching the store, exactly the orders that have the status
    asked for and whose timestamp lies between [fromDate] and [toDate], both
    ends included; a bound that is missing or 0 does not filter.  Without a
    filter it returns the whole ledger, cancelled orders included. *)
Theorem X5_getOrders_filters_by_status_and_inclusive_dates :
  forall toLowerCase status fromDate toDate w s t,
    exists found,
      getOrders toLowerCase (Some (status, fromDate, toDate)) w s t = mkResult (Done found) s t
      /\ sublist found (ledger s)
      /\ (forall o,
            o ∈ found
            <-> o ∈ ledger s
                /\ (forall st, status = Some st -> Order.status o = st)
                /\ (forall d, fromDate = Some d -> d = 0 \/ d <= Order.timestamp o)%Z
                /\ (forall d, toDate = Some d -> d = 0 \/ Order.timestamp o <= d)%Z)
      /\ getOrders toLowerCase None w s t = mkResult (Done (ledger s)) s t.
Proof.
  intros toLowerCase status fromDate toDate w s t.
  rewrite !getOrders_result, !searchOrders_filter.
  eexists. split; [reflexivity|]. split; [apply sublist_List_filter|]. split.
  - intros o. rewrite elem_of_List_filter, orderMatches_true.
    cbn [OrderSearchCriteria.status OrderSearchCriteria.fromDate OrderSearchCriteria.toDate
         OrderSearchCriteria.customerId OrderSearchCriteria.customerName
         OrderSearchCriteria.customerPhone OrderSearchCriteria.productId
         OrderSearchCriteria.productName OrderSearchCriteria.minTotal
         OrderSearchCriteria.maxTotal OrderSearchCriteria.attendedBy given].
    split.
    + intros (Hin & Hst & Hfrom & Hto & _). split; [done|]. split_and!.
      * intros st ->. cbn [given] in Hst. change (truthy st) with true in Hst.
        cbn [andb] in Hst. by apply bool_decide_eq_false, dec_stable in Hst.
      * intros d ->. cbn [given] in Hfrom. unfold truthy, truthy_number in Hfrom.
        destruct (Z.eqb_spec d 0); [by left|right]. cbn [negb andb] in Hfrom. lia.
      * intros d ->. cbn [given] in Hto. unfold truthy, truthy_number in Hto.
        destruct (Z.eqb_spec d 0); [by left|right]. cbn [negb andb] in Hto. lia.
    + intros (Hin & Hst & Hfrom & Hto). split; [done|]. split_and!; try done.
      * destruct status as [st|]; [|done]. cbn [given]. change (truthy st) with true.
        cbn [andb]. apply bool_decide_eq_false. intros Hne. apply Hne. by apply Hst.
      * destruct fromDate as [d|]; [|done]. cbn [given]. unfold truthy, truthy_number.
        destruct (Hfrom d eq_refl) as [->|Hle]; [done|].
        destruct (Z.eqb_spec d 0); [done|]. cbn [negb andb]. lia.
      * destruct toDate as [d|]; [|done]. cbn [given]. unfold truthy, truthy_number.
        destruct (Hto d eq_refl) as [->|Hle]; [done|].
        destruct (Z.eqb_spec d 0); [done|]. cbn [negb andb]. lia.
  - f_equal. f_equal. by apply filter_all.
Qed.

Lemma sublist_filter_implies {A} (f g : A -> bool) (l : list A) :
  (forall x, f x = true -> g x = true) ->
  sublist (List.filter f l) (List.filter g l).
Proof.
  intros H. induction l as [|x l IH]; simpl; [constructor|].
  destruct (f x) eqn:Hf.
  - rewrite (H x Hf). by constructor.
  - destruct (g x); [by constructor|done].
Qed.

(** X6. Asking for more never finds more: when every criterion of a search
    is either missing or taken over unchanged by a second search, the second
    search returns a sub-sequence of what the first returns. *)
Theorem X6_narrower_search_finds_a_subsequence :
  forall toLowerCase narrow wide w s t,
    narrows narrow wide ->
    exists fewer more,
      outcome (searchOrders toLowerCase narrow w s t) = Done fewer
      /\ outcome (searchOrders toLowerCase wide w s t) = Done more
      /\ sublist fewer more
      /\ sublist more (ledger s).
Proof.
  intros toLowerCase narrow wide w s t Hn. rewrite !searchOrders_filter.
  eexists _, _. split; [reflexivity|]. split; [reflexivity|].
  split; [|apply sublist_List_filter].
  apply sublist_filter_implies. intros o. rewrite !orderMatches_true.
  destruct Hn as (H1 & H2 & H3 & H4 & H5 & H6 & H7 & H8 & H9 & H10 & H11).
  intros (G1 & G2 & G3 & G4 & G5 & G6 & G7 & G8 & G9 & G10 & G11).
  split_and!; eapply given_narrows; eassumption.
Qed.

(** ** The sales summary *)















(** ** Sorting and plain objects *)

Lemma insertSorted_perm {A} (compareFn : A -> A -> Z) x l :
  JsArray.insertSorted compareFn x l ≡ₚ x :: l.
Proof.
  induction l as [|y l IH]; simpl; [done|].
  destruct (compareFn x y <? 0)%Z; [done|]. rewrite IH. apply Permutation_swap.
Qed.

Lemma sort_perm {A} (compareFn : A -> A -> Z) l : JsArray.sort compareFn l ≡ₚ l.
Proof.
  unfold JsArray.sort.
  assert (H : forall acc, fold_left (fun sorted x => JsArray.insertSorted compareFn x sorted) l acc
                          ≡ₚ acc ++ l).
  { induction l as [|x l IH]; intros acc; simpl; [by rewrite app_nil_r|].
    rewrite IH, insertSorted_perm. by rewrite <- Permutation_middle. }
  apply (H []).
Qed.

Section InOrder.
Context {A : Type} (compareFn : A -> A -> Z) (R : A -> A -> Prop).
Hypothesis before : forall x y, (compareFn x y < 0)%Z -> R x y.
Hypothesis after : forall x y, ~ (compareFn x y < 0)%Z -> R y x.
Hypothesis through : forall x y z, R x y -> R y z -> R x z.

Lemma insertSorted_inOrder x l :
  inOrder R l -> inOrder R (JsArray.insertSorted compareFn x l).
Proof.
  induction l as [|y l IH]; intros Hl; simpl; [done|].
  destruct Hl as [Hy Hl].
  destruct (Z.ltb_spec (compareFn x y) 0) as [Hlt|Hge].
  - simpl. split_and!; try done. constructor; [by apply before|].
    eapply Forall_impl; [exact Hy|]. intros z Hz. eapply through; [|exact Hz]. by apply before.
  - simpl. split; [|by apply IH].
    rewrite insertSorted_perm. constructor; [apply after; lia|done].
Qed.

Lemma sort_inOrder l : inOrder R (JsArray.sort compareFn l).
Proof.
  unfold JsArray.sort.
  assert (H : forall acc, inOrder R acc ->
                inOrder R (fold_left (fun sorted x => JsArray.insertSorted compareFn x sorted) l acc)).
  { induction l as [|x l IH]; intros acc Hacc; simpl; [done|].
    apply IH. by apply insertSorted_inOrder. }
  by apply H.
Qed.
End InOrder.

Lemma inOrder_take {A} (R : A -> A -> Prop) n l : inOrder R l -> inOrder R (take n l).
Proof.
  revert n. induction l as [|a l IH]; intros [|n]; simpl; try done.
  intros [Ha Hl]. split; [|by apply IH].
  eapply Forall_forall. intros x Hx. rewrite Forall_forall in Ha. apply Ha.
  eapply elem_of_subseteq; [|exact Hx]. apply sublist_subseteq, sublist_take.
Qed.

Lemma inOrder_lookup {A} (R : A -> A -> Prop) l i j a b :
  inOrder R l -> i < j -> l !! i = Some a -> l !! j = Some b -> R a b.
Proof.
  revert i j. induction l as [|x l IH]; intros i j Hl Hij Hi Hj; [done|].
  destruct Hl as [Hx Hl]. destruct i as [|i], j as [|j]; try lia.
  - simpl in Hi, Hj. injection Hi as ->. rewrite Forall_forall in Hx. apply Hx.
    by eapply list_elem_of_lookup_2.
  - simpl in Hi, Hj. eapply (IH i j); [done|lia|done|done].
Qed.

Lemma slice0_sublist {A} limit (l : list A) : sublist (JsArray.slice0 limit l) l.
Proof. unfold JsArray.slice0. destruct (limit <? 0)%Z; apply sublist_take. Qed.

Lemma slice0_inOrder {A} (R : A -> A -> Prop) limit l :
  inOrder R l -> inOrder R (JsArray.slice0 limit l).
Proof. unfold JsArray.slice0. destruct (limit <? 0)%Z; apply inOrder_take. Qed.

Lemma slice0_length {A} limit (l : list A) :
  (0 <= limit)%Z -> (Z.of_nat (length (JsArray.slice0 limit l)) <= limit)%Z.
Proof.
  intros H. unfold JsArray.slice0. destruct (Z.ltb_spec limit 0); [lia|].
  rewrite length_take. lia.
Qed.


Lemma sumOf_cons {A} (amount : A -> Z) x l :
  sumOf amount (x :: l) = (amount x + sumOf amount l)%Z.
Proof. reflexivity. Qed.


Lemma sumOf_app {A} (amount : A -> Z) l1 l2 :
  sumOf amount (l1 ++ l2) = (sumOf amount l1 + sumOf amount l2)%Z.
Proof. induction l1; simpl; lia. Qed.


Lemma filter_split_perm {A} (f : A -> bool) l :
  List.filter f l ++ List.filter (fun x => negb (f x)) l ≡ₚ l.
Proof.
  induction l as [|x l IH]; simpl; [done|].
  destruct (f x); simpl.
  - by rewrite IH.
  - rewrite <- Permutation_middle. by rewrite IH.
Qed.

Lemma entries_perm {V} (o : JsObject.t V) : JsObject.entries o ≡ₚ o.
Proof. unfold JsObject.entries. rewrite sort_perm. apply filter_split_perm. Qed.

Lemma own_Some {V} key (o : JsObject.t V) v :
  JsObject.own key o = Some v -> (key, v) ∈ o.
Proof.
  induction o as [|[k v'] o IH]; simpl; [done|].
  destruct (decide (k = key)) as [->|]; [intros [= ->]; by left|].
  intros H. right. by apply IH.
Qed.

Lemma own_None {V} key (o : JsObject.t V) :
  JsObject.own key o = None -> key ∉ map fst o.
Proof.
  induction o as [|[k v'] o IH]; simpl; [intros _ H; by apply elem_of_nil in H|].
  destruct (decide (k = key)) as [->|]; [done|].
  intros H Hin. apply elem_of_cons in Hin as [->|Hin]; [done|]. by apply IH.
Qed.

Lemma assign_keys {V} key v (o : JsObject.t V) :
  map fst (JsObject.assign key v o)
  = match JsObject.own key o with
    | Some _ => map fst o
    | None => map fst o ++ [key]
    end.
Proof.
  induction o as [|[k v'] o IH]; simpl; [done|].
  destruct (decide (k = key)) as [->|]; [done|]. simpl. rewrite IH.
  by destruct (JsObject.own key o).
Qed.

Lemma assign_NoDup {V} key v (o : JsObject.t V) :
  NoDup (map fst o) -> NoDup (map fst (JsObject.assign key v o)).
Proof.
  intros H. rewrite assign_keys. destruct (JsObject.own key o) eqn:E; [done|].
  apply NoDup_app. split_and!; [done| |apply NoDup_singleton].
  intros x Hx ->%list_elem_of_singleton. by apply own_None in E.
Qed.

Lemma assign_Forall {V} (P : jsstring * V -> Prop) key v (o : JsObject.t V) :
  Forall P o -> P (key, v) -> Forall P (JsObject.assign key v o).
Proof.
  intros Ho Hv. induction Ho as [|[k v'] o Hk Ho IH]; simpl; [by constructor|].
  destruct (decide (k = key)) as [->|]; constructor; done.
Qed.

Lemma assign_sum {V} (amount : jsstring * V -> Z) key v (o : JsObject.t V) :
  sumOf amount (JsObject.assign key v o)
  = (sumOf amount o + amount (key, v)
     - match JsObject.own key o with
       | Some old => amount (key, old)
       | None => 0
       end)%Z.
Proof.
  induction o as [|[k v'] o IH]; simpl; [lia|].
  destruct (decide (k = key)) as [->|]; simpl; [lia|]. rewrite IH. lia.
Qed.

(** ** The most sold products *)

Lemma byCountThenRevenue_before a b :
  (byCountThenRevenue a b < 0)%Z -> notBelow a b.
Proof.
  unfold byCountThenRevenue, notBelow, truthy, truthy_number. cbv zeta.
  destruct (Z.eqb_spec (TopProduct.count b - TopProduct.count a) 0); cbn [negb]; lia.
Qed.

Lemma byCountThenRevenue_after a b :
  ~ (byCountThenRevenue a b < 0)%Z -> notBelow b a.
Proof.
  unfold byCountThenRevenue, notBelow, truthy, truthy_number. cbv zeta.
  destruct (Z.eqb_spec (TopProduct.count b - TopProduct.count a) 0); cbn [negb]; lia.
Qed.

Lemma notBelow_through a b c : notBelow a b -> notBelow b c -> notBelow a c.
Proof. unfold notBelow. lia. Qed.

(** What the [forEach] of [getTopProducts] keeps true of [productMap]: the
    keys are distinct, none is a name of [Object.prototype], and an entry is
    filed under the key of its own id and has at least one sale. *)
Lemma countProduct_step productMap o :
  NoDup (map fst productMap) ->
  Forall (fun e => keyOfTop (snd e) = fst e /\ (1 <= TopProduct.count (snd e))%Z
                   /\ (fst e ∉ JsObject.inherited) /\ truthy (fst e) = true) productMap ->
  let productMap' := countProduct productMap o in
  NoDup (map fst productMap')
  /\ Forall (fun e => keyOfTop (snd e) = fst e /\ (1 <= TopProduct.count (snd e))%Z
                      /\ (fst e ∉ JsObject.inherited) /\ truthy (fst e) = true) productMap'
  /\ sumOf (fun e => TopProduct.count (snd e)) productMap'
     = (sumOf (fun e => TopProduct.count (snd e)) productMap
        + (if isCounted o then 1 else 0))%Z
  /\ sumOf (fun e => TopProduct.totalRevenue (snd e)) productMap'
     = (sumOf (fun e => TopProduct.totalRevenue (snd e)) productMap
        + (if isCounted o then Payment.productPrice (Order.payment o) else 0))%Z.
Proof.
  intros Hnd Hall. cbv zeta. unfold countProduct, isCounted, isLive. cbv zeta.
  destruct (decide (Order.status o = Status.cancelled)) as [Hc|Hc].
  { rewrite (bool_decide_true _ Hc).
    rewrite (bool_decide_false (Order.status o ≠ Status.cancelled)) by (intros H; by apply H).
    cbn [andb]. split_and!; try done; lia. }
  rewrite (bool_decide_false _ Hc).
  rewrite (bool_decide_true (Order.status o ≠ Status.cancelled)) by done. cbn [andb].
  destruct (truthy (productKey o)) eqn:Hkey; cbn [negb andb];
    [|split_and!; try done; lia].
  assert (Hprice : (if truthy (Payment.productPrice (Order.payment o))
                    then Payment.productPrice (Order.payment o) else 0%Z)
                   = Payment.productPrice (Order.payment o)).
  { unfold truthy, truthy_number.
    destruct (Z.eqb_spec (Payment.productPrice (Order.payment o)) 0) as [->|]; done. }
  destruct (JsObject.own (productKey o) productMap) as [entry|] eqn:Hown.
  - pose proof (own_Some _ _ _ Hown) as Hin.
    pose proof Hall as Hall'. rewrite Forall_forall in Hall'.
    destruct (Hall' _ Hin) as (Hk & Hone & Hnot & _). cbn [fst snd] in Hk, Hone, Hnot.
    rewrite (bool_decide_false _ Hnot). cbn [negb].
    split_and!.
    + by apply assign_NoDup.
    + apply assign_Forall; [done|]. cbn [fst snd]. split_and!; [done| |done|done].
      unfold addSale. cbn [TopProduct.count]. lia.
    + rewrite assign_sum, Hown. cbn [fst snd]. unfold addSale. cbn [TopProduct.count]. lia.
    + rewrite assign_sum, Hown. cbn [fst snd]. unfold addSale. cbn [TopProduct.totalRevenue].
      rewrite Hprice. lia.
  - destruct (decide (productKey o ∈ JsObject.inherited)) as [Hi|Hi].
    { rewrite (bool_decide_true _ Hi). cbn [negb]. split_and!; try done; lia. }
    rewrite (bool_decide_false _ Hi). cbn [negb].
    split_and!.
    + by apply assign_NoDup.
    + apply assign_Forall; [done|]. cbn [fst snd]. split_and!; [done| |done|done].
      unfold addSale. cbn [TopProduct.count]. lia.
    + rewrite assign_sum, Hown. cbn [fst snd]. unfold addSale. cbn [TopProduct.count]. lia.
    + rewrite assign_sum, Hown. cbn [fst snd]. unfold addSale. cbn [TopProduct.totalRevenue].
      rewrite Hprice. lia.
Qed.

Lemma countProduct_fold orders productMap :
  NoDup (map fst productMap) ->
  Forall (fun e => keyOfTop (snd e) = fst e /\ (1 <= TopProduct.count (snd e))%Z
                   /\ (fst e ∉ JsObject.inherited) /\ truthy (fst e) = true) productMap ->
  let productMap' := fold_left countProduct orders productMap in
  NoDup (map fst productMap')
  /\ Forall (fun e => keyOfTop (snd e) = fst e /\ (1 <= TopProduct.count (snd e))%Z
                      /\ (fst e ∉ JsObject.inherited) /\ truthy (fst e) = true) productMap'
  /\ sumOf (fun e => TopProduct.count (snd e)) productMap'
     = (sumOf (fun e => TopProduct.count (snd e)) productMap
        + Z.of_nat (length (List.filter isCounted orders)))%Z
  /\ sumOf (fun e => TopProduct.totalRevenue (snd e)) productMap'
     = (sumOf (fun e => TopProduct.totalRevenue (snd e)) productMap
        + sumOf (fun o => Payment.productPrice (Order.payment o))
            (List.filter isCounted orders))%Z
  /\ (length productMap' <= length productMap + length orders)%nat.
Proof.
  revert productMap. induction orders as [|o orders IH]; intros productMap Hnd Hall; cbv zeta.
  - simpl. split_and!; try done; lia.
  - cbn [fold_left List.filter].
    destruct (countProduct_step productMap o Hnd Hall) as (Hnd' & Hall' & Hc & Hr).
    destruct (IH _ Hnd' Hall') as (Hnd'' & Hall'' & Hc' & Hr' & Hlen).
    split_and!; try done.
    + rewrite Hc', Hc. destruct (isCounted o); cbn [length]; lia.
    + rewrite Hr', Hr. destruct (isCounted o); rewrite ?sumOf_cons; lia.
    + assert (length (countProduct productMap o) <= S (length productMap))%nat; [|simpl; lia].
      unfold countProduct.
      assert (Hassign : forall v, (length (JsObject.assign (productKey o) v productMap)
                                   <= S (length productMap))%nat).
      { intros v. rewrite <- !(length_map fst), assign_keys.
        destruct (JsObject.own _ _); rewrite ?length_app; simpl; lia. }
      repeat match goal with
             | |- context [if ?b then _ else _] => destruct b
             | |- context [match ?x with _ => _ end] => destruct x
             end; first [apply Hassign | lia].
Qed.






Lemma getTopProducts_result toLowerCase limit c w s t :
  getTopProducts toLowerCase limit c w s t
  = mkResult (Done (rankProducts limit (List.filter (orderMatches toLowerCase c) (ledger s)))) s t.
Proof. unfold getTopProducts. by rewrite bind_eq, searchOrders_filter. Qed.

(** The entries of the ranking before it is cut, and the map they come
    from. *)
Lemma rankProducts_facts limit orders :
  let productMap := fold_left countProduct orders [] in
  let top := rankProducts limit orders in
  sublist top (JsArray.sort byCountThenRevenue (JsObject.values productMap))
  /\ JsArray.sort byCountThenRevenue (JsObject.values productMap) ≡ₚ map snd productMap
  /\ map keyOfTop (map snd productMap) = map fst productMap
  /\ inOrder notBelow top.
Proof.
  cbv zeta. unfold rankProducts. cbv zeta. split_and!.
  - apply slice0_sublist.
  - rewrite sort_perm. unfold JsObject.values. by rewrite entries_perm.
  - destruct (countProduct_fold orders [] (NoDup_nil_2) (Forall_nil_2 _)) as (_ & Hall & _).
    cbv zeta in Hall. induction Hall as [|e l (He & _) _ IH]; [done|].
    cbn [map]. by rewrite He, IH.
  - apply slice0_inOrder.
    apply (sort_inOrder byCountThenRevenue notBelow).
    + apply byCountThenRevenue_before.
    + apply byCountThenRevenue_after.
    + apply notBelow_through.
Qed.

(** X10. The list [getTopProducts] returns is ranked and bounded: it holds at
    most [limit] entries when [limit] is not negative; an entry is never
    below a later one (more sales first, the higher revenue first among
    equal sales); no two entries are filed under the same key
    [String(product.id)]; every entry has at least one sale, and its key is
    neither empty nor a name of [Object.prototype].  The store is not
    touched. *)
Theorem X10_top_products_are_ranked_bounded_and_distinct :
  forall toLowerCase limit c w s t,
    exists top,
      getTopProducts toLowerCase limit c w s t = mkResult (Done top) s t
      /\ ((0 <= limit)%Z -> (Z.of_nat (length top) <= limit)%Z)
      /\ (forall i j a b,
            i < j -> top !! i = Some a -> top !! j = Some b -> notBelow a b)
      /\ NoDup (map keyOfTop top)
      /\ Forall (fun e => (1 <= TopProduct.count e)%Z
                          /\ keyOfTop e <> []
                          /\ keyOfTop e ∉ JsObject.inherited) top.
Proof.
  intros toLowerCase limit c w s t. rewrite getTopProducts_result.
  set (found := List.filter (orderMatches toLowerCase c) (ledger s)).
  eexists. split; [reflexivity|].
  destruct (rankProducts_facts limit found) as (Hsub & Hperm & Hkeys & Hord). cbv zeta in *.
  destruct (countProduct_fold found [] (NoDup_nil_2) (Forall_nil_2 _)) as (Hnd & Hall & _).
  cbv zeta in Hnd, Hall.
  split_and!.
  - intros Hlimit. unfold rankProducts. by apply slice0_length.
  - intros i j a b. by apply inOrder_lookup.
  - eapply sublist_NoDup; [|by apply (fmap_sublist keyOfTop), Hsub].
    change (NoDup (keyOfTop <$> JsArray.sort byCountThenRevenue
                     (JsObject.values (fold_left countProduct found [])))).
    rewrite Hperm. change (NoDup (map keyOfTop (map snd (fold_left countProduct found [])))).
    by rewrite Hkeys.
  - eapply Forall_forall. intros e He.
    assert (He' : e ∈ map snd (fold_left countProduct found [])).
    { rewrite <- Hperm. eapply elem_of_subseteq; [|exact He]. by apply sublist_subseteq. }
    apply list_elem_of_fmap in He' as ([k e'] & -> & Hin). cbn [snd].
    rewrite Forall_forall in Hall. destruct (Hall _ Hin) as (Hk & Hone & Hnot & Htruthy).
    cbn [fst snd] in *. rewrite Hk. split_and!; [done| |done].
    intros ->. done.
Qed.


(** ** Sales by period *)

Lemma liveSum_filter amount l :
  liveSum amount l = sumOf amount (List.filter isLive l).
Proof.
  induction l as [|o l IH]; [done|]. cbn [liveSum foldr List.filter].
  fold (liveSum amount l). rewrite IH. destruct (isLive o); [by rewrite sumOf_cons|lia].
Qed.


Section Periods.
Variable toLowerCase : jsstring -> jsstring.
Variable toISOString : Z -> jsstring.
Variable getDay getDate : Z -> Z.
Variable setDate : Z -> Z -> Z.
Variable localeCompare : jsstring -> jsstring -> Z.
Variable period : Period.

Let step := countPeriod toISOString getDay getDate setDate period.





End Periods.

(** * More of the handler *)

(** ** What a message leaves alone *)

Section Preserves.
Variable R : Store -> Store -> Prop.
Hypothesis same : forall s, R s s.
Hypothesis chain : forall s1 s2 s3, R s1 s2 -> R s2 s3 -> R s1 s3.

Lemma preserves_ret {A} (a : A) : preserves R (ret a).
Proof. intros w s t. apply same. Qed.
Lemma preserves_get : preserves R get.
Proof. intros w s t. apply same. Qed.
Lemma preserves_ask : preserves R ask.
Proof. intros w s t. apply same. Qed.
Lemma preserves_throw {A} : preserves R (@throw A).
Proof. intros w s t. apply same. Qed.
Lemma preserves_outOfFuel {A} : preserves R (@outOfFuel A).
Proof. intros w s t. apply same. Qed.
Lemma preserves_note e : preserves R (note e).
Proof. intros w s t. apply same. Qed.
Lemma preserves_perform e : preserves R (perform e).
Proof. intros w s t. rewrite store_perform. apply same. Qed.
Lemma preserves_postCalculate a b c : preserves R (postCalculate a b c).
Proof. intros w s t. rewrite postCalculate_eq. destruct (quote w); apply same. Qed.
Lemma preserves_readData : preserves R readData.
Proof. intros w s t. rewrite readData_eq. destruct (dataFile w); apply same. Qed.
Lemma preserves_modify f : (forall s, R s (f s)) -> preserves R (modify f).
Proof. intros H w s t. apply H. Qed.

Lemma preserves_bind {A B} (m : M A) (k : A -> M B) :
  preserves R m -> (forall a, preserves R (k a)) -> preserves R (x <- m ;; k x).
Proof.
  intros Hm Hk w s t. rewrite bind_eq. specialize (Hm w s t).
  destruct (outcome (m w s t)) as [a| |]; [|done|done].
  eapply chain; [exact Hm|]. apply Hk.
Qed.

Lemma preserves_tryCatch {A} (m h : M A) :
  preserves R m -> preserves R h -> preserves R (tryCatch m h).
Proof.
  intros Hm Hh w s t. rewrite try_eq. specialize (Hm w s t).
  destruct (outcome (m w s t)) as [a| |]; [done| |done].
  eapply chain; [exact Hm|]. apply Hh.
Qed.
End Preserves.

(** One statement of a block; [same] and [chain] are the two facts about the
    relation, [solve_modify] proves that an update of the store respects
    it. *)
Ltac preserves_step same chain solve_modify :=
  first
    [ apply (preserves_ret _ same) | apply (preserves_get _ same)
    | apply (preserves_ask _ same) | apply (preserves_throw _ same)
    | apply (preserves_outOfFuel _ same) | apply (preserves_note _ same)
    | apply (preserves_perform _ same) | apply (preserves_postCalculate _ same)
    | apply (preserves_readData _ same)
    | apply preserves_modify; solve_modify
    | apply (preserves_bind _ chain); [|intros ?]
    | apply (preserves_tryCatch _ chain)
    | match goal with
      | |- preserves _ (match ?x with _ => _ end) => destruct x
      | |- preserves _ (if ?b then _ else _) => destruct b
      | |- preserves _ (when ?b _) => destruct b; cbn [when]
      end ].
Ltac preserves_blocks same chain solve_modify :=
  cbv zeta; repeat preserves_step same chain solve_modify.

Lemma sameForOthers_same sender s : sameForOthers sender s s.
Proof. by intros j Hj. Qed.

Lemma sameForOthers_chain sender s1 s2 s3 :
  sameForOthers sender s1 s2 -> sameForOthers sender s2 s3 -> sameForOthers sender s1 s3.
Proof. intros H12 H23 j Hj. by rewrite (H23 j Hj), (H12 j Hj). Qed.

Lemma sameOrders_same s : sameOrders s s.
Proof. reflexivity. Qed.

Lemma sameOrders_chain s1 s2 s3 : sameOrders s1 s2 -> sameOrders s2 s3 -> sameOrders s1 s3.
Proof. unfold sameOrders. congruence. Qed.

(** An update of the entry of the sender, or of a field that is not one of
    the five dictionaries, leaves the other conversations alone. *)
Ltac others_kept :=
  let s := fresh "s" in
  let j := fresh "j" in
  let Hj := fresh "Hj" in
  intros s j Hj; unfold conversationOf;
  cbn [awaitingConfirmation selectedProduct formData awaitingPayment awaitingProduct
       set_awaitingConfirmation set_selectedProduct set_formData set_awaitingPayment
       set_awaitingProduct set_productsMode set_sessions set_sessionsFile set_ordersFile];
  rewrite ?lookup_insert_ne, ?lookup_delete_ne by done; reflexivity.

Lemma sameForOthers_handler toLowerCase normalizeNFD fuel message :
  preserves (sameForOthers (Message.remoteJid message))
    (MessageHandler toLowerCase normalizeNFD fuel message).
Proof.
  induction fuel as [|fuel IH]; [apply preserves_outOfFuel, sameForOthers_same|].
  cbn [MessageHandler].
  unfold confirmationStage, fillForm, collectCity, confirmFinal, confirmProduct, setForm,
    productStage, paymentStage, forwardReceipt, receiptFallback, createOrder, loadOrders,
    saveOrders, newStage, welcome, loadSessions, saveSessions, sendMessage.
  preserves_blocks (sameForOthers_same (Message.remoteJid message))
    (sameForOthers_chain (Message.remoteJid message)) others_kept.
  all: exact IH.
Qed.

(** X13. A message changes the conversation of its sender only: for every
    other sender, the entries in [awaitingConfirmation], [selectedProduct],
    [formData], [awaitingPayment] and [awaitingProduct] are after the run,
    however it ends, what they were before it. *)
Theorem X13_a_message_leaves_the_other_conversations_alone :
  forall toLowerCase normalizeNFD fuel message w s t other,
    other <> Message.remoteJid message ->
    let r := MessageHandler toLowerCase normalizeNFD fuel message w s t in
    awaitingConfirmation (store r) !! other = awaitingConfirmation s !! other
    /\ selectedProduct (store r) !! other = selectedProduct s !! other
    /\ formData (store r) !! other = formData s !! other
    /\ awaitingPayment (store r) !! other = awaitingPayment s !! other
    /\ awaitingProduct (store r) !! other = awaitingProduct s !! other
    /\ resolveStage (store r) other = resolveStage s other.
Proof.
  intros toLowerCase normalizeNFD fuel message w s t other Hother r.
  pose proof (sameForOthers_handler toLowerCase normalizeNFD fuel message w s t other Hother)
    as H.
  fold r in H. unfold conversationOf in H. injection H as H1 H2 H3 H4 H5.
  split_and!; try done. unfold resolveStage. by rewrite H1, H4, H5.
Qed.

(** ** The orders a message writes *)

Ltac orders_kept := let s := fresh "s" in intros s; reflexivity.

Lemma sameOrders_confirmationStage sender message :
  preserves sameOrders (confirmationStage sender message).
Proof.
  unfold confirmationStage, fillForm, collectCity, confirmFinal, confirmProduct, setForm,
    sendMessage.
  preserves_blocks sameOrders_same sameOrders_chain orders_kept.
Qed.

Lemma sameOrders_productStage toLowerCase normalizeNFD sender message :
  preserves sameOrders (productStage toLowerCase normalizeNFD sender message).
Proof.
  unfold productStage, sendMessage.
  preserves_blocks sameOrders_same sameOrders_chain orders_kept.
Qed.

Lemma sameOrders_welcome sender message : preserves sameOrders (welcome sender message).
Proof.
  unfold welcome, saveSessions, sendMessage.
  preserves_blocks sameOrders_same sameOrders_chain orders_kept.
Qed.

(** The order of the payment step, in full. *)
Ltac ask_receipt :=
  match goal with
  | |- context [forwardReceipt ?a ?b ?c ?w ?s ?t] =>
      let H := fresh "Hkeep" in
      let s' := fresh "s" in
      pose proof (forwardReceipt_store a b c w s t) as H;
      destruct (forwardReceipt a b c w s t) as [[?| |] s' ?];
      cbn [store] in H; subst s'
  end.
Ltac ask_order :=
  match goal with
  | |- context [createOrder ?d ?w ?s ?t] =>
      rewrite (createOrder_result d w s t); cbv zeta;
      destruct (rejects w (length t)) eqn:?; cbn [negb]
  end.
Ltac explore_payment :=
  repeat first [ progress settle | ask_receipt | ask_order | ask_world | open_head | case_head ].

Lemma paymentStage_writes sender message w s t :
  let r := paymentStage sender message w s t in
  let productData := default ProductData.empty (selectedProduct s !! sender) in
  let formDataItem := default FormDataItem.empty (formData s !! sender) in
  ordersFile (store r) = ordersFile s
  \/ exists path,
       Message.imageMessage message <> None
       /\ ordersFile (store r)
          = Parsed (ledger s
                    ++ [Order.mk (uuid w) (now w) Status.new
                          (OrderData.customer (orderDraft sender productData formDataItem path))
                          (OrderData.product (orderDraft sender productData formDataItem path))
                          (paymentSnapshot productData formDataItem path) None None None]).
Proof.
  cbv zeta. unfold paymentStage, saveSessions. explore_payment.
  all: try (left; reflexivity).
  all: right; eexists; split; [discriminate|reflexivity].
Qed.

(** X14. One message makes the handler write at most one order, and only the
    payment step writes: the orders file is after the run what it was before
    it, unless the message is not the bot's own, its sender awaits a payment
    and it carries an image; the file then holds the former ledger followed
    by one order with the status [new], the id and the time the world gave,
    the customer, the product and the payment built from what the sender had
    chosen and typed. *)
Theorem X14_a_message_writes_at_most_one_order :
  forall toLowerCase normalizeNFD fuel message w s t,
    let sender := Message.remoteJid message in
    let r := MessageHandler toLowerCase normalizeNFD fuel message w s t in
    let productData := default ProductData.empty (selectedProduct s !! sender) in
    let formDataItem := default FormDataItem.empty (formData s !! sender) in
    ordersFile (store r) = ordersFile s
    \/ (Message.fromMe message = false
        /\ resolveStage s sender = StageType.payment
        /\ Message.imageMessage message <> None
        /\ exists order path,
             ordersFile (store r) = Parsed (ledger s ++ [order])
             /\ Order.id order = uuid w
             /\ Order.timestamp order = now w
             /\ Order.status order = Status.new
             /\ Order.customer order
                = OrderData.customer (orderDraft sender productData formDataItem path)
             /\ Order.product order
                = OrderData.product (orderDraft sender productData formDataItem path)
             /\ Order.payment order = paymentSnapshot productData formDataItem path).
Proof.
  intros toLowerCase normalizeNFD fuel message w s t sender r productData formDataItem.
  subst r. destruct fuel as [|fuel]; [by left|].
  rewrite MessageHandler_eq. destruct (Message.fromMe message) eqn:Hme; [by left|].
  cbv zeta. fold sender.
  set (t' := t ++ [(LogStage sender (resolveStage s sender), true)]).
  destruct (resolveStage s sender) eqn:Hstage.
  - left. apply sameOrders_confirmationStage.
  - destruct (paymentStage_writes sender message w s t') as [H|(path & Himg & H)]; [by left|].
    right. split_and!; try done. eexists _, path. split; [exact H|]. by split_and!.
  - left. apply sameOrders_productStage.
  - left. subst sender. rewrite newStage_eq. cbv zeta.
    set (sender := Message.remoteJid message) in *.
    destruct (negb (JsString.endsWith sender (js "@g.us")) && truthy sender); [|done].
    destruct (sessionsFile s); [|done|].
    all: destruct (negb _ || _);
      [match goal with
       | |- ordersFile (store (welcome ?a ?b ?w' ?s' ?t'')) = _ =>
           exact (sameOrders_welcome a b w' s' t'')
       end|].
    all: destruct (truthy (Message.content message)); [|done].
    all: destruct fuel as [|fuel]; [done|].
    all: rewrite MessageHandler_eq, Hme; cbv zeta; fold sender.
    all: rewrite resolveStage_redispatched by done.
    all: match goal with
         | |- ordersFile (store (productStage ?f ?g ?a ?b ?w' ?s' ?t'')) = _ =>
             exact (sameOrders_productStage f g a b w' s' t'')
         end.
Qed.

(** ** The chats a message makes the bot write to *)

Section Writes.
Variable allowed : jsstring -> Prop.
Variable w : World.

Lemma writes_nothing {A} (m : M A) :
  (forall s t, trace (m w s t) = t) -> writesOnlyTo allowed w m.
Proof. intros H s t. exists []. rewrite H, app_nil_r. by split. Qed.

Lemma writes_ret {A} (a : A) : writesOnlyTo allowed w (ret a).
Proof. by apply writes_nothing. Qed.
Lemma writes_get : writesOnlyTo allowed w get.
Proof. by apply writes_nothing. Qed.
Lemma writes_ask : writesOnlyTo allowed w ask.
Proof. by apply writes_nothing. Qed.
Lemma writes_throw {A} : writesOnlyTo allowed w (@throw A).
Proof. by apply writes_nothing. Qed.
Lemma writes_outOfFuel {A} : writesOnlyTo allowed w (@outOfFuel A).
Proof. by apply writes_nothing. Qed.
Lemma writes_modify f : writesOnlyTo allowed w (modify f).
Proof. by apply writes_nothing. Qed.

Lemma writes_one e (ok : bool) :
  (forall jid, addressee e = Some jid -> allowed jid) ->
  Forall (fun x : Effect * bool => forall jid, addressee (fst x) = Some jid -> allowed jid)
    [(e, ok)].
Proof. intros H. by constructor. Qed.

Lemma writes_note e :
  (forall jid, addressee e = Some jid -> allowed jid) -> writesOnlyTo allowed w (note e).
Proof. intros H s t. eexists. split; [reflexivity|]. by apply writes_one. Qed.

Lemma writes_perform e :
  (forall jid, addressee e = Some jid -> allowed jid) -> writesOnlyTo allowed w (perform e).
Proof.
  intros H s t. rewrite perform_eq.
  destruct (rejects w (length t)); eexists; (split; [reflexivity|]); by apply writes_one.
Qed.

Lemma writes_postCalculate a b c : writesOnlyTo allowed w (postCalculate a b c).
Proof.
  intros s t. rewrite postCalculate_eq.
  destruct (quote w); eexists; (split; [reflexivity|]); by apply writes_one.
Qed.

Lemma writes_readData : writesOnlyTo allowed w readData.
Proof.
  intros s t. rewrite readData_eq.
  destruct (dataFile w); eexists; (split; [reflexivity|]); by apply writes_one.
Qed.

Lemma writes_bind {A B} (m : M A) (k : A -> M B) :
  writesOnlyTo allowed w m -> (forall a, writesOnlyTo allowed w (k a)) ->
  writesOnlyTo allowed w (x <- m ;; k x).
Proof.
  intros Hm Hk s t. rewrite bind_eq. destruct (Hm s t) as (added & Ht & Hall).
  destruct (outcome (m w s t)) as [a| |]; cbn [trace]; [|by exists added..].
  destruct (Hk a (store (m w s t)) (trace (m w s t))) as (added' & Ht' & Hall').
  exists (added ++ added'). rewrite Ht', Ht, app_assoc. split; [done|]. by apply Forall_app.
Qed.

(** [ask] answers the world the block runs in. *)
Lemma writes_ask_bind {B} (k : World -> M B) :
  writesOnlyTo allowed w (k w) -> writesOnlyTo allowed w (x <- ask ;; k x).
Proof. intros Hk s t. rewrite bind_ask. apply Hk. Qed.

Lemma writes_tryCatch {A} (m h : M A) :
  writesOnlyTo allowed w m -> writesOnlyTo allowed w h -> writesOnlyTo allowed w (tryCatch m h).
Proof.
  intros Hm Hh s t. rewrite try_eq. destruct (Hm s t) as (added & Ht & Hall).
  destruct (outcome (m w s t)) as [a| |]; cbn [trace]; [by exists added| |by exists added].
  destruct (Hh (store (m w s t)) (trace (m w s t))) as (added' & Ht' & Hall').
  exists (added ++ added'). rewrite Ht', Ht, app_assoc. split; [done|]. by apply Forall_app.
Qed.
End Writes.

Ltac writes_step solve_addressee :=
  lazymatch goal with
  | |- writesOnlyTo _ _ (bind ask _) => apply writes_ask_bind
  | |- writesOnlyTo _ _ (bind _ _) => apply writes_bind; [|intros ?]
  | |- writesOnlyTo _ _ (tryCatch _ _) => apply writes_tryCatch
  | |- writesOnlyTo _ _ (perform _) => apply writes_perform; solve_addressee
  | |- writesOnlyTo _ _ (note _) => apply writes_note; solve_addressee
  | |- writesOnlyTo _ _ (match ?x with _ => _ end) => destruct x
  | |- writesOnlyTo _ _ (when ?b _) => destruct b; cbn [when]
  | |- writesOnlyTo _ _ _ =>
      first [ apply writes_ret | apply writes_get | apply writes_ask | apply writes_throw
            | apply writes_outOfFuel | apply writes_modify | apply writes_postCalculate
            | apply writes_readData ]
  end.
Ltac writes_blocks solve_addressee := cbv zeta; repeat writes_step solve_addressee.

Ltac sender_or_operator :=
  let jid := fresh "jid" in
  let H := fresh "H" in
  intros jid H; cbn [addressee] in H;
  first [ discriminate H
        | injection H as <-; first [ left; reflexivity | right; reflexivity ] ].

Lemma writes_handler toLowerCase normalizeNFD fuel message w :
  writesOnlyTo (fun jid => jid = Message.remoteJid message \/ jid = operatorJid w) w
    (MessageHandler toLowerCase normalizeNFD fuel message).
Proof.
  induction fuel as [|fuel IH]; [apply writes_outOfFuel|].
  cbn [MessageHandler].
  unfold confirmationStage, fillForm, collectCity, confirmFinal, confirmProduct, setForm,
    productStage, paymentStage, forwardReceipt, receiptFallback, createOrder, loadOrders,
    saveOrders, newStage, welcome, loadSessions, saveSessions, sendMessage.
  writes_blocks sender_or_operator.
  all: exact IH.
Qed.

(** X15. Whatever a message makes the handler do, the bot writes to two
    chats at most: every message it sends or relays during the run goes to
    the sender of the message or to the operator's number
    ([PAYMENT_NUMBER], or the number of the source), and what the trace held
    before the run is kept. *)
Theorem X15_the_bot_writes_to_the_sender_and_the_operator_only :
  forall toLowerCase normalizeNFD fuel message w s t,
    exists added,
      trace (MessageHandler toLowerCase normalizeNFD fuel message w s t) = t ++ added
      /\ forall e ok jid,
           (e, ok) ∈ added -> addressee e = Some jid ->
           jid = Message.remoteJid message \/ jid = operatorJid w.
Proof.
  intros toLowerCase normalizeNFD fuel message w s t.
  destruct (writes_handler toLowerCase normalizeNFD fuel message w s t) as (added & Ht & Hall).
  exists added. split; [done|]. intros e ok jid Hin Hj.
  rewrite Forall_forall in Hall. by apply (Hall (e, ok)).
Qed.

(** ** The form and the product search *)

Lemma trimStart_blank c :
  Forall (fun u => JsString.isWhiteSpace u = true) c -> JsString.trimStart c = [].
Proof. induction 1 as [|u c Hu _ IH]; [done|]. simpl. by rewrite Hu. Qed.

Lemma trim_blank c :
  Forall (fun u => JsString.isWhiteSpace u = true) c -> JsString.trim c = [].
Proof. intros H. unfold JsString.trim. by rewrite (trimStart_blank c H). Qed.

(** X16. The four stages of the form that collect a text take whatever the
    sender's next message is: at [basicName], [basicId], [addressBarrio] and
    [addressAddress] the handler stores the trimmed text of the message in the
    field of the stage and moves to the next stage, leaving the other fields
    and the rest of the store alone, whether or not its prompt for the next
    field could be sent; a message without text, or with white space only, is
    stored as the empty string. *)
Theorem X16_text_stages_take_any_message :
  forall toLowerCase normalizeNFD fuel message w s t f,
    Message.fromMe message = false ->
    awaitingConfirmation s !! Message.remoteJid message = Some (Form f) ->
    FormState.stage f ∈ [basicName; basicId; addressBarrio; addressAddress] ->
    let sender := Message.remoteJid message in
    let typed := typedText (Message.content message) in
    let r := MessageHandler toLowerCase normalizeNFD (S fuel) message w s t in
    exists f',
      store r = set_awaitingConfirmation <[sender := Form f']> s
      /\ FormState.stage f'
         = match FormState.stage f with
           | basicName => basicId
           | basicId => basicConfirmation
           | addressBarrio => addressAddress
           | _ => addressCity
           end
      /\ FormState.name f'
         = (if decide (FormState.stage f = basicName) then Some typed else FormState.name f)
      /\ FormState.idNumber f'
         = (if decide (FormState.stage f = basicId) then Some typed else FormState.idNumber f)
      /\ FormState.barrio f'
         = (if decide (FormState.stage f = addressBarrio) then Some typed else FormState.barrio f)
      /\ FormState.address f'
         = (if decide (FormState.stage f = addressAddress) then Some typed
            else FormState.address f)
      /\ FormState.city f' = FormState.city f
      /\ FormState.deliveryCost f' = FormState.deliveryCost f
      /\ FormState.mapImagePath f' = FormState.mapImagePath f
      /\ (Message.content message = None -> typed = [])
      /\ (forall c, Message.content message = Some c ->
            Forall (fun u => JsString.isWhiteSpace u = true) c -> typed = []).
Proof.
  intros toLowerCase normalizeNFD fuel message w s t f Hme Hform Hstage sender typed r.
  subst r. rewrite (handler_on_form _ _ _ _ _ _ _ f Hme Hform). fold sender.
  assert (Hnone : Message.content message = None -> typed = [])
    by (intros H; subst typed; by rewrite H).
  assert (Hblank : forall c, Message.content message = Some c ->
            Forall (fun u => JsString.isWhiteSpace u = true) c -> typed = []).
  { intros c H Hc. subst typed. rewrite H. by apply trim_blank. }
  unfold fillForm, setForm, sendMessage. cbv zeta. fold typed.
  rewrite !elem_of_cons, elem_of_nil in Hstage.
  destruct Hstage as [E|[E|[E|[E|[]]]]]; rewrite E; rewrite bind_modify;
    rewrite store_perform; eexists; (split; [reflexivity|]);
    split_and!; try done.
Qed.

Lemma handler_on_product toLowerCase normalizeNFD fuel message w s t :
  Message.fromMe message = false ->
  resolveStage s (Message.remoteJid message) = StageType.product ->
  MessageHandler toLowerCase normalizeNFD (S fuel) message w s t
  = productStage toLowerCase normalizeNFD (Message.remoteJid message) message w s
      (t ++ [(LogStage (Message.remoteJid message) StageType.product, true)]).
Proof. intros Hme Hstage. rewrite MessageHandler_eq, Hme. cbv zeta. by rewrite Hstage. Qed.

(** X17. The product step changes the store only when the catalogue holds a
    match: for a sender that awaits a product, either the store is after the
    run what it was before it (a message without text, a catalogue that
    cannot be read, no product that matches), or the message has a text, the
    catalogue was read, [data.find] returned a product for the normalised
    text, and that product is the selected product of the sender. *)
Theorem X17_product_step_changes_the_store_only_on_a_match :
  forall toLowerCase normalizeNFD fuel message w s t,
    Message.fromMe message = false ->
    resolveStage s (Message.remoteJid message) = StageType.product ->
    let sender := Message.remoteJid message in
    let r := MessageHandler toLowerCase normalizeNFD (S fuel) message w s t in
    store r = s
    \/ exists content data found,
         Message.content message = Some content
         /\ content <> []
         /\ dataFile w = Some data
         /\ findProduct toLowerCase normalizeNFD
              (normalizeText toLowerCase normalizeNFD content) data = Some found
         /\ selectedProduct (store r) !! sender = Some found.
Proof.
  intros toLowerCase normalizeNFD fuel message w s t Hme Hstage sender r. subst r.
  rewrite handler_on_product by done. fold sender.
  unfold productStage, sendMessage.
  destruct (Message.content message) as [content|] eqn:Hcontent; [|by left].
  destruct content as [|c content]; [by left|]. cbn [truthy truthy_string].
  rewrite try_bind, readData_eq.
  destruct (dataFile w) as [data|] eqn:Hdata; settle; [|left; by rewrite store_perform].
  destruct (findProduct _ _ _ data) as [found|] eqn:Hfind;
    [|left; rewrite try_eq, perform_eq; destruct (rejects w _); settle;
      [by rewrite store_perform|done]].
  right. exists (c :: content), data, found. split_and!; try done.
  explore.
  all: cbn [selectedProduct set_selectedProduct set_awaitingProduct set_awaitingConfirmation].
  all: by rewrite lookup_insert_eq.
Qed.

(** X18. Once the sender has been told that a product was found, the bot
    expects a yes or a no about that product, whatever happens to the
    picture: when the catalogue holds a match for the text and the message
    [ProductFound] goes through (it is the third entry of the trace, after
    the log of the stage and the read of the catalogue), then, whether or not
    the image can be fetched, stored or sent and whether or not the question
    that follows can be sent, the match is the selected product of the
    sender, [awaitingProduct] is false and [awaitingConfirmation] is true,
    and nothing else in the store has changed: the next message of the
    sender is read as the answer. *)
Theorem X18_found_product_awaits_confirmation_whatever_the_image_does :
  forall toLowerCase normalizeNFD fuel message w s content data found,
    Message.fromMe message = false ->
    resolveStage s (Message.remoteJid message) = StageType.product ->
    Message.content message = Some content ->
    content <> [] ->
    dataFile w = Some data ->
    findProduct toLowerCase normalizeNFD (normalizeText toLowerCase normalizeNFD content) data
    = Some found ->
    rejects w 2 = false ->
    let sender := Message.remoteJid message in
    let r := run (MessageHandler toLowerCase normalizeNFD (S fuel) message) w s in
    store r
    = set_awaitingConfirmation <[sender := Flag true]>
        (set_awaitingProduct <[sender := false]>
           (set_selectedProduct <[sender := found]> s))
    /\ resolveStage (store r) sender = StageType.confirmation
    /\ (SendMessage sender (ProductFound found), true) ∈ trace r.
Proof.
  intros toLowerCase normalizeNFD fuel message w s content data found
    Hme Hstage Hcontent Hne Hdata Hfind Hsent sender r.
  assert (Hr : store r
               = set_awaitingConfirmation <[sender := Flag true]>
                   (set_awaitingProduct <[sender := false]>
                      (set_selectedProduct <[sender := found]> s))
               /\ (SendMessage sender (ProductFound found), true) ∈ trace r).
  { subst r. unfold run. rewrite handler_on_product by done. fold sender. cbn [app].
    unfold productStage, sendMessage. rewrite Hcontent.
    destruct content as [|c content]; [done|]. cbn [truthy truthy_string].
    rewrite try_bind, readData_eq, Hdata. settle. rewrite Hfind.
    rewrite try_bind. settle. rewrite try_bind, perform_eq. cbn [length app].
    rewrite Hsent. settle.
    match goal with
    | |- context [tryCatch ?m ?h w ?s' ?t'] =>
        assert (Hin : forall x, x ∈ t' -> x ∈ trace (tryCatch m h w s' t'))
    end.
    { intros x Hx.
      explore; repeat (rewrite <- ?app_assoc; apply elem_of_app; left); try done;
        rewrite ?elem_of_app; auto. }
    split.
    - explore; reflexivity.
    - apply Hin. rewrite !elem_of_cons. right; right; by left. }
  destruct Hr as [Hstore Htrace]. split_and!; try done.
  rewrite Hstore. unfold resolveStage.
  cbn [awaitingConfirmation set_awaitingConfirmation]. by rewrite lookup_insert_eq.
Qed.

(** ** The listener, the sweep and the session file *)

(** X19. The listener hands the messages of a batch to the handler in the
    order of the batch, each as [getMessage] reads it, up to the first
    message of a group or of the status feed: that message ends the loop
    ([return], not [continue]), so the direct messages that follow it in the
    batch are never handled. *)
Theorem X19_a_group_or_status_message_ends_the_batch :
  forall before message after,
    Forall (fun m => groupOrStatus m = false) before ->
    groupOrStatus message = true ->
    messagesUpsert (before ++ message :: after) = map getMessage before
    /\ messagesUpsert (before ++ after)
       = map getMessage before ++ messagesUpsert after.
Proof.
  intros before message after Hbefore Hmessage.
  induction Hbefore as [|m before Hm _ [IH1 IH2]]; cbn [app messagesUpsert map].
  - split; [|done]. unfold groupOrStatus in Hmessage. by rewrite Hmessage.
  - unfold groupOrStatus in Hm. rewrite Hm. by rewrite IH1, IH2.
Qed.

(** X20. Closing sessions for inactivity does not reset a conversation: a
    sweep, taken alone and however it ends, leaves the five dictionaries of
    the handler,
    [productsMode] and the orders file as they were, so that every sender,
    evicted or not, is still at the stage they were at, and the trace it had
    is kept. *)
Theorem X20_sweep_leaves_conversations_and_orders_alone :
  forall limit w s t,
    let r := checkExpiredSessions limit w s t in
    awaitingConfirmation (store r) = awaitingConfirmation s
    /\ selectedProduct (store r) = selectedProduct s
    /\ formData (store r) = formData s
    /\ awaitingPayment (store r) = awaitingPayment s
    /\ awaitingProduct (store r) = awaitingProduct s
    /\ productsMode (store r) = productsMode s
    /\ ordersFile (store r) = ordersFile s
    /\ (forall jid, resolveStage (store r) jid = resolveStage s jid).
Proof.
  intros limit w s t r. subst r. rewrite checkExpiredSessions_result. cbv zeta.
  destruct (sessionsFile s); [| |]; try (split_and!; reflexivity).
  all: destruct (expiredSenders _ _ _); [split_and!; reflexivity|].
  all: destruct (rejects w _); split_and!; reflexivity.
Qed.

(** X21. [saveSessions] and [loadSessions] round-trip: a write that goes
    through leaves in the file the sessions in memory, and a process that
    finds that file, whatever it has in memory, has after [loadSessions]
    exactly those sessions; a write that fails throws and leaves the file as
    it was. *)
Theorem X21_saved_sessions_are_read_back :
  forall w s t,
    let r := saveSessions w s t in
    if rejects w (length t) then
      outcome r = Thrown /\ store r = s /\ trace r = t ++ [(WriteSessions, false)]
    else
      outcome r = Done tt
      /\ sessionsFile (store r) = Parsed (sessions s)
      /\ sessions (store r) = sessions s
      /\ forall w' s' t',
           sessionsFile s' = sessionsFile (store r) ->
           loadSessions w' s' t'
           = mkResult (Done tt) (set_sessions (fun _ => sessions s) s') t'.
Proof.
  intros w s t r. subst r. unfold saveSessions.
  rewrite bind_eq, perform_eq. destruct (rejects w (length t)); settle; [done|].
  split_and!; try done.
  intros w' s' t' Hfile. rewrite loadSessions_result. cbn [sessionsFile set_sessionsFile] in Hfile.
  unfold known. by rewrite Hfile.
Qed.

(** ** The catalogue on a text that normalises to nothing *)

(** X24. A text that [normalizeText] reduces to the empty string (a text made
    of combining accents only) matches every product, since every string
    includes the empty one: the lookup returns the first product of the
    catalogue, and nothing only when the catalogue is empty. *)
Theorem X24_text_that_normalises_to_nothing_selects_the_first_product :
  forall toLowerCase normalizeNFD content data,
    normalizeText toLowerCase normalizeNFD content = [] ->
    catalogueLookup toLowerCase normalizeNFD content data = head data.
Proof.
  intros toLowerCase normalizeNFD content data Hempty.
  unfold catalogueLookup, findProduct. rewrite Hempty.
  destruct data as [|first rest]; [done|]. cbn [List.find head].
  unfold matchesQuery.
  assert (Hany : forall text, JsString.includes text [] = true) by (by intros [|c text]).
  by rewrite Hany.
Qed.

(** ** The payment step, start to end *)

Lemma handler_on_payment toLowerCase normalizeNFD fuel message w s t :
  Message.fromMe message = false ->
  resolveStage s (Message.remoteJid message) = StageType.payment ->
  MessageHandler toLowerCase normalizeNFD (S fuel) message w s t
  = paymentStage (Message.remoteJid message) message w s
      (t ++ [(LogStage (Message.remoteJid message) StageType.payment, true)]).
Proof. intros Hme Hstage. rewrite MessageHandler_eq, Hme. cbv zeta. by rewrite Hstage. Qed.

Ltac ask_calm Hcalm :=
  match goal with
  | |- context [perform ?e ?w ?s ?t] => rewrite (perform_eq e w s t), (Hcalm (length t))
  | |- context [sendMessage ?j ?m ?w ?s ?t] =>
      change (sendMessage j m w s t) with (perform (SendMessage j m) w s t)
  | |- context [createOrder ?d ?w ?s ?t] =>
      rewrite (createOrder_result d w s t); cbv zeta; rewrite (Hcalm (length t)); cbn [negb]
  | |- context [loadSessions ?w ?s ?t] =>
      rewrite (loadSessions_result w s t); unfold known;
      cbn [sessionsFile sessions set_formData set_selectedProduct set_awaitingConfirmation
           set_awaitingProduct set_awaitingPayment set_ordersFile set_sessions];
      match goal with
      | |- context [match sessionsFile ?s0 with _ => _ end] =>
          destruct (sessionsFile s0) eqn:?; [|done|]
      end
  end.
Ltac calmly Hcalm :=
  repeat first [ progress settle | ask_calm Hcalm | open_head | case_head ].

(** The payment step in a world where no call fails, in full. *)
Lemma paymentStage_goes_through sender message image w s t :
  Message.imageMessage message = Some image ->
  (forall n, rejects w n = false) ->
  sessionsFile s <> Unparsable ->
  let productData := default ProductData.empty (selectedProduct s !! sender) in
  let formDataItem := default FormDataItem.empty (formData s !! sender) in
  let path :=
    match ImageMessage.jpegThumbnail image with
    | Some _ => receiptPath w 0
    | None => []
    end in
  let order :=
    Order.mk (uuid w) (now w) Status.new
      (OrderData.customer (orderDraft sender productData formDataItem path))
      (OrderData.product (orderDraft sender productData formDataItem path))
      (paymentSnapshot productData formDataItem path) None None None in
  let cleared :=
    set_sessions (fun _ => known s)
      (set_formData (delete sender)
         (set_selectedProduct (delete sender)
            (set_awaitingConfirmation (delete sender)
               (set_awaitingProduct (delete sender)
                  (set_awaitingPayment (delete sender)
                     (set_ordersFile (Parsed (ledger s ++ [order])) s)))))) in
  paymentStage sender message w s t
  = mkResult (Done tt)
      match known s !! sender with
      | Some _ =>
          set_sessionsFile (Parsed (delete sender (known s)))
            (set_sessions (delete sender) cleared)
      | None => cleared
      end
      (t ++ [(SendMessage (operatorJid w)
                (NewPurchase formDataItem productData (js "+" ++ JsString.splitHead 64 sender)
                   (notifiedTotal productData formDataItem)), true);
             (RelayMessage (operatorJid w) (Message.id message), true)]
         ++ match ImageMessage.jpegThumbnail image with
            | Some _ => [(WriteReceipt (receiptPath w 0), true)]
            | None => []
            end
         ++ [(WriteOrders, true)]
         ++ (if io w then [(EmitNewOrder order, true)] else [])
         ++ [(SendMessage sender ThankYou, true)]
         ++ match known s !! sender with
            | Some _ => [(WriteSessions, true)]
            | None => []
            end).
Proof.
  intros Himage Hcalm Hfile. cbv zeta.
  unfold paymentStage. rewrite Himage. fold (operatorJid w).
  unfold forwardReceipt, receiptFallback, saveSessions, known.
  calmly Hcalm.
  all: cbn [sessions sessionsFile set_formData set_selectedProduct
            set_awaitingConfirmation set_awaitingProduct set_awaitingPayment set_ordersFile
            set_sessions set_sessionsFile] in *.
  all: repeat match goal with
         | H : sessionsFile _ = _ |- _ => rewrite H in *; clear H
         | H : _ !! _ = _ |- _ => rewrite H in *
         end.
  all: destruct (io w); cbn [app]; rewrite <- ?app_assoc; cbn [app]; reflexivity.
Qed.

(** X22. A receipt closes the purchase when every call goes through: for a
    sender that awaits a payment, a message with an image, in a world where
    no call fails and with a session file that can be parsed, the run ends
    normally; the operator is notified, the receipt relayed (and its
    thumbnail, if it has one, stored), the order written and announced, and
    only then the customer thanked, in that order and with nothing else; the
    ledger holds one more order, built from what the sender had chosen and
    typed and from the path of the stored receipt (empty without a
    thumbnail); the five entries of the sender are deleted, so that the next
    message starts at [new]; and the session of the sender is dropped, in
    memory and, if there was one, in the file. *)
Theorem X22_a_receipt_closes_the_purchase_when_every_call_goes_through :
  forall toLowerCase normalizeNFD fuel message w s image,
    Message.fromMe message = false ->
    resolveStage s (Message.remoteJid message) = StageType.payment ->
    Message.imageMessage message = Some image ->
    (forall n, rejects w n = false) ->
    sessionsFile s <> Unparsable ->
    let sender := Message.remoteJid message in
    let r := run (MessageHandler toLowerCase normalizeNFD (S fuel) message) w s in
    let productData := default ProductData.empty (selectedProduct s !! sender) in
    let formDataItem := default FormDataItem.empty (formData s !! sender) in
    let path :=
      match ImageMessage.jpegThumbnail image with
      | Some _ => receiptPath w 0
      | None => []
      end in
    let order :=
      Order.mk (uuid w) (now w) Status.new
        (OrderData.customer (orderDraft sender productData formDataItem path))
        (OrderData.product (orderDraft sender productData formDataItem path))
        (paymentSnapshot productData formDataItem path) None None None in
    outcome r = Done tt
    /\ trace r
       = [(LogStage sender StageType.payment, true);
          (SendMessage (operatorJid w)
             (NewPurchase formDataItem productData (js "+" ++ JsString.splitHead 64 sender)
                (notifiedTotal productData formDataItem)), true);
          (RelayMessage (operatorJid w) (Message.id message), true)]
         ++ match ImageMessage.jpegThumbnail image with
            | Some _ => [(WriteReceipt (receiptPath w 0), true)]
            | None => []
            end
         ++ [(WriteOrders, true)]
         ++ (if io w then [(EmitNewOrder order, true)] else [])
         ++ [(SendMessage sender ThankYou, true)]
         ++ match known s !! sender with
            | Some _ => [(WriteSessions, true)]
            | None => []
            end
    /\ ordersFile (store r) = Parsed (ledger s ++ [order])
    /\ conversationOf (store r) sender = (None, None, None, None, None)
    /\ resolveStage (store r) sender = StageType.new
    /\ (forall jid,
          sessions (store r) !! jid
          = if decide (jid = sender) then None else known s !! jid)
    /\ (forall lastTime, known s !! sender = Some lastTime ->
          sessionsFile (store r) = Parsed (delete sender (known s))).
Proof.
  intros toLowerCase normalizeNFD fuel message w s image Hme Hstage Himage Hcalm Hfile sender r.
  subst r. unfold run. rewrite handler_on_payment by done. fold sender.
  rewrite (paymentStage_goes_through sender message image) by done.
  cbv zeta. cbn [app outcome store trace]. unfold conversationOf, resolveStage.
  destruct (known s !! sender) as [lastTime|] eqn:Hknown.
  all: cbn [sessions sessionsFile ordersFile awaitingConfirmation selectedProduct formData
            awaitingPayment awaitingProduct set_formData set_selectedProduct
            set_awaitingConfirmation set_awaitingProduct set_awaitingPayment set_ordersFile
            set_sessions set_sessionsFile].
  all: rewrite ?lookup_delete_eq; cbn [truthy truthy_option].
  all: split_and!; try done.
  all: intros jid; destruct (decide (jid = sender)) as [->|Hne];
    rewrite ?lookup_delete_eq, ?lookup_delete_ne by done; done.
Qed.

Ltac decide_index :=
  cbn [length app];
  match goal with
  | |- context [@bool_decide (@eq nat ?a ?b) ?d] =>
      first [ rewrite (@bool_decide_true (a = b) d) by lia
            | rewrite (@bool_decide_false (a = b) d) by lia ]
  end.
Ltac ask_but Hw Hio :=
  match goal with
  | |- context [perform ?e ?w ?s ?t] =>
      rewrite (perform_eq e w s t), (Hw (length t)); decide_index
  | |- context [sendMessage ?j ?m ?w ?s ?t] =>
      change (sendMessage j m w s t) with (perform (SendMessage j m) w s t)
  | |- context [createOrder ?d ?w ?s ?t] =>
      rewrite (createOrder_result d w s t); cbv zeta; rewrite (Hw (length t)), Hio;
      decide_index; cbn [negb]
  end.
Ltac all_but Hw Hio :=
  repeat first [ progress settle | ask_but Hw Hio | open_head | case_head ].

(** The payment step in a world where the thank-you alone fails. *)
Lemma paymentStage_thank_you_fails sender message image w s :
  Message.imageMessage message = Some image ->
  (forall n,
     rejects w n
     = bool_decide
         (n = 4 + (match ImageMessage.jpegThumbnail image with Some _ => 1 | None => 0 end)
              + (if io w then 1 else 0))) ->
  let productData := default ProductData.empty (selectedProduct s !! sender) in
  let formDataItem := default FormDataItem.empty (formData s !! sender) in
  let path :=
    match ImageMessage.jpegThumbnail image with
    | Some _ => receiptPath w 0
    | None => []
    end in
  let order :=
    Order.mk (uuid w) (now w) Status.new
      (OrderData.customer (orderDraft sender productData formDataItem path))
      (OrderData.product (orderDraft sender productData formDataItem path))
      (paymentSnapshot productData formDataItem path) None None None in
  paymentStage sender message w s [(LogStage sender StageType.payment, true)]
  = mkResult (Done tt)
      (set_ordersFile (Parsed (ledger s ++ [order])) s)
      ([(LogStage sender StageType.payment, true);
        (SendMessage (operatorJid w)
           (NewPurchase formDataItem productData (js "+" ++ JsString.splitHead 64 sender)
              (notifiedTotal productData formDataItem)), true);
        (RelayMessage (operatorJid w) (Message.id message), true)]
         ++ match ImageMessage.jpegThumbnail image with
            | Some _ => [(WriteReceipt (receiptPath w 0), true)]
            | None => []
            end
         ++ [(WriteOrders, true)]
         ++ (if io w then [(EmitNewOrder order, true)] else [])
         ++ [(SendMessage sender ThankYou, false);
             (SendMessage sender PaymentProblem, true)]).
Proof.
  intros Himage Hw. cbv zeta.
  unfold paymentStage. rewrite Himage. fold (operatorJid w).
  unfold forwardReceipt, receiptFallback.
  destruct (ImageMessage.jpegThumbnail image) as [bytes|] eqn:Hthumb;
    destruct (io w) eqn:Hio; cbn [Nat.add] in Hw.
  all: all_but Hw Hio.
  all: reflexivity.
Qed.

(** X23. A thank-you that cannot be sent leaves the order written and the
    sender at the payment step: when every call of the payment step goes
    through but the thank-you to the customer, the run still ends normally
    with an apology sent in its place; the ledger holds the new order, and
    nothing else in the store has changed, so the sender still awaits a
    payment.  A second receipt then goes through the payment step again, and
    when every call goes through it adds a second order for the same
    customer and the same product to the ledger. *)
Theorem X23_failed_thank_you_keeps_the_order_and_the_payment_step :
  forall toLowerCase normalizeNFD fuel message w s image,
    Message.fromMe message = false ->
    resolveStage s (Message.remoteJid message) = StageType.payment ->
    Message.imageMessage message = Some image ->
    (forall n,
       rejects w n
       = bool_decide
           (n = 4 + (match ImageMessage.jpegThumbnail image with Some _ => 1 | None => 0 end)
                + (if io w then 1 else 0))) ->
    let sender := Message.remoteJid message in
    let r := run (MessageHandler toLowerCase normalizeNFD (S fuel) message) w s in
    exists order before,
      outcome r = Done tt
      /\ store r = set_ordersFile (Parsed (ledger s ++ [order])) s
      /\ Order.id order = uuid w
      /\ resolveStage (store r) sender = StageType.payment
      /\ trace r
         = before ++ [(WriteOrders, true)]
             ++ (if io w then [(EmitNewOrder order, true)] else [])
             ++ [(SendMessage sender ThankYou, false);
                 (SendMessage sender PaymentProblem, true)]
      /\ forall fuel' again w' image',
           Message.fromMe again = false ->
           Message.remoteJid again = sender ->
           Message.imageMessage again = Some image' ->
           (forall n, rejects w' n = false) ->
           sessionsFile s <> Unparsable ->
           let r' :=
             run (MessageHandler toLowerCase normalizeNFD (S fuel') again) w' (store r) in
           exists second,
             ledger (store r') = ledger s ++ [order; second]
             /\ Order.id second = uuid w'
             /\ Order.customer second = Order.customer order
             /\ Order.product second = Order.product order.
Proof.
  intros toLowerCase normalizeNFD fuel message w s image Hme Hstage Himage Hw sender r.
  subst r. unfold run. rewrite handler_on_payment by done. fold sender. cbn [app].
  rewrite (paymentStage_thank_you_fails sender message image) by done.
  cbv zeta. cbn [outcome store trace].
  eexists. eexists. split_and!; try reflexivity.
  - exact Hstage.
  - rewrite (app_assoc [_; _; _]). reflexivity.
  - intros fuel' again w' image' Hme' Hsender Himage' Hcalm Hfile. unfold run.
    rewrite handler_on_payment; [|done|by rewrite Hsender].
    rewrite Hsender.
    rewrite (paymentStage_goes_through sender again image') by done.
    cbv zeta. cbn [store].
    destruct (known _ !! sender);
      cbn [ledger ordersFile set_ordersFile set_sessionsFile set_sessions set_formData
           set_selectedProduct set_awaitingConfirmation set_awaitingProduct set_awaitingPayment];
      (eexists; split_and!; [by rewrite <- app_assoc|reflexivity|reflexivity|reflexivity]).
Qed.

(** * The further properties on closed examples *)

Ltac decided := apply (bool_decide_unpack _); vm_compute; exact I.

Lemma X1_order_of_ana_is_read_back :
  rejects calm 0 = false
  /\ exists order,
       outcome (createOrder draftOfAna calm twoOrders []) = Done order
       /\ ordersFile (store (createOrder draftOfAna calm twoOrders []))
          = Parsed [firstOrder; secondOrder; order].
Proof.
  split; [reflexivity|].
  destruct (X1_created_order_is_read_back toLowerCaseLatin1 draftOfAna calm twoOrders []
              eq_refl) as (order & H1 & _ & _ & _ & _ & _ & _ & H8 & _).
  exists order. split; [exact H1|exact H8].
Defined.

Lemma X2_order_of_ana_when_the_write_fails :
  rejects (failingAt 0 calm) 0 = true
  /\ exists order,
       outcome (createOrder draftOfAna (failingAt 0 calm) twoOrders []) = Done order
       /\ store (createOrder draftOfAna (failingAt 0 calm) twoOrders []) = twoOrders.
Proof.
  split; [reflexivity|].
  destruct (X2_failed_write_still_returns_and_announces_the_order draftOfAna
              (failingAt 0 calm) twoOrders [] eq_refl) as (order & H1 & _ & H3 & _).
  exists order. split; [exact H1|exact H3].
Defined.

Lemma X3_no_order_9_among_two_orders :
  Forall (fun o => Order.id o <> js "order-9") (ledger twoOrders)
  /\ updateOrderStatus (js "order-9") Status.completed None calm twoOrders []
     = mkResult (Done None) twoOrders [].
Proof.
  assert (H : Forall (fun o => Order.id o <> js "order-9") (ledger twoOrders)) by decided.
  split; [exact H|].
  exact (proj1 (X3_unknown_order_id_changes_nothing calm twoOrders [] (js "order-9")
                  Status.completed None H)).
Defined.

Lemma X4_completed_order_1_is_read_back :
  let after := Order.set_attended (js "Luis") (now calm)
                 (Order.set_status Status.completed firstOrder) in
  outcome (updateOrderStatus (js "order-1") Status.completed (Some (js "Luis")) calm twoOrders [])
  = Done (Some after)
  /\ outcome (getOrderById (js "order-1") calm
                (store (updateOrderStatus (js "order-1") Status.completed (Some (js "Luis"))
                          calm twoOrders [])) [])
     = Done (Some after).
Proof.
  intros after.
  assert (H : outcome (updateOrderStatus (js "order-1") Status.completed (Some (js "Luis"))
                         calm twoOrders []) = Done (Some after)) by (vm_compute; reflexivity).
  split; [exact H|].
  exact (proj1 (X4_updated_order_is_read_back calm twoOrders [] (js "order-1")
                  Status.completed (Some (js "Luis")) after H calm []) eq_refl).
Defined.

Lemma X6_new_orders_among_all_orders :
  narrows (askStatus Status.new OrderSearchCriteria.empty) OrderSearchCriteria.empty
  /\ exists fewer more,
       outcome (searchOrders toLowerCaseLatin1 (askStatus Status.new OrderSearchCriteria.empty)
                  calm twoOrders []) = Done fewer
       /\ sublist fewer more.
Proof.
  assert (H : narrows (askStatus Status.new OrderSearchCriteria.empty)
                OrderSearchCriteria.empty) by (repeat split; by left).
  split; [exact H|].
  destruct (X6_narrower_search_finds_a_subsequence toLowerCaseLatin1 _ _ calm twoOrders [] H)
    as (fewer & more & H1 & _ & H3 & _).
  exists fewer, more. split; [exact H1|exact H3].
Defined.







Lemma X13_hello_of_ana_leaves_bob_alone :
  bob <> Message.remoteJid (says ana (js "hola"))
  /\ awaitingProduct (store (handle calm (says ana (js "hola")) aboutToPay)) !! bob = None.
Proof.
  assert (H : bob <> Message.remoteJid (says ana (js "hola"))) by decided.
  split; [exact H|].
  destruct (X13_a_message_leaves_the_other_conversations_alone toLowerCaseLatin1
              normalizeNFDLatin1 2 (says ana (js "hola")) calm aboutToPay [] bob H)
    as (_ & _ & _ & _ & H5 & _).
  unfold handle, run. rewrite H5. vm_compute. reflexivity.
Defined.

Lemma X16_ana_types_her_name :
  awaitingConfirmation atTheName !! ana = Some (Form FormState.initial)
  /\ exists f',
       store (handle calm (says ana (js "Ana Ruiz")) atTheName)
       = set_awaitingConfirmation <[ana := Form f']> atTheName
       /\ FormState.stage f' = basicId.
Proof.
  assert (H : awaitingConfirmation atTheName !! ana = Some (Form FormState.initial))
    by (vm_compute; reflexivity).
  split; [exact H|].
  assert (Hstage : FormState.stage FormState.initial
                   ∈ [basicName; basicId; addressBarrio; addressAddress])
    by apply list_elem_of_here.
  destruct (X16_text_stages_take_any_message toLowerCaseLatin1 normalizeNFDLatin1 1
              (says ana (js "Ana Ruiz")) calm atTheName [] FormState.initial eq_refl H Hstage)
    as (f' & H1 & H2 & _).
  exists f'. split; [exact H1|exact H2].
Defined.

Lemma X17_ana_asks_for_the_shirt :
  resolveStage afterHello ana = StageType.product
  /\ (store (handle calm (says ana (js "camisa")) afterHello) = afterHello
      \/ selectedProduct (store (handle calm (says ana (js "camisa")) afterHello)) !! ana
         <> None).
Proof.
  assert (H : resolveStage afterHello ana = StageType.product) by (vm_compute; reflexivity).
  split; [exact H|].
  destruct (X17_product_step_changes_the_store_only_on_a_match toLowerCaseLatin1
              normalizeNFDLatin1 1 (says ana (js "camisa")) calm afterHello [] eq_refl H)
    as [Hsame|(content & data & found & _ & _ & _ & _ & Hfound)].
  - left. exact Hsame.
  - right. intros Hnone. discriminate (eq_trans (eq_sym Hnone) Hfound).
Defined.

Lemma X18_the_shirt_awaits_the_yes_of_ana :
  resolveStage afterHello ana = StageType.product
  /\ findProduct toLowerCaseLatin1 normalizeNFDLatin1
       (normalizeTextLatin1 (js "camisa")) smallCatalogue = Some shirt
  /\ resolveStage (store (handle calm (says ana (js "camisa")) afterHello)) ana
     = StageType.confirmation.
Proof.
  assert (H : resolveStage afterHello ana = StageType.product) by (vm_compute; reflexivity).
  assert (Hfind : findProduct toLowerCaseLatin1 normalizeNFDLatin1
                    (normalizeText toLowerCaseLatin1 normalizeNFDLatin1 (js "camisa"))
                    smallCatalogue = Some shirt) by (vm_compute; reflexivity).
  assert (Hne : js "camisa" <> []) by discriminate.
  split; [exact H|]. split; [exact Hfind|].
  exact (proj1 (proj2 (X18_found_product_awaits_confirmation_whatever_the_image_does
                         toLowerCaseLatin1 normalizeNFDLatin1 1 (says ana (js "camisa")) calm
                         afterHello (js "camisa") smallCatalogue shirt eq_refl H eq_refl Hne
                         eq_refl Hfind eq_refl))).
Defined.

Lemma X19_bob_after_a_group_is_not_served :
  groupOrStatus fromAGroup = true
  /\ messagesUpsert [direct ana (js "hola"); fromAGroup; direct bob (js "hola")]
     = [says ana (js "hola")].
Proof.
  assert (H : groupOrStatus fromAGroup = true) by (vm_compute; reflexivity).
  split; [exact H|].
  assert (Hbefore : Forall (fun m => groupOrStatus m = false) [direct ana (js "hola")])
    by (repeat constructor).
  exact (proj1 (X19_a_group_or_status_message_ends_the_batch [direct ana (js "hola")]
                  fromAGroup [direct bob (js "hola")] Hbefore H)).
Defined.

Lemma every_call_of_calm_goes_through : forall n, rejects calm n = false.
Proof. reflexivity. Qed.

Lemma X22_ana_pays_for_the_shirt :
  resolveStage aboutToPay ana = StageType.payment
  /\ outcome (handle calm (sendsPhoto ana) aboutToPay) = Done tt
  /\ resolveStage (store (handle calm (sendsPhoto ana) aboutToPay)) ana = StageType.new.
Proof.
  assert (H : resolveStage aboutToPay ana = StageType.payment) by (vm_compute; reflexivity).
  assert (Hfile : sessionsFile aboutToPay <> Unparsable) by (vm_compute; discriminate).
  split; [exact H|].
  destruct (X22_a_receipt_closes_the_purchase_when_every_call_goes_through toLowerCaseLatin1
              normalizeNFDLatin1 1 (sendsPhoto ana) calm aboutToPay _ eq_refl H eq_refl
              every_call_of_calm_goes_through Hfile)
    as (H1 & _ & _ & _ & H5 & _).
  split; [exact H1|exact H5].
Defined.

Lemma the_thank_you_alone_fails :
  forall n,
    rejects (failingAt 6 calm) n
    = bool_decide
        (n = 4 + (match ImageMessage.jpegThumbnail (ImageMessage.mk (Some [255; 216; 255]%N))
                  with Some _ => 1 | None => 0 end)
             + (if io (failingAt 6 calm) then 1 else 0)).
Proof. reflexivity. Qed.

Lemma X23_ana_is_not_thanked :
  resolveStage aboutToPay ana = StageType.payment
  /\ exists order,
       ledger (store (handle (failingAt 6 calm) (sendsPhoto ana) aboutToPay)) = [order]
       /\ resolveStage (store (handle (failingAt 6 calm) (sendsPhoto ana) aboutToPay)) ana
          = StageType.payment.
Proof.
  assert (H : resolveStage aboutToPay ana = StageType.payment) by (vm_compute; reflexivity).
  split; [exact H|].
  destruct (X23_failed_thank_you_keeps_the_order_and_the_payment_step toLowerCaseLatin1
              normalizeNFDLatin1 1 (sendsPhoto ana) (failingAt 6 calm) aboutToPay _ eq_refl H
              eq_refl the_thank_you_alone_fails)
    as (order & before & _ & H2 & _ & H4 & _).
  exists order. split; [|exact H4].
  unfold handle. rewrite H2. reflexivity.
Defined.

Lemma X24_an_accent_alone_selects_the_shirt :
  normalizeText toLowerCaseLatin1 normalizeNFDLatin1 [769%N] = []
  /\ catalogueLookup toLowerCaseLatin1 normalizeNFDLatin1 [769%N] smallCatalogue = Some shirt.
Proof.
  assert (H : normalizeText toLowerCaseLatin1 normalizeNFDLatin1 [769%N] = [])
    by (vm_compute; reflexivity).
  split; [exact H|].
  exact (X24_text_that_normalises_to_nothing_selects_the_first_product toLowerCaseLatin1
           normalizeNFDLatin1 [769%N] smallCatalogue H).
Defined.
